(** * ImageConverter: a shallow embedding of [image_converter.py]

    The converter is a thin layer of Python over Pillow and [os]: a format
    table, a format resolver, the single-image pipeline [process_image], the
    file enumerator [find_image_files] and the batch driver
    [process_directory].  The embedding keeps that shape.

    - Strings are [string]s of 8-bit characters; [str.lower] is the ASCII
      case mapping.  Paths follow [posixpath].
    - The format table is an association list in the insertion order of the
      Python dict, because [process_directory] depends on that order.
    - Python exceptions are values of [exn]; a computation that may raise
      returns a [result].  Every exception modelled is an instance of
      [Exception], which is what Pillow, [os] and float arithmetic raise.
    - Floats are IEEE binary64, computed with the Standard Library's
      [SpecFloat] (precision 53, maximal exponent 1024).
    - Pillow and the file system are a record of operations over an abstract
      world; each call is logged in a trace, so that theorems can speak of
      what was handed to the decoder, the resampler and the encoder.
    - [print] writes to a console that accepts every line: it appends the
      line to the trace and succeeds.  Python's [print] raises
      [UnicodeEncodeError] for a line that the encoding of [sys.stdout]
      lacks a character of; [print_on] takes the console as a parameter,
      and [process_image_on] is [process_image] on such a console, for what
      depends on a refused line. *)

From Stdlib Require Import ZArith List String Ascii Bool Lia.
From Stdlib Require Import Floats.SpecFloat.
From Stdlib Require Import Numbers.DecimalString.
Import ListNotations.

Local Open Scope string_scope.
Local Open Scope Z_scope.

(** ** Python strings *)

Module Str.

(** [c.lower()] on one ASCII character. *)
Definition lower_ascii (c : ascii) : ascii :=
  let n := nat_of_ascii c in
  if (Nat.leb 65 n && Nat.leb n 90)%bool then ascii_of_nat (n + 32) else c.

(** [s.lower()] *)
Fixpoint lower (s : string) : string :=
  match s with
  | EmptyString => EmptyString
  | String c s' => String (lower_ascii c) (lower s')
  end.

(** [s[n:]] for [0 <= n] *)
Fixpoint drop (n : nat) (s : string) : string :=
  match n, s with
  | O, _ => s
  | S _, EmptyString => EmptyString
  | S n', String _ s' => drop n' s'
  end.

(** [s[:n]] for [0 <= n] *)
Fixpoint take (n : nat) (s : string) : string :=
  match n, s with
  | O, _ => EmptyString
  | S _, EmptyString => EmptyString
  | S n', String c s' => String c (take n' s')
  end.

(** [s.startswith(p)] *)
Fixpoint startswith (s p : string) {struct p} : bool :=
  match p, s with
  | EmptyString, _ => true
  | String _ _, EmptyString => false
  | String a p', String b s' => (Ascii.eqb a b && startswith s' p')%bool
  end.

(** [s.endswith(suffix)] *)
Definition endswith (s suffix : string) : bool :=
  (Nat.leb (String.length suffix) (String.length s)
   && String.eqb (drop (String.length s - String.length suffix) s) suffix)%bool.

(** [s.endswith(suffixes)] with a tuple of suffixes *)
Definition endswith_any (s : string) (suffixes : list string) : bool :=
  existsb (endswith s) suffixes.

Fixpoint rfind_aux (c : ascii) (s : string) (i acc : Z) : Z :=
  match s with
  | EmptyString => acc
  | String a s' => rfind_aux c s' (i + 1) (if Ascii.eqb a c then i else acc)
  end.

(** [s.rfind(c)]: the highest index of [c], or [-1]. *)
Definition rfind (s : string) (c : ascii) : Z := rfind_aux c s 0 (-1).

(** [s.replace(c, '')] *)
Fixpoint remove_char (c : ascii) (s : string) : string :=
  match s with
  | EmptyString => EmptyString
  | String a s' =>
      if Ascii.eqb a c then remove_char c s' else String a (remove_char c s')
  end.

(** [s.rstrip(c)] *)
Fixpoint rstrip (c : ascii) (s : string) : string :=
  match s with
  | EmptyString => EmptyString
  | String a s' =>
      match rstrip c s' with
      | EmptyString => if Ascii.eqb a c then EmptyString else String a EmptyString
      | r => String a r
      end
  end.

Fixpoint split_aux (c : ascii) (s : string) (cur : string) : list string :=
  match s with
  | EmptyString => [cur]
  | String a s' =>
      if Ascii.eqb a c then cur :: split_aux c s' EmptyString
      else split_aux c s' (cur ++ String a EmptyString)
  end.

(** [s.split(c)] *)
Definition split (s : string) (c : ascii) : list string :=
  split_aux c s EmptyString.

(** [c.join(parts)] *)
Definition join (c : string) (parts : list string) : string :=
  String.concat c parts.

(** Python truthiness of a string. *)
Definition nonempty (s : string) : bool :=
  match s with EmptyString => false | _ => true end.

(** [all(ch == c for ch in s)] *)
Fixpoint all_char (c : ascii) (s : string) : bool :=
  match s with
  | EmptyString => true
  | String a s' => (Ascii.eqb a c && all_char c s')%bool
  end.

(** [str(n)] for an integer *)
Definition of_Z (n : Z) : string := NilZero.string_of_int (Z.to_int n).

(** The double quote. *)
Definition dquote : ascii := ascii_of_nat 34.

Definition hex_digit (n : nat) : ascii :=
  nth n (list_ascii_of_string "0123456789abcdef") "0"%char.

(** One character of [repr(s)], inside the quotes [quote]: the quote and
    the backslash are escaped, tab, line feed and carriage return have their
    letters, and the other characters that are not printable (the control
    characters, the no-break space and the soft hyphen) are written
    [\xhh]. *)
Definition repr_char (quote c : ascii) : string :=
  let n := nat_of_ascii c in
  if (Ascii.eqb c quote || Ascii.eqb c "\")%bool
  then String "\" (String c EmptyString)
  else if Nat.eqb n 9 then "\t"
  else if Nat.eqb n 10 then "\n"
  else if Nat.eqb n 13 then "\r"
  else if (Nat.ltb n 32 || Nat.eqb n 127
           || (Nat.leb 128 n && Nat.leb n 160) || Nat.eqb n 173)%bool
  then String "\" (String "x" (String (hex_digit (n / 16))
                                (String (hex_digit (n mod 16)) EmptyString)))
  else String c EmptyString.

(** [repr(s)]: in single quotes, or in double quotes when [s] has a single
    quote and no double quote. *)
Definition repr (s : string) : string :=
  let chars := list_ascii_of_string s in
  let quote :=
    if (existsb (Ascii.eqb "'") chars && negb (existsb (Ascii.eqb dquote) chars))%bool
    then dquote else "'"%char in
  String quote
    (String.concat EmptyString (map (repr_char quote) chars)
     ++ String quote EmptyString).

End Str.

(** ** Exceptions and results *)

(** An instance of a subclass of [Exception]: its class name and [str(e)]. *)
Record exn : Type := mk_exn { exn_class : string; exn_str : string }.

Inductive result (A : Type) : Type :=
| Ok (a : A)
| Raise (e : exn).
Arguments Ok {A} a.
Arguments Raise {A} e.

Definition rbind {A B : Type} (r : result A) (k : A -> result B) : result B :=
  match r with
  | Ok a => k a
  | Raise e => Raise e
  end.

(** ** [posixpath] *)

Module Path.

Definition sep : ascii := "/"%char.
Definition extsep : ascii := "."%char.

(** The loop of [genericpath._splitext] that skips leading dots: it looks
    for a character other than [extsep] in [p[filenameIndex:dotIndex]]. *)
Fixpoint has_non_dot (s : string) : bool :=
  match s with
  | EmptyString => false
  | String a s' => if Ascii.eqb a extsep then has_non_dot s' else true
  end.

(** [os.path.splitext(p)] *)
Definition splitext (p : string) : string * string :=
  let sepIndex := Str.rfind p sep in
  let dotIndex := Str.rfind p extsep in
  if dotIndex >? sepIndex then
    let filenameIndex := sepIndex + 1 in
    if has_non_dot (Str.take (Z.to_nat (dotIndex - filenameIndex))
                      (Str.drop (Z.to_nat filenameIndex) p))
    then (Str.take (Z.to_nat dotIndex) p, Str.drop (Z.to_nat dotIndex) p)
    else (p, EmptyString)
  else (p, EmptyString).

(** [os.path.basename(p)] *)
Definition basename (p : string) : string :=
  let i := Str.rfind p sep + 1 in
  Str.drop (Z.to_nat i) p.

(** [os.path.dirname(p)] *)
Definition dirname (p : string) : string :=
  let i := Str.rfind p sep + 1 in
  let head := Str.take (Z.to_nat i) p in
  if (Str.nonempty head && negb (Str.all_char sep head))%bool
  then Str.rstrip sep head
  else head.

(** One step of [os.path.join]: [path] extended by the component [b]. *)
Definition join2 (path b : string) : string :=
  if Str.startswith b "/" then b
  else if (negb (Str.nonempty path) || Str.endswith path "/")%bool then path ++ b
  else path ++ "/" ++ b.

(** [os.path.join(a, *p)] *)
Definition join (a : string) (p : list string) : string :=
  fold_left join2 p a.

(** [os.path.isabs(p)] *)
Definition isabs (p : string) : bool := Str.startswith p "/".

(** The loop of [normpath] over the components of the path. *)
Fixpoint norm_comps (initial_slashes : bool) (comps new_comps : list string)
  : list string :=
  match comps with
  | [] => new_comps
  | comp :: rest =>
      if (String.eqb comp "" || String.eqb comp ".")%bool
      then norm_comps initial_slashes rest new_comps
      else if (negb (String.eqb comp "..")
               || (negb initial_slashes
                   && match new_comps with [] => true | _ => false end)
               || match rev new_comps with
                  | last :: _ => String.eqb last ".."
                  | [] => false
                  end)%bool
      then norm_comps initial_slashes rest (new_comps ++ [comp])
      else norm_comps initial_slashes rest (removelast new_comps)
  end.

(** [os.path.normpath(path)] *)
Definition normpath (path : string) : string :=
  if String.eqb path "" then "."
  else
    let initial_slashes : nat :=
      if Str.startswith path "/" then
        if (Str.startswith path "//" && negb (Str.startswith path "///"))%bool
        then 2%nat else 1%nat
      else 0%nat in
    let comps := norm_comps (negb (Nat.eqb initial_slashes 0))
                   (Str.split path sep) [] in
    let path' := Str.join "/" comps in
    let path' :=
      match initial_slashes with
      | O => path'
      | S O => "/" ++ path'
      | _ => "//" ++ path'
      end in
    if Str.nonempty path' then path' else ".".

(** [os.path.abspath(path)], with the current directory [cwd] of the
    process ([os.getcwd()]). *)
Definition abspath (cwd path : string) : string :=
  normpath (if isabs path then path else join cwd [path]).

(** [len(os.path.commonprefix([l1, l2]))] on lists of components *)
Fixpoint common_len (l1 l2 : list string) : nat :=
  match l1, l2 with
  | a :: l1', b :: l2' => if String.eqb a b then S (common_len l1' l2') else O
  | _, _ => O
  end.

(** [[x for x in p.split(sep) if x]] *)
Definition components (p : string) : list string :=
  filter Str.nonempty (Str.split p sep).

(** [os.path.relpath(path, start)] *)
Definition relpath (cwd path start : string) : result string :=
  if negb (Str.nonempty path)
  then Raise (mk_exn "ValueError" "no path specified")
  else
    let start_list := components (abspath cwd start) in
    let path_list := components (abspath cwd path) in
    let i := common_len start_list path_list in
    let rel_list :=
      (repeat ".." (List.length start_list - i) ++ skipn i path_list)%list in
    match rel_list with
    | [] => Ok "."
    | a :: p => Ok (join a p)
    end.

End Path.

(** ** The format table *)

(** [SUPPORTED_FORMATS], in the dict's insertion order. *)
Definition SUPPORTED_FORMATS : list (string * string) :=
  [ ("jpg", "JPEG"); ("jpeg", "JPEG"); ("png", "PNG"); ("webp", "WEBP");
    ("bmp", "BMP"); ("tiff", "TIFF"); ("gif", "GIF") ].

(** [d.get(k)] on a dict kept as an association list. *)
Fixpoint dict_get (d : list (string * string)) (k : string) : option string :=
  match d with
  | [] => None
  | (k', v) :: d' => if String.eqb k' k then Some v else dict_get d' k
  end.

(** [d[k]]: raises [KeyError(k)] when [k] is absent; the text of that
    exception is [repr(k)]. *)
Definition dict_item (d : list (string * string)) (k : string) : result string :=
  match dict_get d k with
  | Some v => Ok v
  | None => Raise (mk_exn "KeyError" (Str.repr k))
  end.

(** [k in d] *)
Definition dict_mem (d : list (string * string)) (k : string) : bool :=
  match dict_get d k with Some _ => true | None => false end.

(** Python truthiness of an [Optional[str]]. *)
Definition truthy_str (s : option string) : bool :=
  match s with
  | Some s => Str.nonempty s
  | None => false
  end.

(** [os.path.splitext(output_path)[1].lower().replace('.', '')] *)
Definition path_extension (output_path : string) : string :=
  Str.remove_char "." (Str.lower (snd (Path.splitext output_path))).

(** The lines of [get_output_format] below its first [if]: the format of the
    extension of the path, JPEG when the extension is not in the table. *)
Definition from_extension (output_path : string) : result string :=
  let ext := path_extension output_path in
  if dict_mem SUPPORTED_FORMATS ext then dict_item SUPPORTED_FORMATS ext
  else
    (* Default format if not recognized *)
    Ok "JPEG".

(** [get_output_format(output_path, specified_type)] *)
Definition get_output_format (output_path : string)
    (specified_type : option string) : result string :=
  match specified_type with
  | Some t =>
      if Str.nonempty t then dict_item SUPPORTED_FORMATS (Str.lower t)
      else from_extension output_path
  | None => from_extension output_path
  end.

(** ** Floats *)

(** Python's [float] is IEEE binary64. *)
Module PyFloat.

Definition prec : Z := 53.
Definition emax : Z := 1024.

Definition float : Type := spec_float.

(** [float(n)] for an integer [n]: the nearest double, or [OverflowError]. *)
Definition of_int (n : Z) : result float :=
  match binary_normalize prec emax n 0 false with
  | S754_infinity _ =>
      Raise (mk_exn "OverflowError" "int too large to convert to float")
  | f => Ok f
  end.

(** [x / y] on floats. *)
Definition truediv (x y : float) : result float :=
  match y with
  | S754_zero _ => Raise (mk_exn "ZeroDivisionError" "float division by zero")
  | _ => Ok (SFdiv prec emax x y)
  end.

(** [x * y] on floats. *)
Definition mul (x y : float) : float := SFmul prec emax x y.

(** [int(x)]: truncation toward zero. *)
Definition to_int (x : float) : result Z :=
  match x with
  | S754_zero _ => Ok 0
  | S754_infinity _ =>
      Raise (mk_exn "OverflowError" "cannot convert float infinity to integer")
  | S754_nan =>
      Raise (mk_exn "ValueError" "cannot convert float NaN to integer")
  | S754_finite s m e =>
      Ok (cond_Zopp s
            (if 0 <=? e then Z.shiftl (Zpos m) e
             else Z.shiftr (Zpos m) (- e)))
  end.

(** [n / y] with an integer numerator: [n] is converted first. *)
Definition int_truediv (n : Z) (y : float) : result float :=
  rbind (of_int n) (fun x => truediv x y).

End PyFloat.

(** ** The resize step of [process_image] (the [if width or height] block) *)

(** Python truthiness of an [Optional[int]]: [None] and [0] are false. *)
Definition truthy (x : option Z) : bool :=
  match x with
  | Some n => negb (n =? 0)
  | None => false
  end.

(** [width / float(n)] where [width] is an [Optional[int]] known to be
    truthy at the call; on [None] Python raises [TypeError]. *)
Definition opt_truediv (x : option Z) (y : PyFloat.float) : result PyFloat.float :=
  match x with
  | Some n => PyFloat.int_truediv n y
  | None =>
      Raise (mk_exn "TypeError"
               "unsupported operand type(s) for /: 'NoneType' and 'float'")
  end.

(** The size handed to [img.resize], or [None] when the image is not
    resized.  [size] is [img.size]. *)
Definition resize_target (size : Z * Z) (width height : option Z)
  : result (option (option Z * option Z)) :=
  if (truthy width || truthy height)%bool then
    (* If only one dimension is specified, calculate the other proportionally *)
    if (truthy width && negb (truthy height))%bool then
      rbind (PyFloat.of_int (fst size)) (fun w0 =>
      rbind (opt_truediv width w0) (fun wpercent =>
      rbind (PyFloat.of_int (snd size)) (fun h0 =>
      rbind (PyFloat.to_int (PyFloat.mul h0 wpercent)) (fun height' =>
      Ok (Some (width, Some height'))))))
    else if (truthy height && negb (truthy width))%bool then
      rbind (PyFloat.of_int (snd size)) (fun h0 =>
      rbind (opt_truediv height h0) (fun hpercent =>
      rbind (PyFloat.of_int (fst size)) (fun w0 =>
      rbind (PyFloat.to_int (PyFloat.mul w0 hpercent)) (fun width' =>
      Ok (Some (Some width', height))))))
    else Ok (Some (width, height))
  else Ok None.

(** ** Pillow and the file system *)

(** Keyword arguments of [img.save]: [quality] is an integer, [optimize] a
    boolean. *)
Inductive kwarg : Type :=
| KwInt (n : Z)
| KwBool (b : bool).

(** The resampling filters of [PIL.Image]. *)
Inductive resampling : Type :=
| NEAREST | BOX | BILINEAR | HAMMING | BICUBIC | LANCZOS.

(** A directory entry: a file that is not a directory, or a directory with
    its entries, in the order the file system iterates them. *)
#[warnings="-register-all"]
Inductive node : Type :=
| File (name : string)
| Dir (name : string) (children : list node).

Definition node_name (n : node) : string :=
  match n with
  | File name => name
  | Dir name _ => name
  end.

Definition is_dir (n : node) : bool :=
  match n with
  | File _ => false
  | Dir _ _ => true
  end.

(** What the program uses of Pillow and [os], over a world [World] (the file
    system and the process) and image objects [Img].  Every operation may
    raise; those that write return the new world. *)
Record Library (World Img : Type) : Type := {
  (** [img.mode] *)
  img_mode : Img -> string;
  (** [img.size] *)
  img_size : Img -> Z * Z;
  (** [Image.open(path)] *)
  Image_open : string -> World -> result Img * World;
  (** [img.convert(mode)] *)
  Image_convert : Img -> string -> World -> result Img * World;
  (** [img.resize(size, resample)] *)
  Image_resize :
    Img -> option Z * option Z -> resampling -> World -> result Img * World;
  (** [img.save(path, format=format, **kwargs)] *)
  Image_save :
    Img -> string -> string -> list (string * kwarg) -> World
    -> result unit * World;
  (** [os.makedirs(path, exist_ok=True)] *)
  os_makedirs : string -> World -> result unit * World;
  (** [os.getcwd()] *)
  os_getcwd : World -> string;
  (** The entries of the directory at a path, or the [OSError] that listing
      it raises. *)
  fs_entries : string -> World -> result (list node)
}.
Arguments img_mode {World Img} _ _.
Arguments img_size {World Img} _ _.
Arguments Image_open {World Img} _ _ _.
Arguments Image_convert {World Img} _ _ _ _.
Arguments Image_resize {World Img} _ _ _ _ _.
Arguments Image_save {World Img} _ _ _ _ _ _.
Arguments os_makedirs {World Img} _ _ _.
Arguments os_getcwd {World Img} _ _.
Arguments fs_entries {World Img} _ _ _.

(** The calls the program makes, in order. *)
Inductive event (Img : Type) : Type :=
| EvOpen (path : string)
| EvConvert (img : Img) (mode : string)
| EvResize (img : Img) (size : option Z * option Z) (resample : resampling)
| EvMakedirs (path : string)
| EvSave (img : Img) (path format : string) (kwargs : list (string * kwarg))
| EvListdir (path : string)
| EvWalk (path : string)
| EvPrint (line : string).
Arguments EvOpen {Img} path.
Arguments EvConvert {Img} img mode.
Arguments EvResize {Img} img size resample.
Arguments EvMakedirs {Img} path.
Arguments EvSave {Img} img path format kwargs.
Arguments EvListdir {Img} path.
Arguments EvWalk {Img} path.
Arguments EvPrint {Img} line.

Record state (World Img : Type) : Type := mk_state {
  world : World;
  trace : list (event Img)
}.
Arguments mk_state {World Img} world trace.
Arguments world {World Img} s.
Arguments trace {World Img} s.

(** The state at the start of a run: nothing logged yet. *)
Definition fresh {World Img : Type} (w : World) : state World Img :=
  mk_state w [].

(** [colorama.Fore] *)
Module Fore.
Definition esc : string := String (ascii_of_nat 27) EmptyString.
Definition RED : string := esc ++ "[31m".
Definition GREEN : string := esc ++ "[32m".
Definition YELLOW : string := esc ++ "[33m".
Definition CYAN : string := esc ++ "[36m".
Definition WHITE : string := esc ++ "[37m".
End Fore.

(** [os.walk]: one triple [(root, dirs, files)] per directory, top down. *)
Definition dir_names (entries : list node) : list string :=
  map node_name (filter is_dir entries).

Definition file_names (entries : list node) : list string :=
  map node_name (filter (fun n => negb (is_dir n)) entries).

Fixpoint walk_node (top : string) (n : node)
  : list (string * list string * list string) :=
  match n with
  | File _ => []
  | Dir name children =>
      let new_path := Path.join top [name] in
      (new_path, dir_names children, file_names children)
        :: flat_map (walk_node new_path) children
  end.

Definition walk (top : string) (entries : list node)
  : list (string * list string * list string) :=
  (top, dir_names entries, file_names entries)
    :: flat_map (walk_node top) entries.

(** [tuple(f".{ext}" for ext in SUPPORTED_FORMATS.keys())] *)
Definition valid_extensions : list string :=
  map (fun kv => "." ++ fst kv) SUPPORTED_FORMATS.

(** [file.lower().endswith(valid_extensions)] *)
Definition has_image_extension (file : string) : bool :=
  Str.endswith_any (Str.lower file) valid_extensions.

(** [next((k for k, v in SUPPORTED_FORMATS.items() if v == output_format), 'jpg')] *)
Fixpoint first_key (d : list (string * string)) (output_format : string)
    (default : string) : string :=
  match d with
  | [] => default
  | (k, v) :: d' =>
      if String.eqb v output_format then k else first_key d' output_format default
  end.

Definition format_extension (output_format : string) : string :=
  first_key SUPPORTED_FORMATS output_format "jpg".

(** ** The program *)

(** [sys.stdout], as [print] uses it: writing a line may raise. *)
Definition Console (World : Type) : Type :=
  string -> World -> result unit * World.

Section Converter.

Context {World Img : Type}.
Variable lib : Library World Img.

(** A computation that reads and writes the world, logs its calls, and
    either returns or raises.  What was done before a [raise] stays done. *)
Definition M (A : Type) : Type :=
  state World Img -> result A * state World Img.

Definition ret {A : Type} (a : A) : M A := fun s => (Ok a, s).

Definition bind {A B : Type} (m : M A) (k : A -> M B) : M B :=
  fun s =>
    match m s with
    | (Ok a, s') => k a s'
    | (Raise e, s') => (Raise e, s')
    end.

(** A pure computation that may raise. *)
Definition lift {A : Type} (r : result A) : M A := fun s => (r, s).

(** [try: body  except Exception as e: handler(e)] *)
Definition try_except {A : Type} (body : M A) (handler : exn -> M A) : M A :=
  fun s =>
    match body s with
    | (Ok a, s') => (Ok a, s')
    | (Raise e, s') => handler e s'
    end.

Notation "x <- m ;; k" := (bind m (fun x => k))
  (at level 61, m at next level, right associativity).
Notation "m ;;; k" := (bind m (fun _ => k))
  (at level 61, right associativity).

(** A call of the library: the event is logged, then the world answers. *)
Definition call {A : Type} (ev : event Img)
    (op : World -> result A * World) : M A :=
  fun s =>
    let (r, w) := op (world s) in
    (r, mk_state w (trace s ++ [ev])).

(** [print(line)] on a console that accepts every line. *)
Definition print (line : string) : M unit :=
  fun s => (Ok tt, mk_state (world s) (trace s ++ [EvPrint line])).

(** [print(line)] on the console [stdout], which may refuse a line by
    raising: a line refused is not written. *)
Definition print_on (stdout : Console World) (line : string) : M unit :=
  fun s =>
    match stdout line (world s) with
    | (Ok _, w) => (Ok tt, mk_state w (trace s ++ [EvPrint line]))
    | (Raise e, w) => (Raise e, mk_state w (trace s))
    end.

Definition open (path : string) : M Img :=
  call (EvOpen path) (Image_open lib path).

Definition convert (img : Img) (mode : string) : M Img :=
  call (EvConvert img mode) (Image_convert lib img mode).

Definition resize (img : Img) (size : option Z * option Z)
    (resample : resampling) : M Img :=
  call (EvResize img size resample) (Image_resize lib img size resample).

Definition save (img : Img) (path format : string)
    (kwargs : list (string * kwarg)) : M unit :=
  call (EvSave img path format kwargs) (Image_save lib img path format kwargs).

Definition makedirs (path : string) : M unit :=
  call (EvMakedirs path) (os_makedirs lib path).

Definition getcwd : M string := fun s => (Ok (os_getcwd lib (world s)), s).

(** [os.listdir(directory)] *)
Definition listdir (directory : string) : M (list string) :=
  call (EvListdir directory)
    (fun w => (rbind (fs_entries lib directory w)
                 (fun entries => Ok (map node_name entries)), w)).

(** [list(os.walk(directory))]; a directory that cannot be listed yields
    nothing ([onerror] is [None]). *)
Definition os_walk (directory : string)
  : M (list (string * list string * list string)) :=
  call (EvWalk directory)
    (fun w => (match fs_entries lib directory w with
               | Ok entries => Ok (walk directory entries)
               | Raise _ => Ok []
               end, w)).

(** The [save_kwargs] of [process_image]. *)
Definition save_kwargs (output_format : string) (quality : Z)
  : list (string * kwarg) :=
  ((if (String.eqb output_format "JPEG" || String.eqb output_format "WEBP")%bool
    then [("quality", KwInt quality)] else [])
   ++ (if String.eqb output_format "PNG"
       then [("optimize", KwBool true)] else []))%list.

(** The body of the [try] block of [process_image]. *)
Definition process_image_body (input_path output_path output_format : string)
    (quality : Z) (width height : option Z) (grayscale : bool) : M bool :=
  (* Load the image *)
  img <- open input_path ;;
  (* Color mode conversion if needed *)
  img <- (if grayscale then convert img "L"
          else if (String.eqb (img_mode lib img) "RGBA"
                   && String.eqb output_format "JPEG")%bool
          then
            (* JPEG doesn't support transparency, convert to RGB *)
            convert img "RGB"
          else ret img) ;;
  (* Resize if needed *)
  target <- lift (resize_target (img_size lib img) width height) ;;
  img <- (match target with
          | Some size => resize img size LANCZOS
          | None => ret img
          end) ;;
  (* Create output directory if it doesn't exist *)
  cwd <- getcwd ;;
  makedirs (Path.dirname (Path.abspath cwd output_path)) ;;;
  (* Save the image *)
  save img output_path output_format (save_kwargs output_format quality) ;;;
  ret true.

(** [process_image(input_path, output_path, output_format, quality, width,
    height, grayscale)] *)
Definition process_image (input_path output_path output_format : string)
    (quality : Z) (width height : option Z) (grayscale : bool) : M bool :=
  try_except
    (process_image_body input_path output_path output_format quality
       width height grayscale)
    (fun e =>
       print (Fore.RED ++ "Error processing image (" ++ input_path ++ "): "
              ++ exn_str e) ;;;
       ret false).

(** [process_image], printing on the console [stdout]: the [print] of the
    handler stands under no [try], so that what it raises leaves the
    function. *)
Definition process_image_on (stdout : Console World)
    (input_path output_path output_format : string)
    (quality : Z) (width height : option Z) (grayscale : bool) : M bool :=
  try_except
    (process_image_body input_path output_path output_format quality
       width height grayscale)
    (fun e =>
       print_on stdout
         (Fore.RED ++ "Error processing image (" ++ input_path ++ "): "
          ++ exn_str e) ;;;
       ret false).

(** [find_image_files(directory, recursive)] *)
Definition find_image_files (directory : string) (recursive : bool)
  : M (list string) :=
  if recursive then
    triples <- os_walk directory ;;
    ret (flat_map
           (fun t : string * list string * list string =>
              let '(root, _, files) := t in
              map (fun file => Path.join root [file])
                (filter has_image_extension files))
           triples)
  else
    names <- listdir directory ;;
    ret (map (fun file => Path.join directory [file])
           (filter has_image_extension names)).

(** The output path of one input file of a batch, with the directory
    created for it in recursive mode. *)
Definition destination (input_dir output_dir ext : string) (recursive : bool)
    (input_path : string) : M string :=
  if recursive then
    cwd <- getcwd ;;
    rel_path <- lift (Path.relpath cwd input_path input_dir) ;;
    let rel_dir := Path.dirname rel_path in
    let filename := fst (Path.splitext (Path.basename input_path)) in
    (* Create output directory if in recursive mode *)
    if Str.nonempty rel_dir then
      makedirs (Path.join output_dir [rel_dir]) ;;;
      ret (Path.join output_dir [rel_dir; filename ++ "." ++ ext])
    else
      ret (Path.join output_dir [filename ++ "." ++ ext])
  else
    let filename := fst (Path.splitext (Path.basename input_path)) in
    ret (Path.join output_dir [filename ++ "." ++ ext]).

(** The [for input_path in image_files] loop of [process_directory], with
    the running [success_count]. *)
Fixpoint batch_loop (input_dir output_dir output_format ext : string)
    (quality : Z) (width height : option Z) (recursive grayscale : bool)
    (image_files : list string) (success_count : Z) : M Z :=
  match image_files with
  | [] => ret success_count
  | input_path :: rest =>
      (* Calculate relative path for output file *)
      output_path <- destination input_dir output_dir ext recursive input_path ;;
      (* Process image *)
      ok <- process_image input_path output_path output_format quality
              width height grayscale ;;
      batch_loop input_dir output_dir output_format ext quality width height
        recursive grayscale rest
        (if ok : bool then success_count + 1 else success_count)
  end.

(** [process_directory(input_dir, output_dir, output_format, quality, width,
    height, recursive, grayscale)] *)
Definition process_directory (input_dir output_dir output_format : string)
    (quality : Z) (width height : option Z) (recursive grayscale : bool)
  : M (Z * Z) :=
  (* Find image files *)
  image_files <- find_image_files input_dir recursive ;;
  match image_files with
  | [] =>
      print (Fore.YELLOW ++ "No image files found in the specified directory.") ;;;
      ret (0, 0)
  | _ :: _ =>
      (* Create output directory *)
      makedirs output_dir ;;;
      (* Format extension *)
      let ext := format_extension output_format in
      (* Processing *)
      print (Fore.CYAN ++ "Processing images...") ;;;
      success_count <-
        batch_loop input_dir output_dir output_format ext quality width height
          recursive grayscale image_files 0 ;;
      ret (success_count, Z.of_nat (List.length image_files))
  end.

(** The summary that [main] prints after [process_directory] returned
    [(success_count, total_count)]. *)
Definition report_directory (success_count total_count : Z) : M unit :=
  if total_count =? 0 then
    print (Fore.YELLOW ++ "No image files found in the specified directory.")
  else
    print (Fore.GREEN ++ "Processing completed: " ++ Fore.WHITE
           ++ Str.of_Z success_count ++ "/" ++ Str.of_Z total_count
           ++ " images successfully converted.").

End Converter.

(** ** A small in-memory world

    Used to run the program on concrete inputs.  Image objects carry their
    mode and size; the decoder finds them by path; the resampler refuses
    sizes that are not positive, as Pillow's does; the JPEG encoder writes
    the modes of Pillow's JPEG plugin and refuses the others. *)

Module Sim.

Record image : Type := mk_image { mode : string; size : Z * Z }.

Record world : Type := mk_world {
  images : list (string * image);       (* decodable files, by path *)
  dirs : list (string * list node);     (* directories that can be listed *)
  cwd : string;
  written : list (string * string * image)  (* path, format, image *)
}.

Fixpoint lookup {A : Type} (l : list (string * A)) (k : string) : option A :=
  match l with
  | [] => None
  | (k', v) :: l' => if String.eqb k' k then Some v else lookup l' k
  end.

Definition no_such_file (path : string) : exn :=
  mk_exn "FileNotFoundError"
    ("[Errno 2] No such file or directory: " ++ Str.repr path).

Definition image_open (path : string) (w : world) : result image * world :=
  match lookup (images w) path with
  | Some img => (Ok img, w)
  | None => (Raise (no_such_file path), w)
  end.

Definition image_convert (img : image) (m : string) (w : world)
  : result image * world :=
  (Ok (mk_image m (size img)), w).

Definition image_resize (img : image) (sz : option Z * option Z)
    (r : resampling) (w : world) : result image * world :=
  match sz with
  | (Some x, Some y) =>
      if ((0 <? x) && (0 <? y))%bool then (Ok (mk_image (mode img) (x, y)), w)
      else (Raise (mk_exn "ValueError" "height and width must be > 0"), w)
  | _ =>
      (Raise (mk_exn "TypeError"
                "'NoneType' object cannot be interpreted as an integer"), w)
  end.

(** The raw modes of Pillow's [JpegImagePlugin]. *)
Definition jpeg_modes : list string :=
  ["1"; "L"; "RGB"; "RGBX"; "CMYK"; "YCbCr"].

Definition image_save (img : image) (path format : string)
    (kwargs : list (string * kwarg)) (w : world) : result unit * world :=
  if (String.eqb format "JPEG"
      && negb (existsb (String.eqb (mode img)) jpeg_modes))%bool
  then (Raise (mk_exn "OSError"
                 ("cannot write mode " ++ mode img ++ " as JPEG")), w)
  else (Ok tt,
        mk_world (images w) (dirs w) (cwd w)
          (written w ++ [(path, format, img)])).

Definition makedirs (path : string) (w : world) : result unit * world :=
  (Ok tt, w).

Definition entries (path : string) (w : world) : result (list node) :=
  match lookup (dirs w) path with
  | Some l => Ok l
  | None => Raise (no_such_file path)
  end.

Definition library : Library world image := {|
  img_mode := mode;
  img_size := size;
  Image_open := image_open;
  Image_convert := image_convert;
  Image_resize := image_resize;
  Image_save := image_save;
  os_makedirs := makedirs;
  os_getcwd := cwd;
  fs_entries := entries
|}.

(** A console that accepts every line. *)
Definition accepting : Console world := fun _ w => (Ok tt, w).

(** A console whose encoding is ASCII, as a terminal under
    [PYTHONIOENCODING=ascii]: a line is written whole, and the codec refuses
    it at its first run of characters outside ASCII. *)
Definition is_ascii (c : ascii) : bool := Nat.ltb (nat_of_ascii c) 128.

Fixpoint run_length (s : string) : nat :=
  match s with
  | EmptyString => O
  | String c s' => if is_ascii c then O else S (run_length s')
  end.

(** The first character outside ASCII, its index and the length of the run
    it starts. *)
Fixpoint unencodable (s : string) (i : Z) : option (ascii * Z * nat) :=
  match s with
  | EmptyString => None
  | String c s' =>
      if is_ascii c then unencodable s' (i + 1)
      else Some (c, i, S (run_length s'))
  end.

Definition ascii_stdout : Console world :=
  fun line w =>
    match unencodable line 0 with
    | None => (Ok tt, w)
    | Some (c, i, n) =>
        (Raise
           (mk_exn "UnicodeEncodeError"
              ("'ascii' codec can't encode "
               ++ (match n with
                   | S O =>
                       "character '\x"
                       ++ String (Str.hex_digit (nat_of_ascii c / 16))
                            (String (Str.hex_digit (nat_of_ascii c mod 16))
                               EmptyString)
                       ++ "' in position " ++ Str.of_Z i
                   | _ =>
                       "characters in position " ++ Str.of_Z i ++ "-"
                       ++ Str.of_Z (i + Z.of_nat n - 1)
                   end)
               ++ ": ordinal not in range(128)")), w)
    end.

End Sim.

(** ** Notions used by the specification *)

(** The canonical formats: the values of the table. *)
Definition canonical_formats : list string :=
  ["JPEG"; "PNG"; "WEBP"; "BMP"; "TIFF"; "GIF"].

(** The specification's [round(original_height * W / original_width)], read
    on the exact quotient: [n / d] rounded to the nearest integer, ties to
    even as Python's [round] does, for [0 < d]. *)
Definition round_div (n d : Z) : Z :=
  let q := n / d in
  let r := n mod d in
  if 2 * r <? d then q
  else if d <? 2 * r then q + 1
  else if Z.even q then q else q + 1.

(** What the code computes for the missing axis:
    [int(float(other) * (requested / float(original)))]. *)
Definition scaled (other requested original : Z) : result Z :=
  rbind (PyFloat.of_int original) (fun fo =>
  rbind (PyFloat.int_truediv requested fo) (fun percent =>
  rbind (PyFloat.of_int other) (fun fother =>
  PyFloat.to_int (PyFloat.mul fother percent)))).

(** [Image.getmodebands]: the number of bands of a Pillow mode. *)
Definition mode_bands (mode : string) : option nat :=
  if existsb (String.eqb mode) ["1"; "L"; "P"; "I"; "F"; "I;16"] then Some 1%nat
  else if existsb (String.eqb mode) ["LA"; "PA"; "La"] then Some 2%nat
  else if existsb (String.eqb mode) ["RGB"; "YCbCr"; "LAB"; "HSV"] then Some 3%nat
  else if existsb (String.eqb mode) ["RGBA"; "RGBX"; "RGBa"; "CMYK"] then Some 4%nat
  else None.

(** The conversion that [process_image] asks of a decoded source of mode
    [mode]: to L with the grayscale flag, else to RGB for an RGBA source and
    a JPEG target, else none. *)
Definition conversion (grayscale : bool) (mode output_format : string)
  : option string :=
  if grayscale then Some "L"
  else if (String.eqb mode "RGBA" && String.eqb output_format "JPEG")%bool
       then Some "RGB"
       else None.

(** Pillow modes that carry an alpha band. *)
Definition has_alpha (mode : string) : bool :=
  existsb (String.eqb mode) ["LA"; "La"; "PA"; "RGBA"; "RGBa"].

(** What Pillow promises of [convert] and [resize]: the image that [convert]
    returns has the mode asked for, and [resize] keeps the mode. *)
Record PillowLaws {World Img : Type} (lib : Library World Img) : Prop := {
  convert_mode :
    forall img mode w img' w',
      Image_convert lib img mode w = (Ok img', w') -> img_mode lib img' = mode;
  resize_mode :
    forall img size r w img' w',
      Image_resize lib img size r w = (Ok img', w') ->
      img_mode lib img' = img_mode lib img
}.

(** Readings of a trace. *)
Section Traces.

Context {Img : Type}.

(** The paths handed to [Image.open]. *)
Definition opened (tr : list (event Img)) : list string :=
  flat_map (fun ev => match ev with EvOpen p => [p] | _ => [] end) tr.

(** The modes asked of [convert]. *)
Definition converted (tr : list (event Img)) : list string :=
  flat_map (fun ev => match ev with EvConvert _ m => [m] | _ => [] end) tr.

(** The images and sizes handed to [resize]. *)
Definition resized (tr : list (event Img)) : list (Img * (option Z * option Z)) :=
  flat_map (fun ev => match ev with EvResize i sz _ => [(i, sz)] | _ => [] end) tr.

(** The images handed to [save], with the path and the format. *)
Definition saved (tr : list (event Img)) : list (Img * string * string) :=
  flat_map (fun ev => match ev with EvSave i p f _ => [(i, p, f)] | _ => [] end) tr.

(** The directories handed to [os.makedirs]. *)
Definition made_dirs (tr : list (event Img)) : list string :=
  flat_map (fun ev => match ev with EvMakedirs p => [p] | _ => [] end) tr.

(** The lines printed. *)
Definition printed (tr : list (event Img)) : list string :=
  flat_map (fun ev => match ev with EvPrint l => [l] | _ => [] end) tr.

End Traces.

(** The line [process_image] prints for the error [e] on [input_path]. *)
Definition error_line (input_path : string) (e : exn) : string :=
  Fore.RED ++ "Error processing image (" ++ input_path ++ "): " ++ exn_str e.

(** A line that reports a failed conversion. *)
Definition is_error_line (line : string) : bool :=
  Str.startswith line (Fore.RED ++ "Error processing image (").

(** The number of failed conversions reported in a trace. *)
Definition failures {Img : Type} (tr : list (event Img)) : Z :=
  Z.of_nat (List.length (filter is_error_line (printed tr))).

(** ** Concrete inputs *)

Module Inputs.

(** An opaque 800x600 RGB picture, a 4x5 one, an RGBA one, a grey picture
    with an alpha band, and a 49x49 one. *)
Definition photo : Sim.image := Sim.mk_image "RGB" (800, 600).
Definition small : Sim.image := Sim.mk_image "RGB" (4, 5).
Definition logo : Sim.image := Sim.mk_image "RGBA" (64, 64).
Definition glyph : Sim.image := Sim.mk_image "LA" (16, 16).
Definition tile : Sim.image := Sim.mk_image "RGB" (49, 49).

(** A directory [in] with two pictures whose names differ in the extension
    only, a text file, and a sub-directory whose name ends in [.png]. *)
Definition disk : Sim.world :=
  Sim.mk_world
    [ ("photo.png", photo); ("small.png", small); ("logo.png", logo);
      ("glyph.png", glyph); ("tile.png", tile);
      ("in/a.png", logo); ("in/a.jpg", photo) ]
    [ ("in", [ File "a.png"; File "a.jpg"; File "notes.txt";
               Dir "album.png" [ File "readme.md" ] ]);
      ("docs", [ File "notes.txt"; Dir "drafts" [ File "todo.md" ] ]);
      ("pics", [ File "a.png"; File "b.JPG"; File "notes.txt" ]) ]
    "/home/user"
    [].

(** A directory [pics] with a picture, and another one two levels below. *)
Definition archive : Sim.world :=
  Sim.mk_world
    [ ("pics/a.png", photo); ("pics/2024/may/cat.png", logo) ]
    [ ("pics", [ File "a.png";
                 Dir "2024" [ Dir "may" [ File "cat.png"; File "notes.txt" ] ] ]) ]
    "/home/user"
    [].

(** The name [caf\xe9.png], with an e acute, of a file that does not
    exist. *)
Definition cafe : string := "caf" ++ String (ascii_of_nat 233) ".png".

End Inputs.

(** ** Further readings of a trace *)

(** The filters handed to [resize]. *)
Definition resize_filters {Img : Type} (tr : list (event Img)) : list resampling :=
  flat_map (fun ev => match ev with EvResize _ _ r => [r] | _ => [] end) tr.

(** The keyword arguments handed to [save], with the format. *)
Definition save_options {Img : Type} (tr : list (event Img))
  : list (string * list (string * kwarg)) :=
  flat_map (fun ev => match ev with EvSave _ _ f kw => [(f, kw)] | _ => [] end) tr.


(** [name in kwargs] *)
Definition has_kwarg (name : string) (kwargs : list (string * kwarg)) : bool :=
  existsb (fun kv => String.eqb (fst kv) name) kwargs.

(** ** Further notions *)

(** [c in s] *)
Fixpoint str_mem (c : ascii) (s : string) : bool :=
  match s with
  | EmptyString => false
  | String a s' => (Ascii.eqb a c || str_mem c s')%bool
  end.

(** A regular file [name] in the directory [root] of the tree [entries]
    rooted at [top]: in [top] itself, or below one of its sub-directories. *)
Inductive file_at : string -> list node -> string -> string -> Prop :=
| file_here (top : string) (entries : list node) (name : string) :
    In (File name) entries -> file_at top entries top name
| file_below (top : string) (entries : list node) (d : string)
    (children : list node) (root name : string) :
    In (Dir d children) entries ->
    file_at (Path.join top [d]) children root name ->
    file_at top entries root name.

(** A directory entry's name as a file system gives it: not empty, without
    a separator, and neither [.] nor [..]. *)
Definition plain_name (name : string) : bool :=
  (Str.nonempty name && negb (str_mem "/" name)
   && negb (String.eqb name ".") && negb (String.eqb name ".."))%bool.

(** A tree all of whose entries have such names. *)
Fixpoint plain_tree (n : node) : bool :=
  match n with
  | File name => plain_name name
  | Dir name children => (plain_name name && forallb plain_tree children)%bool
  end.

(** A component that [normpath] keeps: not empty and without a separator. *)
Definition is_component (x : string) : bool :=
  (Str.nonempty x && negb (str_mem "/" x))%bool.

(** The components that [normpath] keeps of a path with leading slashes. *)
Definition norm_of (q : string) : list string :=
  Path.norm_comps true (Str.split q "/") [].

(** The argument of [normpath] in [abspath]. *)
Definition anchored (cwd p : string) : string :=
  if Path.isabs p then p else Path.join2 cwd p.

(** A string whose last character is not a separator. *)
Definition ends_plain (s : string) : Prop :=
  exists s0 x, s = s0 ++ String x "" /\ Ascii.eqb x "/" = false.

(** The entries [below] of the directory that the chain of sub-directory
    names [ds] leads to from a directory with the entries [entries]. *)
Inductive reaches : list node -> list string -> list node -> Prop :=
| reaches_here (entries : list node) : reaches entries [] entries
| reaches_below (entries : list node) (d : string) (children : list node)
    (ds : list string) (below : list node) :
    In (Dir d children) entries ->
    reaches children ds below ->
    reaches entries (d :: ds) below.

(** ** [main] *)

(** The namespace that [parse_arguments] returns. *)
Record Namespace : Type := mk_args {
  arg_input : option string;
  arg_directory : option string;
  arg_output : string;
  arg_type : option string;
  arg_quality : Z;
  arg_width : option Z;
  arg_height : option Z;
  arg_recursive : bool;
  arg_grayscale : bool
}.

(** What [parse_arguments] guarantees of [--type]: absent, or one of
    [choices=list(SUPPORTED_FORMATS.keys())]. *)
Definition type_in_choices (t : option string) : bool :=
  match t with
  | None => true
  | Some k => dict_mem SUPPORTED_FORMATS k
  end.

(** [os.path.isfile] and [os.path.isdir] over a world. *)
Record OsPath (World : Type) : Type := {
  os_path_isfile : string -> World -> bool;
  os_path_isdir : string -> World -> bool
}.
Arguments os_path_isfile {World} _ _ _.
Arguments os_path_isdir {World} _ _ _.

(** How the [if args.input: ... else: ...] statement of [main] ends: by one
    of its [return]s, or by reaching its end. *)
Inductive flow : Type := Returned | Completed.

Section Main.

Context {World Img : Type}.
Variable lib : Library World Img.
Variable osp : OsPath World.

Notation "x <- m ;; k" := (bind m (fun x => k))
  (at level 61, m at next level, right associativity).
Notation "m ;;; k" := (bind m (fun _ => k))
  (at level 61, right associativity).

Definition isfile (path : string) : @M World Img bool :=
  fun s => (Ok (os_path_isfile osp path (world s)), s).

Definition isdir (path : string) : @M World Img bool :=
  fun s => (Ok (os_path_isdir osp path (world s)), s).

(** The branch of [main] that processes a single image. *)
Definition main_single (args : Namespace) (input : string) : @M World Img flow :=
  is_file <- isfile input ;;
  if negb is_file then
    print (Fore.RED ++ "Error: The specified input file does not exist.") ;;;
    ret Returned
  else
    output_format <- lift (get_output_format (arg_output args) (arg_type args)) ;;
    print (Fore.CYAN ++ "Processing image: " ++ Fore.WHITE ++ input) ;;;
    print (Fore.CYAN ++ "Output format: " ++ Fore.WHITE ++ output_format) ;;;
    ok <- process_image lib input (arg_output args) output_format
            (arg_quality args) (arg_width args) (arg_height args)
            (arg_grayscale args) ;;
    (if ok : bool then
       print (Fore.GREEN ++ "Image successfully converted: " ++ Fore.WHITE
              ++ arg_output args)
     else
       print (Fore.RED ++ "An error occurred while converting the image.")) ;;;
    ret Completed.

(** The branch of [main] that processes a directory.  [os.path.isdir(None)]
    raises [TypeError]. *)
Definition main_directory (args : Namespace) : @M World Img flow :=
  match arg_directory args with
  | None =>
      lift (Raise (mk_exn "TypeError"
                     "stat: path should be string, bytes, os.PathLike or integer, not NoneType"))
  | Some directory =>
      is_dir <- isdir directory ;;
      if negb is_dir then
        print (Fore.RED ++ "Error: The specified input directory does not exist.") ;;;
        ret Returned
      else
        match arg_type args with
        | Some t =>
            if Str.nonempty t then
              output_format <- lift (dict_item SUPPORTED_FORMATS (Str.lower t)) ;;
              print (Fore.CYAN ++ "Processing directory: " ++ Fore.WHITE ++ directory) ;;;
              print (Fore.CYAN ++ "Output directory: " ++ Fore.WHITE ++ arg_output args) ;;;
              print (Fore.CYAN ++ "Output format: " ++ Fore.WHITE ++ output_format) ;;;
              print (Fore.CYAN ++ "Recursive mode: " ++ Fore.WHITE
                     ++ (if arg_recursive args then "Yes" else "No")) ;;;
              counts <- process_directory lib directory (arg_output args)
                          output_format (arg_quality args) (arg_width args)
                          (arg_height args) (arg_recursive args)
                          (arg_grayscale args) ;;
              report_directory (fst counts) (snd counts) ;;;
              ret Completed
            else
              print (Fore.RED ++ "Error: Output format must be specified (-t/--type) when processing a directory.") ;;;
              ret Returned
        | None =>
            print (Fore.RED ++ "Error: Output format must be specified (-t/--type) when processing a directory.") ;;;
            ret Returned
        end
  end.

(** The [if args.input: ... else: ...] statement of [main]. *)
Definition main_dispatch (args : Namespace) : @M World Img flow :=
  match arg_input args with
  | Some input =>
      if Str.nonempty input then main_single args input
      else main_directory args
  | None => main_directory args
  end.

End Main.

(** [os.path.isfile] and [os.path.isdir] in the in-memory world. *)
Module SimOs.
Definition isfile (path : string) (w : Sim.world) : bool :=
  match Sim.lookup (Sim.images w) path with Some _ => true | None => false end.
Definition isdir (path : string) (w : Sim.world) : bool :=
  match Sim.lookup (Sim.dirs w) path with Some _ => true | None => false end.
Definition os_path : OsPath Sim.world :=
  {| os_path_isfile := isfile; os_path_isdir := isdir |}.
End SimOs.


(** The in-memory world with a file system that refuses to create
    directories. *)
Module ReadOnly.
Definition makedirs (path : string) (w : Sim.world) : result unit * Sim.world :=
  (Raise (mk_exn "PermissionError"
            ("[Errno 13] Permission denied: " ++ Str.repr path)), w).
Definition library : Library Sim.world Sim.image := {|
  img_mode := Sim.mode;
  img_size := Sim.size;
  Image_open := Sim.image_open;
  Image_convert := Sim.image_convert;
  Image_resize := Sim.image_resize;
  Image_save := Sim.image_save;
  os_makedirs := makedirs;
  os_getcwd := Sim.cwd;
  fs_entries := Sim.entries
|}.
End ReadOnly.

(** Two command lines: one picture to WEBP at width 400, and the directory
    [pics] to PNG. *)
Module Cli.
Definition batch : Namespace :=
  mk_args None (Some "pics") "out" (Some "png") 90 None None false false.
End Cli.

(** ** The command line *)

(** What [parse_arguments] uses of [argparse]: a parser is the list of the
    actions registered with it, each with its option strings. *)
Module Argparse.

Definition parser : Type := list (list string).

(** [option_string in self._option_string_actions] *)
Definition registered (p : parser) (option_string : string) : bool :=
  existsb (existsb (String.eqb option_string)) p.

(** [ArgumentParser(...)]: [add_help] is left at its default, so that the
    help action is registered under [-h] and [--help]. *)
Definition ArgumentParser : parser := [["-h"; "--help"]].

(** [add_argument] of one or more option strings, with the conflict handler left at
    its default, [error]: an option string that is registered already is a
    conflict.  A mutually exclusive group registers with its parser. *)
Definition add_argument (option_strings : list string) (p : parser)
  : result parser :=
  let confl_optionals := filter (registered p) option_strings in
  match confl_optionals with
  | [] => Ok (p ++ [option_strings])%list
  | _ :: rest =>
      Raise (mk_exn "ArgumentError"
               ("argument " ++ Str.join "/" option_strings ++ ": "
                ++ (match rest with
                    | [] => "conflicting option string: "
                    | _ :: _ => "conflicting option strings: "
                    end)
                ++ Str.join ", " confl_optionals))
  end.

End Argparse.

(** [time.time()], and the text of a difference of two of its values under
    the format [.2f]. *)
Record Clock (World T : Type) : Type := {
  time_time : World -> T * World;
  format_elapsed : T -> T -> string
}.
Arguments time_time {World T}.
Arguments format_elapsed {World T}.

(** A line break. *)
Definition nl : string := String (ascii_of_nat 10) EmptyString.

(** The text that [print_banner] prints first: the lines of the f-string,
    which starts with a line break and ends with the indentation of its
    closing quotes. *)
Definition banner : string :=
  Str.join nl
  [ EmptyString;
    Fore.CYAN ++ "╔══════════════════════════════════════════════════════════╗";
    Fore.CYAN ++ "║ " ++ Fore.YELLOW ++ "██╗███╗   ███╗ █████╗  ██████╗ ███████╗" ++ Fore.CYAN ++ "                ║";
    Fore.CYAN ++ "║ " ++ Fore.YELLOW ++ "██║████╗ ████║██╔══██╗██╔════╝ ██╔════╝" ++ Fore.CYAN ++ "                ║";
    Fore.CYAN ++ "║ " ++ Fore.YELLOW ++ "██║██╔████╔██║███████║██║  ███╗█████╗" ++ Fore.CYAN ++ "                  ║";
    Fore.CYAN ++ "║ " ++ Fore.YELLOW ++ "██║██║╚██╔╝██║██╔══██║██║   ██║██╔══╝" ++ Fore.CYAN ++ "                  ║";
    Fore.CYAN ++ "║ " ++ Fore.YELLOW ++ "██║██║ ╚═╝ ██║██║  ██║╚██████╔╝███████╗" ++ Fore.CYAN ++ "                ║";
    Fore.CYAN ++ "║ " ++ Fore.YELLOW ++ "╚═╝╚═╝     ╚═╝╚═╝  ╚═╝ ╚═════╝ ╚══════╝" ++ Fore.CYAN ++ "                ║";
    Fore.CYAN ++ "║ " ++ Fore.GREEN ++ " ██████╗ ██████╗ ███╗   ██╗██╗   ██╗███████╗██████╗ ████████╗" ++ Fore.CYAN ++ "███████╗██████╗  ║";
    Fore.CYAN ++ "║ " ++ Fore.GREEN ++ "██╔════╝██╔═══██╗████╗  ██║██║   ██║██╔════╝██╔══██╗╚══██╔══╝" ++ Fore.CYAN ++ "██╔════╝██╔══██╗ ║";
    Fore.CYAN ++ "║ " ++ Fore.GREEN ++ "██║     ██║   ██║██╔██╗ ██║██║   ██║█████╗  ██████╔╝   ██║   " ++ Fore.CYAN ++ "█████╗  ██████╔╝ ║";
    Fore.CYAN ++ "║ " ++ Fore.GREEN ++ "██║     ██║   ██║██║╚██╗██║╚██╗ ██╔╝██╔══╝  ██╔══██╗   ██║   " ++ Fore.CYAN ++ "██╔══╝  ██╔══██╗ ║";
    Fore.CYAN ++ "║ " ++ Fore.GREEN ++ "╚██████╗╚██████╔╝██║ ╚████║ ╚████╔╝ ███████╗██║  ██║   ██║   " ++ Fore.CYAN ++ "███████╗██║  ██║ ║";
    Fore.CYAN ++ "║ " ++ Fore.GREEN ++ " ╚═════╝ ╚═════╝ ╚═╝  ╚═══╝  ╚═══╝  ╚══════╝╚═╝  ╚═╝   ╚═╝   " ++ Fore.CYAN ++ "╚══════╝╚═╝  ╚═╝ ║";
    Fore.CYAN ++ "╚══════════════════════════════════════════════════════════╝";
    "    " ].

Section Script.

Context {World Img T : Type}.
Variable lib : Library World Img.
Variable osp : OsPath World.
Variable clock : Clock World T.

(** [parser.parse_args()] on the command line [argv], for the actions
    registered. *)
Variable parse_args : Argparse.parser -> list string -> result Namespace.

Notation "x <- m ;; k" := (bind m (fun x => k))
  (at level 61, m at next level, right associativity).
Notation "m ;;; k" := (bind m (fun _ => k))
  (at level 61, right associativity).

(** [print_banner()] *)
Definition print_banner : @M World Img unit :=
  print banner ;;;
  print (Fore.CYAN ++ "Version: " ++ Fore.WHITE ++ "1.0.0") ;;;
  print (Fore.CYAN ++ "Created by: " ++ Fore.WHITE ++ "Ati") ;;;
  print (Fore.CYAN ++ "License: " ++ Fore.WHITE ++ "MIT") ;;;
  print "".

(** [parse_arguments()] *)
Definition parse_arguments (argv : list string) : result Namespace :=
  let parser := Argparse.ArgumentParser in
  rbind (Argparse.add_argument ["-i"; "--input"] parser) (fun parser =>
  rbind (Argparse.add_argument ["-d"; "--directory"] parser) (fun parser =>
  rbind (Argparse.add_argument ["-o"; "--output"] parser) (fun parser =>
  rbind (Argparse.add_argument ["-t"; "--type"] parser) (fun parser =>
  rbind (Argparse.add_argument ["-q"; "--quality"] parser) (fun parser =>
  rbind (Argparse.add_argument ["-w"; "--width"] parser) (fun parser =>
  rbind (Argparse.add_argument ["-h"; "--height"] parser) (fun parser =>
  rbind (Argparse.add_argument ["-r"; "--recursive"] parser) (fun parser =>
  rbind (Argparse.add_argument ["-g"; "--grayscale"] parser) (fun parser =>
  parse_args parser argv))))))))).

Definition now : @M World Img T :=
  fun s => let (t, w) := time_time clock (world s) in
           (Ok t, mk_state w (trace s)).

(** [main()] *)
Definition main (argv : list string) : @M World Img unit :=
  (* Display banner *)
  print_banner ;;;
  (* Parse arguments *)
  args <- lift (parse_arguments argv) ;;
  start_time <- now ;;
  (* Process single image or directory *)
  f <- main_dispatch lib osp args ;;
  match f with
  | Returned => ret tt
  | Completed =>
      end_time <- now ;;
      print (Fore.CYAN ++ "Processing time: " ++ Fore.WHITE
             ++ format_elapsed clock end_time start_time ++ " seconds")
  end.

(** The script: [main()] under the handler of [Exception], with the exit
    status of the process as the result.  An interrupt from the keyboard is
    no [Exception] and is not modelled. *)
Definition script (argv : list string) : @M World Img Z :=
  try_except
    (main argv ;;; ret 0)
    (fun e =>
       print (Fore.RED ++ "Unexpected error: " ++ exn_str e) ;;;
       ret 1).

End Script.

(** ** [example.py] *)

(** What [create_test_images_folder] uses of Pillow beside [save]:
    [Image.new(mode, size, color=...)], [ImageDraw.Draw(img)] and
    [d.text(xy, text, fill=..., anchor=...)], which draws on the image that
    [d] was made for. *)
Record Canvas (World Img Draw : Type) : Type := {
  Image_new : string -> Z * Z -> Z * Z * Z -> World -> result Img * World;
  ImageDraw_Draw : Img -> World -> result Draw * World;
  Draw_text : Draw -> Z * Z -> string -> Z * Z * Z -> string ->
              World -> result unit * World
}.
Arguments Image_new {World Img Draw}.
Arguments ImageDraw_Draw {World Img Draw}.
Arguments Draw_text {World Img Draw}.

(** [formats] of [create_test_images_folder] *)
Definition formats : list (string * string) :=
  [ ("jpg", "JPEG"); ("png", "PNG"); ("webp", "WEBP"); ("bmp", "BMP");
    ("tiff", "TIFF") ].

(** [range(n)] *)
Definition range (n : Z) : list Z := map Z.of_nat (seq 0 (Z.to_nat n)).

Section Example.

Context {World Img Draw : Type}.
Variable lib : Library World Img.
Variable canvas : Canvas World Img Draw.

Notation "x <- m ;; k" := (bind m (fun x => k))
  (at level 61, m at next level, right associativity).
Notation "m ;;; k" := (bind m (fun _ => k))
  (at level 61, right associativity).

(** A call of the drawing library. *)
Definition draw {A : Type} (op : World -> result A * World) : @M World Img A :=
  fun s => let (r, w) := op (world s) in (r, mk_state w (trace s)).

(** [for x in l: body], with the value of the variable the body updates. *)
Fixpoint for_each {A S : Type} (l : list A) (body : A -> S -> @M World Img S)
    (acc : S) : @M World Img S :=
  match l with
  | [] => ret acc
  | x :: rest => acc' <- body x acc ;; for_each rest body acc'
  end.

(** The body of both inner loops: one picture with a caption, saved as
    [filename] and appended to [created_files]. *)
Definition test_picture (filename caption format_name : string)
    (color fill : Z * Z * Z) (created_files : list string)
  : @M World Img (list string) :=
  img <- draw (Image_new canvas "RGB" (400, 300) color) ;;
  d <- draw (ImageDraw_Draw canvas img) ;;
  draw (Draw_text canvas d (200, 150) caption fill "mm") ;;;
  save lib img filename format_name [] ;;;
  ret (created_files ++ [filename])%list.

(** [create_test_images_folder(folder_name, count)] *)
Definition create_test_images_folder (folder_name : string) (count : Z)
  : @M World Img (list string) :=
  (* Create the folder if it doesn't exist *)
  makedirs lib folder_name ;;;
  (* Create a subfolder for recursive testing *)
  let subfolder := Path.join folder_name ["subfolder"] in
  makedirs lib subfolder ;;;
  (* Create images in the main folder *)
  created_files <-
    for_each (range count)
      (fun i =>
         for_each formats
           (fun '(ext, format_name) =>
              test_picture
                (Path.join folder_name
                   ["test_image_" ++ Str.of_Z (i + 1) ++ "." ++ ext])
                ("Test Image " ++ Str.of_Z (i + 1) ++ " - " ++ format_name)
                format_name (73, 109, 137) (255, 255, 0)))
      [] ;;
  (* Create images in the subfolder *)
  created_files <-
    for_each (range 2)
      (fun i =>
         for_each (firstn 2 formats)  (* Only JPG and PNG in subfolder *)
           (fun '(ext, format_name) =>
              test_picture
                (Path.join subfolder
                   ["subtest_image_" ++ Str.of_Z (i + 1) ++ "." ++ ext])
                ("Subfolder Test " ++ Str.of_Z (i + 1) ++ " - " ++ format_name)
                format_name (137, 73, 109) (0, 255, 255)))
      created_files ;;
  print ("Created " ++ Str.of_Z (Z.of_nat (List.length created_files))
         ++ " test images in '" ++ folder_name ++ "' folder.") ;;;
  ret created_files.

End Example.

(** A canvas for the in-memory world: pictures are values, and a caption
    leaves mode and size as they are. *)
Module SimCanvas.
Definition image_new (mode : string) (size : Z * Z) (color : Z * Z * Z)
    (w : Sim.world) : result Sim.image * Sim.world :=
  (Ok (Sim.mk_image mode size), w).
Definition image_draw (img : Sim.image) (w : Sim.world)
  : result Sim.image * Sim.world := (Ok img, w).
Definition draw_text (d : Sim.image) (xy : Z * Z) (text : string)
    (fill : Z * Z * Z) (anchor : string) (w : Sim.world)
  : result unit * Sim.world := (Ok tt, w).
Definition canvas : Canvas Sim.world Sim.image Sim.image := {|
  Image_new := image_new;
  ImageDraw_Draw := image_draw;
  Draw_text := draw_text
|}.
End SimCanvas.

(** The paths handed to [save]. *)
Definition saved_paths {Img : Type} (tr : list (event Img)) : list string :=
  map (fun e => snd (fst e)) (saved tr).

(** A file the converter would take up, and whose format it infers to be
    [format]. *)
Definition convertible (path format : string) : Prop :=
  has_image_extension path = true /\ get_output_format path None = Ok format.

(** What a part of [create_test_images_folder] that starts with the list
    [acc] does: it saves [k] convertible files if it returns, and then
    returns [acc] extended by their paths; it prints nothing and creates no
    directory. *)
Definition extends_by {World Img : Type} (k : nat) (acc : list string)
    (m : @M World Img (list string)) : Prop :=
  forall s,
    exists new,
      saved (trace (snd (m s))) = (saved (trace s) ++ new)%list
      /\ made_dirs (trace (snd (m s))) = made_dirs (trace s)
      /\ printed (trace (snd (m s))) = printed (trace s)
      /\ Forall (fun e => convertible (snd (fst e)) (snd e)) new
      /\ forall acc', fst (m s) = Ok acc' ->
                      acc' = (acc ++ map (fun e => snd (fst e)) new)%list
                      /\ List.length new = k.

(** * Theorems *)

(** ** The format resolver *)

Lemma dict_get_In (d : list (string * string)) (k f : string) :
  dict_get d k = Some f -> In (k, f) d.
Proof.
  induction d as [|[k' v] d IH]; simpl; [discriminate|].
  destruct (String.eqb k' k) eqn:E.
  - apply String.eqb_eq in E. intros H; inversion H; subst. now left.
  - intros H. right. now apply IH.
Qed.

Lemma dict_get_canonical (k f : string) :
  dict_get SUPPORTED_FORMATS k = Some f -> In f canonical_formats.
Proof.
  intros H. apply dict_get_In in H.
  unfold SUPPORTED_FORMATS in H. unfold canonical_formats.
  repeat (destruct H as [H|H]; [inversion H; subst; simpl; auto 10|]).
  destruct H.
Qed.

Lemma dict_item_get (d : list (string * string)) (k : string) :
  dict_item d k =
  match dict_get d k with
  | Some v => Ok v
  | None => Raise (mk_exn "KeyError" (Str.repr k))
  end.
Proof. reflexivity. Qed.

(** For a name that is absent or empty the resolver reads the extension. *)
Lemma get_output_format_inferred (output_path : string)
    (specified_type : option string) :
  truthy_str specified_type = false ->
  get_output_format output_path specified_type =
  Ok (match dict_get SUPPORTED_FORMATS (path_extension output_path) with
      | Some f => f
      | None => "JPEG"
      end).
Proof.
  intros H.
  assert (Hfe : get_output_format output_path specified_type
                = from_extension output_path).
  { unfold get_output_format. destruct specified_type as [t|]; [|reflexivity].
    cbn [truthy_str] in H. rewrite H. reflexivity. }
  rewrite Hfe. unfold from_extension, dict_mem. rewrite dict_item_get.
  destruct (dict_get SUPPORTED_FORMATS (path_extension output_path)); reflexivity.
Qed.

(** C2, as the specification states it, fails: an explicit name outside the
    alias table makes the resolver raise [KeyError], whatever the path. *)
Lemma get_output_format_unknown_name_raises :
  get_output_format "picture.png" (Some "tif")
  = Raise (mk_exn "KeyError" "'tif'")
  /\ forall f, get_output_format "picture.png" (Some "tif") <> Ok f.
Proof.
  split; [reflexivity | intros f H; discriminate H].
Qed.

(** C2 (amended): the resolver returns a canonical format whenever the
    explicit name is absent, empty, or an alias up to case.  A non-empty
    explicit name wins and is looked up lower-cased in the alias table;
    without one the extension of the output path is looked up in the same
    table, and an extension that is not an alias gives JPEG.  Every value
    returned is canonical.  A non-empty explicit name that is not an alias
    raises [KeyError]. *)
Theorem get_output_format_resolves (output_path : string)
    (specified_type : option string) :
  (forall t f,
      specified_type = Some t -> t <> "" ->
      dict_get SUPPORTED_FORMATS (Str.lower t) = Some f ->
      get_output_format output_path specified_type = Ok f)
  /\ (truthy_str specified_type = false ->
      get_output_format output_path specified_type =
      Ok (match dict_get SUPPORTED_FORMATS (path_extension output_path) with
          | Some f => f
          | None => "JPEG"
          end))
  /\ (forall f,
         get_output_format output_path specified_type = Ok f ->
         In f canonical_formats)
  /\ (forall t,
         specified_type = Some t -> t <> "" ->
         dict_get SUPPORTED_FORMATS (Str.lower t) = None ->
         get_output_format output_path specified_type =
         Raise (mk_exn "KeyError" (Str.repr (Str.lower t)))).
Proof.
  assert (Hne : forall t, t <> "" -> Str.nonempty t = true).
  { intros [|c t] Ht; [congruence | reflexivity]. }
  repeat split.
  - intros t f -> Ht Hf. unfold get_output_format; simpl.
    rewrite (Hne t Ht), dict_item_get, Hf. reflexivity.
  - apply get_output_format_inferred.
  - intros f. destruct (truthy_str specified_type) eqn:Ht.
    + unfold get_output_format.
      destruct specified_type as [t|]; [|discriminate].
      cbn [truthy_str] in Ht. rewrite Ht, dict_item_get.
      destruct (dict_get SUPPORTED_FORMATS (Str.lower t)) eqn:Hg; [|discriminate].
      intros H; inversion H; subst. eapply dict_get_canonical; eassumption.
    + rewrite (get_output_format_inferred _ _ Ht).
      destruct (dict_get SUPPORTED_FORMATS (path_extension output_path)) eqn:Hg;
        intros H; inversion H; subst.
      * eapply dict_get_canonical; eassumption.
      * simpl; auto.
  - intros t -> Ht Hf. unfold get_output_format; simpl.
    rewrite (Hne t Ht), dict_item_get, Hf. reflexivity.
Qed.

(** The resolver on a few inputs: case of the name and of the extension is
    ignored, the name wins over the extension, and JPEG is the default. *)
Example get_output_format_examples :
  get_output_format "out/picture.PNG" None = Ok "PNG"
  /\ get_output_format "picture.png" (Some "JpEg") = Ok "JPEG"
  /\ get_output_format "picture.png" (Some "") = Ok "PNG"
  /\ get_output_format "archive.tar" None = Ok "JPEG"
  /\ get_output_format "picture" None = Ok "JPEG".
Proof. repeat split. Qed.

(** ** Running the program symbolically *)

Ltac unfold_program :=
  unfold process_image, process_image_body, try_except, bind, ret, lift,
    open, convert, resize, save, makedirs, getcwd, print, call, fresh in *.

Ltac norm_run := cbv beta iota zeta in *; cbn [world trace fst snd] in *.

(** Case analysis on every answer of the library along a run. *)
Ltac split_run :=
  repeat (norm_run;
          match goal with
          | H : (_, _) = (_, _) |- _ => inversion H; subst; clear H
          | H : context [match ?x with _ => _ end] |- _ => destruct x eqn:?
          | H : context [if ?x then _ else _] |- _ => destruct x eqn:?
          end);
  norm_run.

(** ** The resize step *)

Lemma truthy_nonzero (n : Z) : n <> 0 -> truthy (Some n) = true.
Proof.
  intros H. unfold truthy. destruct (n =? 0) eqn:E; [|reflexivity].
  apply Z.eqb_eq in E. contradiction.
Qed.

(** Width given, height absent or zero: the height is [scaled]. *)
Lemma resize_target_width_only (size : Z * Z) (W : Z) (other : option Z) :
  W <> 0 -> truthy other = false ->
  resize_target size (Some W) other =
  rbind (scaled (snd size) W (fst size)) (fun h => Ok (Some (Some W, Some h))).
Proof.
  intros HW Ho. unfold resize_target, scaled.
  rewrite (truthy_nonzero W HW), Ho. cbn [orb andb negb opt_truediv].
  destruct (PyFloat.of_int (fst size)); cbn [rbind]; [|reflexivity].
  destruct (PyFloat.int_truediv W a); cbn [rbind]; [|reflexivity].
  destruct (PyFloat.of_int (snd size)); cbn [rbind]; [|reflexivity].
  destruct (PyFloat.to_int _); reflexivity.
Qed.

(** Height given, width absent or zero: the width is [scaled]. *)
Lemma resize_target_height_only (size : Z * Z) (H : Z) (other : option Z) :
  H <> 0 -> truthy other = false ->
  resize_target size other (Some H) =
  rbind (scaled (fst size) H (snd size)) (fun w => Ok (Some (Some w, Some H))).
Proof.
  intros HH Ho. unfold resize_target, scaled.
  rewrite (truthy_nonzero H HH), Ho. cbn [orb andb negb opt_truediv].
  destruct (PyFloat.of_int (snd size)); cbn [rbind]; [|reflexivity].
  destruct (PyFloat.int_truediv H a); cbn [rbind]; [|reflexivity].
  destruct (PyFloat.of_int (fst size)); cbn [rbind]; [|reflexivity].
  destruct (PyFloat.to_int _); reflexivity.
Qed.

(** [int(x)] truncates toward zero: the magnitude of the result is the
    integer part of the magnitude [m * 2^e] of [x], and the sign is kept. *)
Lemma to_int_truncates (s : bool) (m : positive) (e z : Z) :
  PyFloat.to_int (S754_finite s m e) = Ok z ->
  z = cond_Zopp s (Z.abs z)
  /\ (0 <= e -> Z.abs z = Zpos m * 2 ^ e)
  /\ (e < 0 -> Z.abs z * 2 ^ (- e) <= Zpos m < (Z.abs z + 1) * 2 ^ (- e)).
Proof.
  unfold PyFloat.to_int. intros H. inversion H as [Hz]. clear H.
  set (q := if 0 <=? e then Z.shiftl (Z.pos m) e else Z.shiftr (Z.pos m) (- e)).
  assert (Hq : 0 <= q).
  { unfold q. destruct (0 <=? e) eqn:E.
    - apply Z.shiftl_nonneg. lia.
    - apply Z.shiftr_nonneg. lia. }
  assert (Habs : Z.abs (cond_Zopp s q) = q).
  { destruct s; simpl; lia. }
  rewrite Habs. split; [reflexivity|]. split; intros He.
  - unfold q. apply Z.leb_le in He. rewrite He.
    apply Z.shiftl_mul_pow2. apply Z.leb_le in He. exact He.
  - unfold q. assert (E : (0 <=? e) = false) by (apply Z.leb_gt; exact He).
    rewrite E. rewrite Z.shiftr_div_pow2 by lia.
    assert (Hp : 0 < 2 ^ (- e)) by (apply Z.pow_pos_nonneg; lia).
    pose proof (Z.div_mod (Z.pos m) (2 ^ (- e)) ltac:(lia)) as Hdm.
    pose proof (Z.mod_pos_bound (Z.pos m) (2 ^ (- e)) Hp) as Hb.
    nia.
Qed.

(** C1, as the specification states it, fails: for a 4x5 picture and
    width 3 the code computes height 3, where rounding 5 * 3 / 4 = 3.75 gives
    4; the resampler is called with (3, 3). *)
Lemma scaled_height_is_not_rounded :
  resize_target (4, 5) (Some 3) None = Ok (Some (Some 3, Some 3))
  /\ round_div (5 * 3) 4 = 4
  /\ resize_target (4, 5) (Some 3) None
     <> Ok (Some (Some 3, Some (round_div (5 * 3) 4)))
  /\ resized
       (trace (snd (process_image Sim.library "small.png" "out/small.png" "PNG"
                      90 (Some 3) None false (fresh Inputs.disk))))
     = [(Inputs.small, (Some 3, Some 3))].
Proof.
  repeat split; try reflexivity.
  vm_compute. intros H. discriminate H.
Qed.

(** The product is taken in binary64: for a 49x49 picture and width 1 the
    quotient 1/49 rounds down, 49 times it is below 1, and the height is 0. *)
Example scaled_49 : scaled 49 1 49 = Ok 0 /\ 49 * 1 / 49 = 1.
Proof. split; reflexivity. Qed.

(** The specification's scenario: 800x600 with width 400 gives 400x300. *)
Example scaled_800_600 :
  resize_target (800, 600) (Some 400) None = Ok (Some (Some 400, Some 300)).
Proof. reflexivity. Qed.

Section ConverterFacts.

Context {World Img : Type}.
Variable lib : Library World Img.

(** The run of [process_image] up to the resize, for a source that was
    decoded and, where a conversion is asked, converted. *)
Lemma process_image_resizes
    (input_path output_path output_format : string) (quality : Z)
    (width height : option Z) (grayscale : bool) (w w1 w2 : World)
    (src img : Img) (size : option Z * option Z) :
  Image_open lib input_path w = (Ok src, w1) ->
  match conversion grayscale (img_mode lib src) output_format with
  | Some mode => Image_convert lib src mode w1 = (Ok img, w2)
  | None => img = src
  end ->
  resize_target (img_size lib img) width height = Ok (Some size) ->
  resized (trace (snd (process_image lib input_path output_path output_format
                         quality width height grayscale (fresh w))))
  = [(img, size)].
Proof.
  intros Hopen Hconv Htarget.
  match goal with
  | |- context [process_image ?a1 ?a2 ?a3 ?a4 ?a5 ?a6 ?a7 ?a8 ?a9] =>
      destruct (process_image a1 a2 a3 a4 a5 a6 a7 a8 a9) as [r s'] eqn:Hrun
  end.
  unfold_program. norm_run. rewrite Hopen in Hrun. norm_run.
  unfold conversion in Hconv.
  destruct grayscale; norm_run.
  - rewrite Hconv in Hrun. norm_run. rewrite Htarget in Hrun.
    split_run; reflexivity.
  - destruct (String.eqb (img_mode lib src) "RGBA"
              && String.eqb output_format "JPEG")%bool; norm_run.
    + rewrite Hconv in Hrun. norm_run. rewrite Htarget in Hrun.
      split_run; reflexivity.
    + subst img. rewrite Htarget in Hrun. split_run; reflexivity.
Qed.

(** C1 (amended): when exactly one target dimension is given (the other
    absent or zero), the other one is
    [int(float(original_other) * (given / float(original_given)))]: the
    product of the binary64 quotient, truncated toward zero and not
    rounded.  Given width [W], the height is
    [scaled original_height W original_width]; given height [W], the width
    is [scaled original_width W original_height].  That is what the resize
    step computes for every size, and the image that was decoded (and
    converted, where a conversion is asked) is handed to the resampler once,
    with that size.  No other size reaches the resampler, and a run that
    succeeds has resized exactly once. *)
Theorem one_axis_resize_is_truncated
    (input_path output_path output_format : string) (quality W : Z)
    (other : option Z) (grayscale : bool) (w : World) :
  W <> 0 -> truthy other = false ->
  (let run := process_image lib input_path output_path output_format quality
                (Some W) other grayscale (fresh w) in
   (forall size,
       resize_target size (Some W) other
       = rbind (scaled (snd size) W (fst size))
           (fun h => Ok (Some (Some W, Some h))))
   /\ (forall src w1 img w2 h,
          Image_open lib input_path w = (Ok src, w1) ->
          match conversion grayscale (img_mode lib src) output_format with
          | Some mode => Image_convert lib src mode w1 = (Ok img, w2)
          | None => img = src
          end ->
          scaled (snd (img_size lib img)) W (fst (img_size lib img)) = Ok h ->
          resized (trace (snd run)) = [(img, (Some W, Some h))])
   /\ (forall img size, In (img, size) (resized (trace (snd run))) ->
         exists h, scaled (snd (img_size lib img)) W (fst (img_size lib img)) = Ok h
                   /\ size = (Some W, Some h))
   /\ (fst run = Ok true -> List.length (resized (trace (snd run))) = 1%nat))
  /\
  (let run := process_image lib input_path output_path output_format quality
                other (Some W) grayscale (fresh w) in
   (forall size,
       resize_target size other (Some W)
       = rbind (scaled (fst size) W (snd size))
           (fun w' => Ok (Some (Some w', Some W))))
   /\ (forall src w1 img w2 w',
          Image_open lib input_path w = (Ok src, w1) ->
          match conversion grayscale (img_mode lib src) output_format with
          | Some mode => Image_convert lib src mode w1 = (Ok img, w2)
          | None => img = src
          end ->
          scaled (fst (img_size lib img)) W (snd (img_size lib img)) = Ok w' ->
          resized (trace (snd run)) = [(img, (Some w', Some W))])
   /\ (forall img size, In (img, size) (resized (trace (snd run))) ->
         exists w', scaled (fst (img_size lib img)) W (snd (img_size lib img)) = Ok w'
                    /\ size = (Some w', Some W))
   /\ (fst run = Ok true -> List.length (resized (trace (snd run))) = 1%nat)).
Proof.
  intros HW Ho. split; intros run; subst run.
  - split; [intros size; apply resize_target_width_only; assumption|].
    split.
    { intros src w1 img w2 h Hopen Hconv Hs.
      apply (process_image_resizes _ _ _ _ _ _ _ w w1 w2 src img);
        [exact Hopen | exact Hconv|].
      rewrite resize_target_width_only by assumption. rewrite Hs. reflexivity. }
    match goal with
    | |- context [process_image ?a ?b ?c ?d ?e ?f ?g ?h ?s] =>
        destruct (process_image a b c d e f g h s) as [r s'] eqn:Hrun
    end.
    cbn [fst snd]. unfold_program. split_run.
    all: try rewrite resize_target_width_only in * by assumption.
    all: try match goal with
             | H : rbind ?x _ = _ |- _ =>
                 destruct x eqn:?; cbn [rbind] in H; inversion H; subst; clear H
             end.
    all: cbn [world trace resized flat_map app List.length In].
    all: split; [intros img size Hin | intros Hr]; try contradiction;
      try discriminate; try reflexivity.
    all: destruct Hin as [Hin|[]]; inversion Hin; subst; eauto.
  - split; [intros size; apply resize_target_height_only; assumption|].
    split.
    { intros src w1 img w2 h Hopen Hconv Hs.
      apply (process_image_resizes _ _ _ _ _ _ _ w w1 w2 src img);
        [exact Hopen | exact Hconv|].
      rewrite resize_target_height_only by assumption. rewrite Hs. reflexivity. }
    match goal with
    | |- context [process_image ?a ?b ?c ?d ?e ?f ?g ?h ?s] =>
        destruct (process_image a b c d e f g h s) as [r s'] eqn:Hrun
    end.
    cbn [fst snd]. unfold_program. split_run.
    all: try rewrite resize_target_height_only in * by assumption.
    all: try match goal with
             | H : rbind ?x _ = _ |- _ =>
                 destruct x eqn:?; cbn [rbind] in H; inversion H; subst; clear H
             end.
    all: cbn [world trace resized flat_map app List.length In].
    all: split; [intros img size Hin | intros Hr]; try contradiction;
      try discriminate; try reflexivity.
    all: destruct Hin as [Hin|[]]; inversion Hin; subst; eauto.
Qed.

(** [process_image] looks at [width] and [height] through [resize_target]
    only. *)
Lemma process_image_resize_ext
    (input_path output_path output_format : string) (quality : Z)
    (width1 height1 width2 height2 : option Z) (grayscale : bool)
    (s : state World Img) :
  (forall size, resize_target size width1 height1
                = resize_target size width2 height2) ->
  process_image lib input_path output_path output_format quality
    width1 height1 grayscale s
  = process_image lib input_path output_path output_format quality
      width2 height2 grayscale s.
Proof.
  intros Hext. unfold_program.
  destruct (Image_open lib input_path (world s)) as [[img|e] w1];
    [|reflexivity].
  destruct grayscale; norm_run.
  - destruct (Image_convert lib img "L" w1) as [[img'|e] w2]; [|reflexivity].
    norm_run. rewrite Hext. reflexivity.
  - destruct (String.eqb (img_mode lib img) "RGBA"
              && String.eqb output_format "JPEG")%bool; norm_run.
    + destruct (Image_convert lib img "RGB" w1) as [[img'|e] w2]; [|reflexivity].
      norm_run. rewrite Hext. reflexivity.
    + rewrite Hext. reflexivity.
Qed.

(** A request with no truthy dimension resizes nothing. *)
Lemma process_image_no_resize
    (input_path output_path output_format : string) (quality : Z)
    (width height : option Z) (grayscale : bool) (w : World) :
  truthy width = false -> truthy height = false ->
  resized (trace (snd (process_image lib input_path output_path output_format
                         quality width height grayscale (fresh w)))) = [].
Proof.
  intros Hw Hh.
  match goal with
  | |- context [process_image ?a ?b ?c ?d ?e ?f ?g ?h ?s] =>
      destruct (process_image a b c d e f g h s) as [r s'] eqn:Hrun
  end.
  assert (Hno : forall size, resize_target size width height = Ok None).
  { intros size. unfold resize_target. rewrite Hw, Hh. reflexivity. }
  unfold_program. split_run.
  all: try match goal with
           | H : resize_target _ _ _ = _ |- _ => rewrite Hno in H; inversion H
           end.
  all: reflexivity.
Qed.

End ConverterFacts.

(** The amended C1 at the specification's scenario: an 800x600 picture asked
    at width 400. *)
Lemma one_axis_resize_is_truncated_witness :
  400 <> 0 /\ truthy None = false
  /\ scaled 600 400 800 = Ok 300
  /\ resized (trace (snd (process_image Sim.library "photo.png"
                            "out/photo.jpg" "JPEG" 90 (Some 400) None false
                            (fresh Inputs.disk))))
     = [(Inputs.photo, (Some 400, Some 300))].
Proof.
  assert (H1 : 400 <> 0) by lia.
  assert (H2 : truthy None = false) by reflexivity.
  assert (H3 : scaled 600 400 800 = Ok 300) by reflexivity.
  split; [exact H1|]. split; [exact H2|]. split; [exact H3|].
  exact (proj1 (proj2 (proj1 (one_axis_resize_is_truncated Sim.library
                                "photo.png" "out/photo.jpg" "JPEG" 90 400 None
                                false Inputs.disk H1 H2)))
           Inputs.photo Inputs.disk Inputs.photo Inputs.disk 300
           eq_refl eq_refl H3).
Defined.

(** ** Zero as a dimension *)

Lemma resize_target_zero_width (size : Z * Z) (height : option Z) :
  resize_target size (Some 0) height = resize_target size None height.
Proof.
  unfold resize_target. cbn [truthy Z.eqb negb orb andb].
  destruct (truthy height); reflexivity.
Qed.

Lemma resize_target_zero_height (size : Z * Z) (width : option Z) :
  resize_target size width (Some 0) = resize_target size width None.
Proof.
  unfold resize_target. cbn [truthy Z.eqb negb orb andb].
  destruct (truthy width); reflexivity.
Qed.

(** C9: a width (or height) of 0 is treated as if it were absent.  The run
    with width 0 is the run with no width, whatever the height, and
    symmetrically; with width 0 and no height nothing is resized; with width
    0 and height [H] the size handed to the resampler is that of the
    height-only case, its width [scaled] from the aspect ratio. *)
Theorem zero_dimension_is_absent {World Img : Type} (lib : Library World Img)
    (input_path output_path output_format : string) (quality : Z)
    (width height : option Z) (grayscale : bool) (s : state World Img)
    (w : World) :
  process_image lib input_path output_path output_format quality
    (Some 0) height grayscale s
  = process_image lib input_path output_path output_format quality
      None height grayscale s
  /\ process_image lib input_path output_path output_format quality
       width (Some 0) grayscale s
     = process_image lib input_path output_path output_format quality
         width None grayscale s
  /\ resized (trace (snd (process_image lib input_path output_path
                            output_format quality (Some 0) None grayscale
                            (fresh w)))) = []
  /\ resized (trace (snd (process_image lib input_path output_path
                            output_format quality None (Some 0) grayscale
                            (fresh w)))) = []
  /\ (forall size H, H <> 0 ->
         resize_target size (Some 0) (Some H)
         = rbind (scaled (fst size) H (snd size))
             (fun w' => Ok (Some (Some w', Some H))))
  /\ (forall size W, W <> 0 ->
         resize_target size (Some W) (Some 0)
         = rbind (scaled (snd size) W (fst size))
             (fun h => Ok (Some (Some W, Some h)))).
Proof.
  repeat split.
  - apply process_image_resize_ext. intros size. apply resize_target_zero_width.
  - apply process_image_resize_ext. intros size. apply resize_target_zero_height.
  - apply process_image_no_resize; reflexivity.
  - apply process_image_no_resize; reflexivity.
  - intros size H HH. apply resize_target_height_only; [exact HH | reflexivity].
  - intros size W HW. apply resize_target_width_only; [exact HW | reflexivity].
Qed.

(** Width 0 on concrete inputs: alone it leaves the 800x600 picture as it
    is; with height 300 the picture becomes 400x300. *)
Example zero_width_examples :
  Sim.written (world (snd (process_image Sim.library "photo.png" "out/p.png"
                             "PNG" 90 (Some 0) None false (fresh Inputs.disk))))
  = [("out/p.png", "PNG", Sim.mk_image "RGB" (800, 600))]
  /\ Sim.written (world (snd (process_image Sim.library "photo.png" "out/p.png"
                                "PNG" 90 (Some 0) (Some 300) false
                                (fresh Inputs.disk))))
     = [("out/p.png", "PNG", Sim.mk_image "RGB" (400, 300))].
Proof. split; reflexivity. Qed.

(** ** The error boundary of [process_image] *)

Section ErrorBoundary.

Context {World Img : Type}.
Variable lib : Library World Img.

(** On a console that accepts every line [process_image] returns: [True]
    exactly when the body of its [try] block ran to the end; whenever a step
    of the body (decoding, a transform, the size arithmetic, creating the
    directory, encoding) raises [e], it prints one line with the input path
    and [str(e)] and returns [False]. *)
Lemma process_image_returns
    (input_path output_path output_format : string) (quality : Z)
    (width height : option Z) (grayscale : bool) (s : state World Img) :
  let body := process_image_body lib input_path output_path output_format
                quality width height grayscale in
  let run := process_image lib input_path output_path output_format
               quality width height grayscale in
  (exists b s', run s = (Ok b, s'))
  /\ (forall b s1, body s = (Ok b, s1) -> b = true /\ run s = (Ok true, s1))
  /\ (forall e s1,
         body s = (Raise e, s1) ->
         run s = (Ok false,
                  mk_state (world s1)
                    (trace s1 ++ [EvPrint (error_line input_path e)])))
  /\ (forall e w',
         Image_open lib input_path (world s) = (Raise e, w') ->
         run s = (Ok false,
                  mk_state w'
                    (trace s ++ [EvOpen input_path;
                                 EvPrint (error_line input_path e)]))).
Proof.
  intros body run. subst body run.
  split; [|split; [|split]].
  - unfold process_image, try_except.
    destruct (process_image_body _ _ _ _ _ _ _ _ s) as [[b|e] s1].
    + eauto.
    + unfold bind, print, ret. eauto.
  - intros b s1 Hbody.
    assert (Hb : b = true).
    { unfold_program. split_run; reflexivity. }
    subst b. split; [reflexivity|].
    unfold process_image, try_except. rewrite Hbody. reflexivity.
  - intros e s1 Hbody. unfold process_image, try_except. rewrite Hbody.
    unfold bind, print, ret, error_line. reflexivity.
  - intros e w' Hopen. unfold_program. rewrite Hopen. norm_run.
    unfold error_line. rewrite <- app_assoc. reflexivity.
Qed.

End ErrorBoundary.

Section ErrorBoundaryOn.

Context {World Img : Type}.
Variable lib : Library World Img.
Variable stdout : Console World.


End ErrorBoundaryOn.

(** [print] is [print_on] a console that accepts every line, and
    [process_image] is [process_image_on] such a console. *)
Lemma print_on_accepting {World Img : Type} (line : string)
    (s : state World Img) :
  print_on (fun _ w => (Ok tt, w)) line s = print line s.
Proof. reflexivity. Qed.

Lemma process_image_on_accepting {World Img : Type} (lib : Library World Img)
    (input_path output_path output_format : string) (quality : Z)
    (width height : option Z) (grayscale : bool) (s : state World Img) :
  process_image_on lib (fun _ w => (Ok tt, w)) input_path output_path
    output_format quality width height grayscale s
  = process_image lib input_path output_path output_format quality width
      height grayscale s.
Proof.
  unfold process_image_on, process_image, try_except, bind, print_on, print, ret.
  destruct (process_image_body _ _ _ _ _ _ _ _ s) as [[b|e] s1]; reflexivity.
Qed.

(** C4 fails on the code: the [print] of the handler stands outside the
    [try].  For the missing file [caf\xe9.png] the decoder's error is caught,
    but on a console whose encoding is ASCII the report, which holds the
    path, is refused, and the [UnicodeEncodeError] leaves [process_image]:
    no [False] is returned and nothing is reported.  On a console that
    accepts the line the same call returns [False]. *)
Theorem process_image_raises_when_its_report_is_refused :
  Image_open Sim.library Inputs.cafe Inputs.disk
  = (Raise (mk_exn "FileNotFoundError"
              ("[Errno 2] No such file or directory: '" ++ Inputs.cafe ++ "'")),
     Inputs.disk)
  /\ process_image_on Sim.library Sim.ascii_stdout Inputs.cafe "out/cafe.png"
       "PNG" 90 None None false (fresh Inputs.disk)
     = (Raise (mk_exn "UnicodeEncodeError"
                 "'ascii' codec can't encode character '\xe9' in position 32: ordinal not in range(128)"),
        mk_state Inputs.disk [EvOpen Inputs.cafe])
  /\ process_image_on Sim.library Sim.accepting Inputs.cafe "out/cafe.png"
       "PNG" 90 None None false (fresh Inputs.disk)
     = (Ok false,
        mk_state Inputs.disk
          [ EvOpen Inputs.cafe;
            EvPrint (error_line Inputs.cafe (Sim.no_such_file Inputs.cafe)) ]).
Proof. repeat split. Qed.

(** A decode error (no such file) and a transform error (the 49x49 picture
    asked at width 1 gets height 0, which the resampler refuses) end in
    [False] and one printed line; a run without an error returns [True] and
    prints nothing. *)
Example process_image_errors :
  (let run := process_image Sim.library "missing.png" "out/m.png" "PNG" 90
                None None false (fresh Inputs.disk) in
   fst run = Ok false
   /\ printed (trace (snd run))
      = [error_line "missing.png" (Sim.no_such_file "missing.png")])
  /\ (let run := process_image Sim.library "tile.png" "out/t.png" "PNG" 90
                   (Some 1) None false (fresh Inputs.disk) in
      fst run = Ok false
      /\ resized (trace (snd run)) = [(Inputs.tile, (Some 1, Some 0))]
      /\ printed (trace (snd run))
         = [error_line "tile.png"
              (mk_exn "ValueError" "height and width must be > 0")])
  /\ (let run := process_image Sim.library "glyph.png" "out/g.jpg" "JPEG" 90
                   None None true (fresh Inputs.disk) in
      fst run = Ok true /\ printed (trace (snd run)) = []).
Proof. repeat split. Qed.

(** ** Colour modes *)

(** The in-memory Pillow keeps its promises. *)
Lemma Sim_laws : PillowLaws Sim.library.
Proof.
  split.
  - intros img mode w img' w' H. cbn in H. unfold Sim.image_convert in H.
    inversion H. reflexivity.
  - intros img [x y] r w img' w' H. cbn in H. unfold Sim.image_resize in H.
    destruct x as [x|]; [|discriminate]. destruct y as [y|]; [|discriminate].
    destruct ((0 <? x) && (0 <? y))%bool; [|discriminate].
    inversion H. reflexivity.
Qed.

Section ColourModes.

Context {World Img : Type}.
Variable lib : Library World Img.
Hypothesis laws : PillowLaws lib.

(** C5: with the grayscale flag set, whatever the mode of the source and
    whatever the target format, a source that was decoded is converted to
    mode L, and that is the only conversion asked of Pillow (so it goes
    before the RGBA-to-RGB flattening for JPEG, which is never asked).  The
    image handed to the encoder is the result of that conversion, resized
    where a size is asked: it has mode L, a single band, and when the
    encoder accepts it the run returns [True].  Every image handed to the
    encoder has mode L, and a run that returns [True] has handed one image
    to the encoder. *)
Theorem grayscale_yields_single_channel
    (input_path output_path output_format : string) (quality : Z)
    (width height : option Z) (w : World) :
  let run := process_image lib input_path output_path output_format quality
               width height true (fresh w) in
  (forall img path format,
      In (img, path, format) (saved (trace (snd run))) ->
      img_mode lib img = "L" /\ mode_bands (img_mode lib img) = Some 1%nat)
  /\ (forall mode, In mode (converted (trace (snd run))) -> mode = "L")
  /\ (fst run = Ok true ->
      exists img, saved (trace (snd run)) = [(img, output_path, output_format)]
                  /\ converted (trace (snd run)) = ["L"])
  /\ (forall src w1,
         Image_open lib input_path w = (Ok src, w1) ->
         In (EvConvert src "L") (trace (snd run))
         /\ converted (trace (snd run)) = ["L"])
  /\ (forall src w1 img w2 target out w3 w4,
         Image_open lib input_path w = (Ok src, w1) ->
         Image_convert lib src "L" w1 = (Ok img, w2) ->
         resize_target (img_size lib img) width height = Ok target ->
         match target with
         | Some size => Image_resize lib img size LANCZOS w2 = (Ok out, w3)
         | None => out = img /\ w3 = w2
         end ->
         os_makedirs lib
           (Path.dirname (Path.abspath (os_getcwd lib w3) output_path)) w3
         = (Ok tt, w4) ->
         saved (trace (snd run)) = [(out, output_path, output_format)]
         /\ img_mode lib out = "L"
         /\ mode_bands (img_mode lib out) = Some 1%nat
         /\ (forall w5,
                Image_save lib out output_path output_format
                  (save_kwargs output_format quality) w4 = (Ok tt, w5) ->
                fst run = Ok true /\ world (snd run) = w5)).
Proof.
  intros run. subst run.
  split; [|split; [|split; [|split]]].
  4:{ intros src w1 Hopen.
      match goal with
      | |- context [process_image ?a1 ?a2 ?a3 ?a4 ?a5 ?a6 ?a7 ?a8 ?a9] =>
          destruct (process_image a1 a2 a3 a4 a5 a6 a7 a8 a9) as [r s'] eqn:Hrun
      end.
      unfold_program. norm_run. rewrite Hopen in Hrun. norm_run.
      split_run; cbn [converted flat_map app In]; split; auto 10. }
  4:{ intros src w1 img w2 target out w3 w4 Hopen Hconv Htarget Hresize Hmk.
      pose proof (convert_mode lib laws _ _ _ _ _ Hconv) as Hm.
      assert (Hout : img_mode lib out = "L").
      { destruct target as [size|].
        - rewrite (resize_mode lib laws _ _ _ _ _ _ Hresize). exact Hm.
        - destruct Hresize as [-> _]. exact Hm. }
      match goal with
      | |- context [process_image ?a1 ?a2 ?a3 ?a4 ?a5 ?a6 ?a7 ?a8 ?a9] =>
          destruct (process_image a1 a2 a3 a4 a5 a6 a7 a8 a9) as [r s'] eqn:Hrun
      end.
      unfold_program. norm_run. rewrite Hopen in Hrun. norm_run.
      rewrite Hconv in Hrun. norm_run. rewrite Htarget in Hrun. norm_run.
      destruct target as [size|]; norm_run.
      - rewrite Hresize in Hrun. norm_run. rewrite Hmk in Hrun. norm_run.
        destruct (Image_save lib out output_path output_format
                    (save_kwargs output_format quality) w4) as [[[]|e] w5] eqn:Hsave;
          norm_run; inversion Hrun; subst; cbn [trace world fst snd saved flat_map app].
        + split; [reflexivity|]. split; [exact Hout|].
          split; [rewrite Hout; reflexivity|].
          intros w6 H6. inversion H6; subst. split; reflexivity.
        + split; [reflexivity|]. split; [exact Hout|].
          split; [rewrite Hout; reflexivity|].
          intros w6 H6. discriminate H6.
      - destruct Hresize as [-> ->]. rewrite Hmk in Hrun. norm_run.
        destruct (Image_save lib img output_path output_format
                    (save_kwargs output_format quality) w4) as [[[]|e] w5] eqn:Hsave;
          norm_run; inversion Hrun; subst; cbn [trace world fst snd saved flat_map app].
        + split; [reflexivity|]. split; [exact Hout|].
          split; [rewrite Hout; reflexivity|].
          intros w6 H6. inversion H6; subst. split; reflexivity.
        + split; [reflexivity|]. split; [exact Hout|].
          split; [rewrite Hout; reflexivity|].
          intros w6 H6. discriminate H6. }
  all: match goal with
  | |- context [process_image ?a ?b ?c ?d ?e ?f ?g ?h ?s] =>
      destruct (process_image a b c d e f g h s) as [r s'] eqn:Hrun
  end.
  all: unfold_program; split_run.
  all: cbn [saved converted flat_map app In].
  all: repeat match goal with
              | H : Image_convert lib _ _ _ = (Ok _, _) |- _ =>
                  apply (convert_mode lib laws) in H
              | H : Image_resize lib _ _ _ _ = (Ok _, _) |- _ =>
                  apply (resize_mode lib laws) in H
              end.
  all: try (intros img path format Hin).
  all: try (intros mode Hin).
  all: try (intros Hr).
  all: try contradiction.
  all: try discriminate Hr.
  all: try (eexists; split; reflexivity).
  all: destruct Hin as [Hin|[]].
  all: try (symmetry in Hin; exact Hin).
  all: inversion Hin; subst.
  all: match goal with
       | |- img_mode lib ?i = _ /\ _ =>
           assert (Hm : img_mode lib i = "L") by congruence;
           rewrite Hm; split; reflexivity
       end.
Qed.

(** An RGBA source with a JPEG target and no grayscale flag is converted to
    RGB, and what reaches the encoder has mode RGB, three bands. *)
Lemma rgba_to_jpeg_is_flattened
    (input_path output_path : string) (quality : Z)
    (width height : option Z) (w w1 : World) (src : Img) :
  Image_open lib input_path w = (Ok src, w1) ->
  img_mode lib src = "RGBA" ->
  let run := process_image lib input_path output_path "JPEG" quality
               width height false (fresh w) in
  (forall img path format,
      In (img, path, format) (saved (trace (snd run))) ->
      img_mode lib img = "RGB" /\ mode_bands (img_mode lib img) = Some 3%nat)
  /\ converted (trace (snd run)) = ["RGB"].
Proof.
  intros Hopen Hmode run. subst run.
  match goal with
  | |- context [process_image ?a ?b ?c ?d ?e ?f ?g ?h ?s] =>
      destruct (process_image a b c d e f g h s) as [r s'] eqn:Hrun
  end.
  unfold_program. norm_run. rewrite Hopen in Hrun. norm_run.
  rewrite Hmode in Hrun. cbn [String.eqb Ascii.eqb Bool.eqb andb] in Hrun.
  split_run.
  all: cbn [saved converted flat_map app In].
  all: repeat match goal with
              | H : Image_convert lib _ _ _ = (Ok _, _) |- _ =>
                  apply (convert_mode lib laws) in H
              | H : Image_resize lib _ _ _ _ = (Ok _, _) |- _ =>
                  apply (resize_mode lib laws) in H
              end.
  all: split; try reflexivity.
  all: intros img path format Hin.
  all: try contradiction.
  all: destruct Hin as [Hin|[]]; inversion Hin; subst.
  all: match goal with
       | |- img_mode lib ?i = _ /\ _ =>
           assert (Hm : img_mode lib i = "RGB") by congruence;
           rewrite Hm; split; reflexivity
       end.
Qed.

End ColourModes.

Section Unflattened.

Context {World Img : Type}.
Variable lib : Library World Img.

(** Without the grayscale flag, a source whose mode is not exactly RGBA is
    never converted: no [convert] is asked, for any target format. *)
Lemma only_rgba_is_flattened
    (input_path output_path output_format : string) (quality : Z)
    (width height : option Z) (w w1 : World) (src : Img) :
  Image_open lib input_path w = (Ok src, w1) ->
  String.eqb (img_mode lib src) "RGBA" = false ->
  converted (trace (snd (process_image lib input_path output_path
                           output_format quality width height false
                           (fresh w)))) = [].
Proof.
  intros Hopen Hmode.
  match goal with
  | |- context [process_image ?a ?b ?c ?d ?e ?f ?g ?h ?s] =>
      destruct (process_image a b c d e f g h s) as [r s'] eqn:Hrun
  end.
  unfold_program. norm_run. rewrite Hopen in Hrun. norm_run.
  rewrite Hmode in Hrun. cbn [andb] in Hrun.
  split_run; reflexivity.
Qed.

End Unflattened.

(** C5 on a concrete input: an RGBA logo converted to JPEG with the
    grayscale flag is written with mode L. *)
Lemma grayscale_yields_single_channel_witness :
  PillowLaws Sim.library
  /\ process_image Sim.library "logo.png" "out/logo.jpg" "JPEG" 90 None None
       true (fresh Inputs.disk)
     = (Ok true,
        mk_state
          (Sim.mk_world (Sim.images Inputs.disk) (Sim.dirs Inputs.disk)
             (Sim.cwd Inputs.disk)
             [("out/logo.jpg", "JPEG", Sim.mk_image "L" (64, 64))])
          [ EvOpen "logo.png"; EvConvert Inputs.logo "L";
            EvMakedirs "/home/user/out";
            EvSave (Sim.mk_image "L" (64, 64)) "out/logo.jpg" "JPEG"
              [("quality", KwInt 90)] ])
  /\ saved (trace (snd (process_image Sim.library "logo.png" "out/logo.jpg"
                          "JPEG" 90 None None true (fresh Inputs.disk))))
     = [(Sim.mk_image "L" (64, 64), "out/logo.jpg", "JPEG")]
  /\ mode_bands (Sim.mode (Sim.mk_image "L" (64, 64))) = Some 1%nat.
Proof.
  split; [exact Sim_laws|]. split; [reflexivity|].
  destruct (proj2 (proj2 (proj2 (proj2
              (grayscale_yields_single_channel Sim.library Sim_laws
                 "logo.png" "out/logo.jpg" "JPEG" 90 None None Inputs.disk))))
              Inputs.logo Inputs.disk (Sim.mk_image "L" (64, 64)) Inputs.disk
              None (Sim.mk_image "L" (64, 64)) Inputs.disk Inputs.disk
              eq_refl eq_refl eq_refl (conj eq_refl eq_refl) eq_refl)
    as (Hs & _ & Hb & _).
  split; [exact Hs | exact Hb].
Defined.

(** C6 fails on the code: a grey picture with an alpha band (mode LA) asked
    as JPEG without the grayscale flag is not flattened.  The image handed
    to the encoder still has mode LA, two bands with alpha; Pillow's JPEG
    encoder refuses it and the conversion returns [False].  The RGBA logo
    is flattened to RGB and is written. *)
Theorem la_to_jpeg_is_not_flattened :
  has_alpha (Sim.mode Inputs.glyph) = true
  /\ process_image Sim.library "glyph.png" "out/glyph.jpg" "JPEG" 90
       None None false (fresh Inputs.disk)
     = (Ok false,
        mk_state Inputs.disk
          [ EvOpen "glyph.png";
            EvMakedirs "/home/user/out";
            EvSave Inputs.glyph "out/glyph.jpg" "JPEG" [("quality", KwInt 90)];
            EvPrint (error_line "glyph.png"
                       (mk_exn "OSError" "cannot write mode LA as JPEG")) ])
  /\ (let run := process_image Sim.library "logo.png" "out/logo.jpg" "JPEG" 90
                   None None false (fresh Inputs.disk) in
      fst run = Ok true
      /\ Sim.written (world (snd run))
         = [("out/logo.jpg", "JPEG", Sim.mk_image "RGB" (64, 64))]).
Proof. repeat split. Qed.

(** ** The file enumerator *)

Section Enumerator.

Context {World Img : Type}.
Variable lib : Library World Img.

(** Non-recursive enumeration keeps every entry of the listing whose
    lower-cased name ends in a supported extension, file or directory. *)
Lemma find_image_files_flat (directory : string) (s : state World Img)
    (entries : list node) :
  fs_entries lib directory (world s) = Ok entries ->
  find_image_files lib directory false s
  = (Ok (map (fun file => Path.join directory [file])
           (filter has_image_extension (map node_name entries))),
     mk_state (world s) (trace s ++ [EvListdir directory])).
Proof.
  intros H. unfold find_image_files, bind, listdir, call, ret.
  rewrite H. reflexivity.
Qed.

(** Its length counts the matching names, whatever the kind of entry. *)
Lemma find_image_files_flat_length (directory : string) (s : state World Img)
    (entries : list node) (files : list string) (s' : state World Img) :
  fs_entries lib directory (world s) = Ok entries ->
  find_image_files lib directory false s = (Ok files, s') ->
  List.length files
  = List.length (filter (fun n => has_image_extension (node_name n)) entries).
Proof.
  intros H Hrun. rewrite (find_image_files_flat _ _ _ H) in Hrun.
  inversion Hrun; subst. rewrite length_map.
  clear. induction entries as [|n l IH]; [reflexivity|].
  cbn [map filter]. destruct (has_image_extension (node_name n)); cbn [List.length];
    rewrite IH; reflexivity.
Qed.

(** The enumerator logs its listing and nothing else. *)
Lemma find_image_files_trace (directory : string) (recursive : bool)
    (s : state World Img) (r : result (list string)) (s' : state World Img) :
  find_image_files lib directory recursive s = (r, s') ->
  world s' = world s
  /\ trace s' = (trace s ++ [if recursive then EvWalk directory
                             else EvListdir directory])%list.
Proof.
  unfold find_image_files, bind, listdir, os_walk, call, ret.
  destruct recursive.
  - destruct (fs_entries lib directory (world s)); intros H; inversion H;
      subst; split; reflexivity.
  - destruct (fs_entries lib directory (world s)); cbn [rbind]; intros H;
      inversion H; subst; split; reflexivity.
Qed.

End Enumerator.

(** C3 fails on the code: the directory [in] holds two files with a supported
    extension ([a.png], [a.jpg]), a text file and a sub-directory named
    [album.png].  Non-recursive enumeration yields three entries, one of them
    the directory; the recursive walk, which goes through the files of each
    directory only, yields the two files. *)
Theorem listing_yields_a_directory :
  Sim.entries "in" Inputs.disk
  = Ok [ File "a.png"; File "a.jpg"; File "notes.txt";
         Dir "album.png" [ File "readme.md" ] ]
  /\ find_image_files Sim.library "in" false (fresh Inputs.disk)
     = (Ok ["in/a.png"; "in/a.jpg"; "in/album.png"],
        mk_state Inputs.disk [EvListdir "in"])
  /\ find_image_files Sim.library "in" true (fresh Inputs.disk)
     = (Ok ["in/a.png"; "in/a.jpg"], mk_state Inputs.disk [EvWalk "in"]).
Proof. repeat split. Qed.

(** The specification's scenario, a directory with [a.png], [b.JPG] and
    [notes.txt] and no sub-directory: two entries, without [notes.txt]. *)
Example find_image_files_pics :
  fst (find_image_files Sim.library "pics" false (fresh Inputs.disk))
  = Ok ["pics/a.png"; "pics/b.JPG"].
Proof. reflexivity. Qed.

(** ** The batch converter *)

Lemma opened_app {Img : Type} (a b : list (event Img)) :
  opened (a ++ b) = (opened a ++ opened b)%list.
Proof. apply flat_map_app. Qed.

Lemma printed_app {Img : Type} (a b : list (event Img)) :
  printed (a ++ b) = (printed a ++ printed b)%list.
Proof. apply flat_map_app. Qed.

Lemma failures_app {Img : Type} (a b : list (event Img)) :
  failures (a ++ b) = failures a + failures b.
Proof.
  unfold failures. rewrite printed_app, filter_app, length_app. lia.
Qed.

Lemma is_error_line_error_line (input_path : string) (e : exn) :
  is_error_line (error_line input_path e) = true.
Proof. reflexivity. Qed.

Ltac trace_facts :=
  repeat rewrite opened_app; repeat rewrite failures_app;
  cbn [opened flat_map app];
  repeat rewrite app_nil_r.

Section Batch.

Context {World Img : Type}.
Variable lib : Library World Img.

(** One call of [process_image] returns, opens its input once, and prints
    an error line exactly when it returns [False]. *)
Lemma process_image_effect
    (input_path output_path output_format : string) (quality : Z)
    (width height : option Z) (grayscale : bool) (s : state World Img) :
  exists b s',
    process_image lib input_path output_path output_format quality
      width height grayscale s = (Ok b, s')
    /\ opened (trace s') = (opened (trace s) ++ [input_path])%list
    /\ failures (trace s')
       = failures (trace s) + (if b then 0 else 1).
Proof.
  destruct (process_image lib input_path output_path output_format quality
              width height grayscale s) as [r s'] eqn:Hrun.
  unfold_program. split_run.
  all: eexists; eexists; split; [reflexivity|].
  all: cbn [trace]; trace_facts.
  all: unfold failures; cbn [printed flat_map app filter List.length];
    repeat match goal with
           | |- context [is_error_line (String ?c ?l)] =>
               change (is_error_line (String c l)) with true
           end;
    cbn [List.length]; split; try reflexivity; lia.
Qed.

(** Computing the destination opens nothing and prints nothing. *)
Lemma destination_effect (input_dir output_dir ext : string)
    (recursive : bool) (input_path : string) (s : state World Img)
    (r : result string) (s' : state World Img) :
  destination lib input_dir output_dir ext recursive input_path s = (r, s') ->
  opened (trace s') = opened (trace s)
  /\ failures (trace s') = failures (trace s).
Proof.
  unfold destination, bind, ret, lift, getcwd, makedirs, call.
  intros Hrun. split_run.
  all: trace_facts.
  all: unfold failures; cbn [printed flat_map app filter List.length];
    split; try reflexivity; lia.
Qed.

(** The loop: the counter grows by the number of calls that returned
    [True], every file is opened once, in order, and every other file is
    reported as a failure. *)
Lemma batch_loop_counts (input_dir output_dir output_format ext : string)
    (quality : Z) (width height : option Z) (recursive grayscale : bool)
    (image_files : list string) :
  forall (success_count : Z) (s : state World Img) (n : Z)
         (s' : state World Img),
    batch_loop lib input_dir output_dir output_format ext quality width
      height recursive grayscale image_files success_count s = (Ok n, s') ->
    success_count <= n <= success_count + Z.of_nat (List.length image_files)
    /\ opened (trace s') = (opened (trace s) ++ image_files)%list
    /\ (n - success_count) + (failures (trace s') - failures (trace s))
       = Z.of_nat (List.length image_files).
Proof.
  induction image_files as [|input_path rest IH];
    intros success_count s n s' Hrun.
  - cbn [batch_loop] in Hrun. unfold ret in Hrun. inversion Hrun; subst.
    cbn [List.length]. rewrite app_nil_r. repeat split; lia.
  - cbn [batch_loop] in Hrun. unfold bind in Hrun.
    destruct (destination lib input_dir output_dir ext recursive input_path s)
      as [[output_path|e] s1] eqn:Hdest; [|discriminate].
    apply destination_effect in Hdest. destruct Hdest as [Ho1 Hf1].
    destruct (process_image_effect input_path output_path output_format
                quality width height grayscale s1) as (b & s2 & Hp & Ho2 & Hf2).
    rewrite Hp in Hrun. apply IH in Hrun. destruct Hrun as (Hn & Ho & Hf).
    rewrite Ho, Ho2, Ho1, <- app_assoc.
    cbn [List.length app]. rewrite Nat2Z.inj_succ.
    repeat split; destruct b; lia.
Qed.

(** C7: when the enumerator finds no file, the batch converter prints that
    no image file was found and returns (0, 0); nothing is opened, nothing
    is written and no directory is created, not even the output
    directory.  The summary printed for (0, 0) is the no-files line, and it
    differs from the summary of every batch in which files were found, all
    failed included. *)
Theorem empty_batch_is_distinct
    (input_dir output_dir output_format : string) (quality : Z)
    (width height : option Z) (recursive grayscale : bool)
    (s s1 : state World Img) :
  find_image_files lib input_dir recursive s = (Ok [], s1) ->
  let no_files :=
    Fore.YELLOW ++ "No image files found in the specified directory." in
  process_directory lib input_dir output_dir output_format quality width
    height recursive grayscale s
  = (Ok (0, 0), mk_state (world s) (trace s1 ++ [EvPrint no_files]))
  /\ world s1 = world s
  /\ opened (trace s1) = opened (trace s)
  /\ saved (trace s1) = saved (trace s)
  /\ made_dirs (trace s1) = made_dirs (trace s)
  /\ (forall s0 : state World Img,
         report_directory 0 0 s0
         = (Ok tt, mk_state (world s0) (trace s0 ++ [EvPrint no_files])))
  /\ (forall (success_count total_count : Z) (s0 : state World Img),
         total_count <> 0 ->
         exists line,
           report_directory success_count total_count s0
           = (Ok tt, mk_state (world s0) (trace s0 ++ [EvPrint line]))
           /\ line <> no_files).
Proof.
  intros Hfind no_files.
  destruct (find_image_files_trace lib _ _ _ _ _ Hfind) as [Hw Ht].
  split; [|split; [exact Hw|]].
  - unfold process_directory, bind. rewrite Hfind.
    unfold print, ret. cbn [world trace]. rewrite Hw. reflexivity.
  - rewrite Ht. unfold opened, saved, made_dirs. rewrite !flat_map_app.
    split; [|split; [|split; [|split]]].
    + destruct recursive; cbn [flat_map app]; apply app_nil_r.
    + destruct recursive; cbn [flat_map app]; apply app_nil_r.
    + destruct recursive; cbn [flat_map app]; apply app_nil_r.
    + intros s0. reflexivity.
    + intros success_count total_count s0 Hne.
      unfold report_directory. destruct (total_count =? 0) eqn:E.
      * apply Z.eqb_eq in E. contradiction.
      * eexists. split; [reflexivity|].
        unfold no_files. intros Heq. discriminate Heq.
Qed.

(** The paths the enumerator yields are not empty. *)
Lemma join2_nonempty (path b : string) :
  Str.nonempty b = true -> Str.nonempty (Path.join2 path b) = true.
Proof.
  intros Hb. unfold Path.join2.
  destruct (Str.startswith b "/"); [exact Hb|].
  destruct (negb (Str.nonempty path) || Str.endswith path "/")%bool.
  - destruct path; [exact Hb | reflexivity].
  - destruct path; reflexivity.
Qed.

Lemma has_image_extension_nonempty (file : string) :
  has_image_extension file = true -> Str.nonempty file = true.
Proof. destruct file; [discriminate | reflexivity]. Qed.

Lemma joined_matches_nonempty (root : string) (files : list string) :
  Forall (fun p => Str.nonempty p = true)
    (map (fun file => Path.join root [file])
       (filter has_image_extension files)).
Proof.
  induction files as [|f l IH]; cbn [filter map]; [constructor|].
  destruct (has_image_extension f) eqn:E; [|exact IH].
  cbn [map]. constructor; [|exact IH].
  apply join2_nonempty, has_image_extension_nonempty, E.
Qed.

Lemma walked_matches_nonempty
    (triples : list (string * list string * list string)) :
  Forall (fun p => Str.nonempty p = true)
    (flat_map
       (fun t : string * list string * list string =>
          let '(root, _, files) := t in
          map (fun file => Path.join root [file])
            (filter has_image_extension files))
       triples).
Proof.
  induction triples as [|[[root ds] fs] l IH]; cbn [flat_map];
    [constructor|].
  apply Forall_app. split; [apply joined_matches_nonempty | exact IH].
Qed.

Lemma find_image_files_nonempty (directory : string) (recursive : bool)
    (s : state World Img) (files : list string) (s' : state World Img) :
  find_image_files lib directory recursive s = (Ok files, s') ->
  Forall (fun p => Str.nonempty p = true) files.
Proof.
  unfold find_image_files, bind, listdir, os_walk, call, ret.
  destruct recursive.
  - destruct (fs_entries lib directory (world s)) as [entries|e];
      intros H; inversion H; subst; clear H.
    + exact (walked_matches_nonempty (walk directory entries)).
    + constructor.
  - destruct (fs_entries lib directory (world s)) as [entries|e];
      cbn [rbind]; intros H; inversion H; subst; clear H.
    apply joined_matches_nonempty.
Qed.

(** Where directories can always be created, the destination of a
    non-empty path is computed without an error. *)
Lemma destination_returns (input_dir output_dir ext : string)
    (recursive : bool) (input_path : string) (s : state World Img) :
  (forall p w, exists w', os_makedirs lib p w = (Ok tt, w')) ->
  Str.nonempty input_path = true ->
  exists output_path s',
    destination lib input_dir output_dir ext recursive input_path s
    = (Ok output_path, s').
Proof.
  intros Hmk Hne. unfold destination, bind, ret, lift, getcwd, makedirs, call.
  destruct recursive; [|eauto].
  unfold Path.relpath. rewrite Hne. cbn [negb].
  match goal with
  | |- context [match ?l with [] => Ok "." | a :: p => _ end] =>
      destruct l as [|a p]
  end.
  - change (Path.dirname ".") with "". cbn [Str.nonempty]. eauto.
  - match goal with
    | |- context [Str.nonempty ?d] => destruct (Str.nonempty d)
    end; [|eauto].
    match goal with
    | |- context [os_makedirs lib ?q ?w] =>
        destruct (Hmk q w) as [w' Hw']; rewrite Hw'
    end.
    eauto.
Qed.

(** Where directories can always be created, the loop never raises. *)
Lemma batch_loop_returns (input_dir output_dir output_format ext : string)
    (quality : Z) (width height : option Z) (recursive grayscale : bool)
    (image_files : list string) :
  (forall p w, exists w', os_makedirs lib p w = (Ok tt, w')) ->
  Forall (fun p => Str.nonempty p = true) image_files ->
  forall (success_count : Z) (s : state World Img),
  exists n s',
    batch_loop lib input_dir output_dir output_format ext quality width
      height recursive grayscale image_files success_count s = (Ok n, s').
Proof.
  intros Hmk Hall.
  induction Hall as [|input_path rest Hne Hrest IH]; intros success_count s.
  - cbn [batch_loop]. unfold ret. eauto.
  - cbn [batch_loop]. unfold bind.
    destruct (destination_returns input_dir output_dir ext recursive
                input_path s Hmk Hne) as (output_path & s1 & Hd).
    rewrite Hd.
    destruct (process_image_effect input_path output_path output_format
                quality width height grayscale s1) as (ok & s2 & Hp & _).
    rewrite Hp. apply IH.
Qed.

(** C8: the pair [(successes, total)] that [process_directory] returns
    satisfies [0 <= successes <= total]; [total] is the number of files the
    enumerator yielded in that run; the files opened during the run are
    those files, each once and in order; and the failures reported make up
    the difference, so that every file is one success or one failure.
    Where the listing succeeds and directories can be created, the batch
    converter does return such a pair. *)
Theorem process_directory_counts
    (input_dir output_dir output_format : string) (quality : Z)
    (width height : option Z) (recursive grayscale : bool)
    (s : state World Img) :
  (forall successes total s',
      process_directory lib input_dir output_dir output_format quality
        width height recursive grayscale s = (Ok (successes, total), s') ->
      exists image_files s1,
        find_image_files lib input_dir recursive s = (Ok image_files, s1)
        /\ total = Z.of_nat (List.length image_files)
        /\ 0 <= successes <= total
        /\ opened (trace s') = (opened (trace s) ++ image_files)%list
        /\ successes + (failures (trace s') - failures (trace s)) = total)
  /\ ((forall p w, exists w', os_makedirs lib p w = (Ok tt, w')) ->
      forall image_files s1,
        find_image_files lib input_dir recursive s = (Ok image_files, s1) ->
        exists successes s',
          process_directory lib input_dir output_dir output_format quality
            width height recursive grayscale s
          = (Ok (successes, Z.of_nat (List.length image_files)), s')).
Proof.
  split.
  - intros successes total s' Hrun.
    unfold process_directory, bind in Hrun.
    destruct (find_image_files lib input_dir recursive s)
      as [[image_files|e] s1] eqn:Hfind; [|discriminate].
    exists image_files, s1. split; [reflexivity|].
    destruct (find_image_files_trace lib _ _ _ _ _ Hfind) as [Hw Ht].
    assert (Ho1 : opened (trace s1) = opened (trace s)).
    { rewrite Ht, opened_app. destruct recursive; cbn [opened flat_map app];
        apply app_nil_r. }
    assert (Hf1 : failures (trace s1) = failures (trace s)).
    { rewrite Ht, failures_app.
      destruct recursive.
      - change (@failures Img [EvWalk input_dir]) with 0. lia.
      - change (@failures Img [EvListdir input_dir]) with 0. lia. }
    destruct image_files as [|f rest].
    + unfold print, ret in Hrun.
      assert (Hres : successes = 0 /\ total = 0
                     /\ trace s' = (trace s1 ++ [EvPrint
                          (Fore.YELLOW
                           ++ "No image files found in the specified directory.")])%list)
        by (inversion Hrun; auto).
      destruct Hres as (-> & -> & Hs'). rewrite Hs'.
      rewrite opened_app, failures_app, Ho1, Hf1.
      change (@failures Img
                [EvPrint (Fore.YELLOW
                          ++ "No image files found in the specified directory.")])
        with 0.
      cbn [opened flat_map app List.length]. rewrite !app_nil_r.
      repeat split; try reflexivity; lia.
    + unfold makedirs, call, print, ret in Hrun. norm_run.
      destruct (os_makedirs lib output_dir (world s1)) as [[u|e] w2];
        [|discriminate].
      norm_run.
      match type of Hrun with
      | context [batch_loop ?a1 ?a2 ?a3 ?a4 ?a5 ?a6 ?a7 ?a8 ?a9 ?a10 ?l ?c ?st] =>
          destruct (batch_loop a1 a2 a3 a4 a5 a6 a7 a8 a9 a10 l c st)
            as [[n|err] s2] eqn:Hloop; [|discriminate]
      end.
      assert (Hres : successes = n
                     /\ total = Z.of_nat (List.length (f :: rest)) /\ s' = s2)
        by (inversion Hrun; auto).
      destruct Hres as (-> & -> & ->). clear Hrun.
      apply batch_loop_counts in Hloop.
      destruct Hloop as (Hn & Ho & Hf). cbn [trace] in Ho, Hf.
      rewrite !opened_app in Ho. rewrite !failures_app in Hf.
      rewrite Ho1 in Ho. rewrite Hf1 in Hf.
      change (@failures Img [EvMakedirs output_dir]) with 0 in Hf.
      change (@failures Img [EvPrint (Fore.CYAN ++ "Processing images...")])
        with 0 in Hf.
      cbn [opened flat_map app] in Ho. rewrite !app_nil_r in Ho.
      repeat split; try assumption; lia.
  - intros Hmk image_files s1 Hfind.
    unfold process_directory, bind. rewrite Hfind.
    destruct image_files as [|f rest].
    + unfold print, ret. eauto.
    + unfold makedirs, call, print, ret. norm_run.
      destruct (Hmk output_dir (world s1)) as [w2 Hw2]. rewrite Hw2.
      norm_run.
      match goal with
      | |- context [batch_loop ?a1 ?a2 ?a3 ?a4 ?a5 ?a6 ?a7 ?a8 ?a9 ?a10 ?l ?c ?st] =>
          destruct (batch_loop_returns a2 a3 a4 a5 a6 a7 a8 a9 a10 l Hmk
                      (find_image_files_nonempty _ _ _ _ _ Hfind) c st)
            as (n & s2 & Hloop)
      end.
      rewrite Hloop. eauto.
Qed.

End Batch.

(** C7 on a concrete input: the directory [docs] holds a text file and a
    sub-directory, no picture. *)
Lemma empty_batch_is_distinct_witness :
  find_image_files Sim.library "docs" false (fresh Inputs.disk)
  = (Ok [], mk_state Inputs.disk [EvListdir "docs"])
  /\ process_directory Sim.library "docs" "out" "WEBP" 90 None None false false
       (fresh Inputs.disk)
     = (Ok (0, 0),
        mk_state Inputs.disk
          [EvListdir "docs";
           EvPrint (Fore.YELLOW
                    ++ "No image files found in the specified directory.")]).
Proof.
  assert (H : find_image_files Sim.library "docs" false (fresh Inputs.disk)
              = (Ok [], mk_state Inputs.disk [EvListdir "docs"]))
    by reflexivity.
  split; [exact H|].
  exact (proj1 (empty_batch_is_distinct Sim.library "docs" "out" "WEBP" 90
                  None None false false (fresh Inputs.disk)
                  (mk_state Inputs.disk [EvListdir "docs"]) H)).
Defined.

(** A batch over [pics] ([a.png], [b.JPG], [notes.txt]) where only [a.png]
    can be decoded: one success out of two, and one failure reported. *)
Example process_directory_pics :
  let run := process_directory Sim.library "pics" "out" "WEBP" 90 None None
               false false
               (fresh (Sim.mk_world [("pics/a.png", Inputs.photo)]
                         (Sim.dirs Inputs.disk) "/home/user" [])) in
  fst run = Ok (1, 2)
  /\ opened (trace (snd run)) = ["pics/a.png"; "pics/b.JPG"]
  /\ failures (trace (snd run)) = 1
  /\ map (fun t => snd (fst t)) (saved (trace (snd run))) = ["out/a.webp"].
Proof. repeat split. Qed.

(** ** Destination paths *)

(** [first_key] returns the key of the first entry with the value sought, or
    the default when no entry has it. *)
Lemma first_key_is_first (d : list (string * string))
    (output_format default : string) :
  (exists before after,
      d = (before ++ (first_key d output_format default, output_format) :: after)%list
      /\ Forall (fun kv => snd kv <> output_format) before)
  \/ (first_key d output_format default = default
      /\ Forall (fun kv => snd kv <> output_format) d).
Proof.
  induction d as [|[k v] d IH]; cbn [first_key].
  - right. split; [reflexivity | constructor].
  - destruct (String.eqb v output_format) eqn:E.
    + apply String.eqb_eq in E. subst v. left.
      exists [], d. split; [reflexivity | constructor].
    + apply String.eqb_neq in E.
      destruct IH as [(before & after & Hd & Hb) | (Hk & Hall)].
      * left. exists ((k, v) :: before), after. split.
        -- cbn [app]. rewrite <- Hd. reflexivity.
        -- constructor; [exact E | exact Hb].
      * right. split; [exact Hk|]. constructor; [exact E | exact Hall].
Qed.

(** C10: in a batch the destination of an input file is built from the stem
    of its name, the relative sub-directory in recursive mode, the output
    directory and the extension of the target format, which is the first
    alias of the format in the table.  Two inputs with the same stem (and,
    in recursive mode, the same relative directory) get the same
    destination; so do [a.png] and [a.jpg] of one directory.  For JPEG the
    extension is [jpg], never [jpeg]. *)
Theorem destination_depends_on_stem {World Img : Type} (lib : Library World Img)
    (input_dir output_dir output_format : string) (s : state World Img)
    (p1 p2 : string) :
  let ext := format_extension output_format in
  let stem := fun p => fst (Path.splitext (Path.basename p)) in
  let cwd := os_getcwd lib (world s) in
  destination lib input_dir output_dir ext false p1 s
  = (Ok (Path.join output_dir [stem p1 ++ "." ++ ext]), s)
  /\ (stem p1 = stem p2 ->
      destination lib input_dir output_dir ext false p1 s
      = destination lib input_dir output_dir ext false p2 s)
  /\ (forall r1 r2,
         Path.relpath cwd p1 input_dir = Ok r1 ->
         Path.relpath cwd p2 input_dir = Ok r2 ->
         Path.dirname r1 = Path.dirname r2 ->
         stem p1 = stem p2 ->
         destination lib input_dir output_dir ext true p1 s
         = destination lib input_dir output_dir ext true p2 s)
  /\ (forall out s',
         destination lib input_dir output_dir ext true p1 s = (Ok out, s') ->
         exists r1,
           Path.relpath cwd p1 input_dir = Ok r1
           /\ out = if Str.nonempty (Path.dirname r1)
                    then Path.join output_dir
                           [Path.dirname r1; stem p1 ++ "." ++ ext]
                    else Path.join output_dir [stem p1 ++ "." ++ ext])
  /\ ((exists before after,
          SUPPORTED_FORMATS = (before ++ (ext, output_format) :: after)%list
          /\ Forall (fun kv => snd kv <> output_format) before)
      \/ (ext = "jpg"
          /\ Forall (fun kv => snd kv <> output_format) SUPPORTED_FORMATS))
  /\ map format_extension canonical_formats
     = ["jpg"; "png"; "webp"; "bmp"; "tiff"; "gif"]
  /\ format_extension "JPEG" = "jpg"
  /\ format_extension "JPEG" <> "jpeg"
  /\ destination lib "in" output_dir (format_extension "JPEG") false "in/a.png" s
     = (Ok (Path.join output_dir ["a.jpg"]), s)
  /\ destination lib "in" output_dir (format_extension "JPEG") false "in/a.jpg" s
     = (Ok (Path.join output_dir ["a.jpg"]), s).
Proof.
  intros ext stem cwd.
  split; [reflexivity|].
  split.
  { intros Hst. unfold destination, ret. fold (stem p1). fold (stem p2).
    rewrite Hst. reflexivity. }
  split.
  { intros r1 r2 H1 H2 Hd Hst.
    unfold destination, bind, lift, getcwd, ret.
    fold cwd. rewrite H1, H2. fold (stem p1). fold (stem p2).
    rewrite Hd, Hst. reflexivity. }
  split.
  { intros out s'. unfold destination, bind, lift, getcwd, ret, makedirs, call.
    fold cwd. fold (stem p1).
    destruct (Path.relpath cwd p1 input_dir) as [r1|e]; [|discriminate].
    destruct (Str.nonempty (Path.dirname r1)) eqn:E.
    - destruct (os_makedirs lib _ (world s)) as [[u|e] w']; [|discriminate].
      intros H; inversion H; subst. exists r1. rewrite E. split; reflexivity.
    - intros H; inversion H; subst. exists r1. rewrite E. split; reflexivity. }
  split; [apply first_key_is_first|].
  split; [reflexivity|].
  split; [reflexivity|].
  split; [intros H; discriminate H|].
  split; reflexivity.
Qed.

(** In a recursive batch over [in], [a.png] and [a.jpg] are written to the
    same file, the second over the first. *)
Example same_stem_same_destination :
  map (fun t => snd (fst t))
    (saved (trace (snd (process_directory Sim.library "in" "out" "JPEG" 90
                          None None true false (fresh Inputs.disk)))))
  = ["out/a.jpg"; "out/a.jpg"]
  /\ map fst (Sim.written
                (world (snd (process_directory Sim.library "in" "out" "JPEG" 90
                               None None true false (fresh Inputs.disk)))))
     = [("out/a.jpg", "JPEG"); ("out/a.jpg", "JPEG")].
Proof. split; reflexivity. Qed.

(** * Further properties of the code *)

Ltac run_of_process_image :=
  match goal with
  | |- context [process_image ?a ?b ?c ?d ?e ?f ?g ?h ?s] =>
      destruct (process_image a b c d e f g h s) as [r s'] eqn:Hrun
  end.

Section More.
Context {World Img : Type}.
Variable lib : Library World Img.

(** X1: once the source is decoded, the one conversion [process_image] asks
    of Pillow is decided by the flag, the mode of the source and the target
    format: to L with the grayscale flag; otherwise to RGB exactly when the
    mode is RGBA and the target is JPEG; otherwise none.  So an RGBA source
    keeps its alpha band for PNG, WEBP and the other targets. *)
Theorem conversion_is_decided_by_flag_mode_and_format
    (input_path output_path output_format : string) (quality : Z)
    (width height : option Z) (grayscale : bool) (w w1 : World) (src : Img) :
  Image_open lib input_path w = (Ok src, w1) ->
  converted (trace (snd (process_image lib input_path output_path output_format
                           quality width height grayscale (fresh w))))
  = if grayscale then ["L"]
    else if (String.eqb (img_mode lib src) "RGBA"
             && String.eqb output_format "JPEG")%bool
         then ["RGB"] else [].
Proof.
  intros Hopen. run_of_process_image.
  unfold_program. norm_run. rewrite Hopen in Hrun. norm_run.
  destruct grayscale;
    [|destruct (String.eqb (img_mode lib src) "RGBA"
                && String.eqb output_format "JPEG")%bool];
    split_run; reflexivity.
Qed.

Lemma save_kwargs_spec (output_format : string) (quality : Z) :
  (has_kwarg "quality" (save_kwargs output_format quality)
   = (String.eqb output_format "JPEG" || String.eqb output_format "WEBP")%bool)
  /\ (has_kwarg "optimize" (save_kwargs output_format quality)
      = String.eqb output_format "PNG")
  /\ (forall name v, In (name, v) (save_kwargs output_format quality) ->
        (name = "quality" /\ v = KwInt quality)
        \/ (name = "optimize" /\ v = KwBool true)).
Proof.
  unfold save_kwargs, has_kwarg.
  destruct (String.eqb output_format "JPEG"),
    (String.eqb output_format "WEBP"), (String.eqb output_format "PNG").
  all: cbn [orb app existsb fst String.eqb Ascii.eqb Bool.eqb andb In].
  all: split; [reflexivity | split; [reflexivity|]].
  all: intros name v Hv.
  all: repeat (destruct Hv as [Hv|Hv]; [inversion Hv; subst; auto|]).
  all: destruct Hv.
Qed.

(** X2: whatever [process_image] hands to [img.save] carries the output path
    and the output format of the request unchanged; the keyword [quality] is
    passed exactly for JPEG and WEBP, with the requested value, [optimize]
    exactly for PNG, with [True], and no other keyword; every resize is
    asked with the LANCZOS filter. *)
Theorem encoder_arguments
    (input_path output_path output_format : string) (quality : Z)
    (width height : option Z) (grayscale : bool) (w : World) :
  let run := process_image lib input_path output_path output_format quality
               width height grayscale (fresh w) in
  (forall img path format,
      In (img, path, format) (saved (trace (snd run))) ->
      path = output_path /\ format = output_format)
  /\ (forall format kwargs,
         In (format, kwargs) (save_options (trace (snd run))) ->
         (has_kwarg "quality" kwargs
          = (String.eqb output_format "JPEG" || String.eqb output_format "WEBP")%bool)
         /\ (has_kwarg "optimize" kwargs = String.eqb output_format "PNG")
         /\ (forall name v, In (name, v) kwargs ->
               (name = "quality" /\ v = KwInt quality)
               \/ (name = "optimize" /\ v = KwBool true)))
  /\ (forall r, In r (resize_filters (trace (snd run))) -> r = LANCZOS).
Proof.
  intros run. subst run. run_of_process_image.
  unfold_program. split_run.
  all: cbn [saved save_options resize_filters flat_map app In].
  all: split; [intros img path format Hin
              | split; [intros format kwargs Hin | intros flt Hin]].
  all: try contradiction.
  all: destruct Hin as [Hin|[]]; inversion Hin; subst.
  all: try (split; reflexivity).
  all: try reflexivity.
  all: apply save_kwargs_spec.
Qed.


(** X4: [process_image] returns [True] only if [img.save] was its last call
    and succeeded: the world it leaves is the one that [save] returned, for
    the requested path, format and keywords. *)
Theorem true_means_saved
    (input_path output_path output_format : string) (quality : Z)
    (width height : option Z) (grayscale : bool) (s s' : state World Img) :
  process_image lib input_path output_path output_format quality
    width height grayscale s = (Ok true, s') ->
  exists img w1 tr,
    Image_save lib img output_path output_format
      (save_kwargs output_format quality) w1 = (Ok tt, world s')
    /\ trace s' = (tr ++ [EvSave img output_path output_format
                             (save_kwargs output_format quality)])%list.
Proof.
  intros Hrun. unfold_program. split_run.
  all: match goal with
       | H : Image_save lib ?i _ _ _ ?w1 = (Ok ?u, _) |- _ =>
           destruct u; exists i, w1; eexists; split; [exact H | reflexivity]
       end.
Qed.

(** X5: with both a width and a height (neither 0) the size handed to the
    resampler is the pair as given, whatever the size of the image: no
    arithmetic is done, so no aspect ratio is kept and the size step cannot
    raise. *)
Theorem explicit_size_is_used_as_given
    (input_path output_path output_format : string) (quality W H : Z)
    (grayscale : bool) (w : World) :
  W <> 0 -> H <> 0 ->
  (forall size, resize_target size (Some W) (Some H) = Ok (Some (Some W, Some H)))
  /\ forall img size,
      In (img, size)
        (resized (trace (snd (process_image lib input_path output_path
                                output_format quality (Some W) (Some H)
                                grayscale (fresh w))))) ->
      size = (Some W, Some H).
Proof.
  intros HW HH.
  assert (Ht : forall size,
             resize_target size (Some W) (Some H) = Ok (Some (Some W, Some H))).
  { intros size. unfold resize_target.
    rewrite (truthy_nonzero W HW), (truthy_nonzero H HH). reflexivity. }
  split; [exact Ht|].
  run_of_process_image. unfold_program. split_run.
  all: try match goal with
           | Hr : resize_target _ _ _ = _ |- _ => rewrite Ht in Hr; inversion Hr; subst
           end.
  all: cbn [resized flat_map app In].
  all: intros img size Hin; try contradiction.
  all: destruct Hin as [Hin|[]]; inversion Hin; reflexivity.
Qed.

End More.

Lemma lower_app (a b : string) : Str.lower (a ++ b) = Str.lower a ++ Str.lower b.
Proof. induction a as [|c a IH]; cbn [Str.lower append]; [reflexivity|]. now rewrite IH. Qed.

Lemma length_append (a b : string) :
  String.length (a ++ b) = (String.length a + String.length b)%nat.
Proof. induction a as [|c a IH]; cbn [String.length append]; [reflexivity|]. now rewrite IH. Qed.

Lemma drop_append (a b : string) (n : nat) :
  Str.drop (String.length a + n) (a ++ b) = Str.drop n b.
Proof. induction a as [|c a IH]; cbn [String.length append Nat.add Str.drop]; [reflexivity|]. exact IH. Qed.

Lemma endswith_append (a b suffix : string) :
  Str.endswith b suffix = true -> Str.endswith (a ++ b) suffix = true.
Proof.
  unfold Str.endswith. intros H. apply andb_true_iff in H. destruct H as [Hl He].
  apply Nat.leb_le in Hl. apply andb_true_iff. split.
  - apply Nat.leb_le. rewrite length_append. lia.
  - rewrite length_append.
    replace (String.length a + String.length b - String.length suffix)%nat
      with (String.length a + (String.length b - String.length suffix))%nat by lia.
    rewrite drop_append. exact He.
Qed.

Lemma has_image_extension_append (a b : string) :
  has_image_extension b = true -> has_image_extension (a ++ b) = true.
Proof.
  unfold has_image_extension, Str.endswith_any. intros H.
  apply existsb_exists in H. destruct H as (suf & Hin & Hs).
  apply existsb_exists. exists suf. split; [exact Hin|].
  rewrite lower_app. apply endswith_append. exact Hs.
Qed.

Lemma has_image_extension_join2 (d f : string) :
  has_image_extension f = true -> has_image_extension (Path.join2 d f) = true.
Proof.
  intros H. unfold Path.join2.
  destruct (Str.startswith f "/"); [exact H|].
  destruct (negb (Str.nonempty d) || Str.endswith d "/")%bool.
  - apply has_image_extension_append. exact H.
  - apply has_image_extension_append. apply (has_image_extension_append "/"). exact H.
Qed.

(** Induction on a node with the hypothesis for every child. *)
Lemma node_forall_ind (P : node -> Prop) :
  (forall name, P (File name)) ->
  (forall name children, Forall P children -> P (Dir name children)) ->
  forall n, P n.
Proof.
  intros Hf Hd.
  fix IH 1. intros [name|name children].
  - apply Hf.
  - apply Hd. induction children as [|c l IHl]; constructor.
    + apply IH.
    + exact IHl.
Qed.

Lemma In_file_names (entries : list node) (name : string) :
  In name (file_names entries) <-> In (File name) entries.
Proof.
  unfold file_names. rewrite in_map_iff. split.
  - intros (n & Hn & Hin). apply filter_In in Hin. destruct Hin as [Hin Hd].
    destruct n as [nm|nm ch]; [|discriminate]. cbn in Hn. subst. exact Hin.
  - intros H. exists (File name). split; [reflexivity|].
    apply filter_In. split; [exact H | reflexivity].
Qed.

Lemma walk_node_dir (top name : string) (children : list node) :
  walk_node top (Dir name children) = walk (Path.join top [name]) children.
Proof. reflexivity. Qed.

Lemma walk_sound_node (n : node) :
  forall top root ds fs name,
    In (root, ds, fs) (walk_node top n) -> In name fs ->
    match n with
    | File _ => False
    | Dir d children => file_at (Path.join top [d]) children root name
    end.
Proof.
  induction n as [nm|d children IH] using node_forall_ind;
    intros top root ds fs name Hin Hname.
  - destruct Hin.
  - cbn [walk_node] in Hin. destruct Hin as [Heq|Hin].
    + inversion Heq; subst. apply file_here. apply In_file_names. exact Hname.
    + apply in_flat_map in Hin. destruct Hin as (c & Hc & Hin).
      rewrite Forall_forall in IH. specialize (IH c Hc _ _ _ _ _ Hin Hname).
      destruct c as [nm|d' ch']; [destruct IH|].
      eapply file_below; eassumption.
Qed.

Lemma walk_sound (top : string) (entries : list node) root ds fs name :
  In (root, ds, fs) (walk top entries) -> In name fs ->
  file_at top entries root name.
Proof.
  intros Hin Hname. change (walk top entries) with
    ((top, dir_names entries, file_names entries)
       :: flat_map (walk_node top) entries) in Hin.
  destruct Hin as [Heq|Hin].
  - inversion Heq; subst. apply file_here. apply In_file_names. exact Hname.
  - apply in_flat_map in Hin. destruct Hin as (c & Hc & Hin).
    pose proof (walk_sound_node c _ _ _ _ _ Hin Hname) as H.
    destruct c as [nm|d' ch']; [destruct H|].
    eapply file_below; eassumption.
Qed.

Lemma walk_complete (top : string) (entries : list node) root name :
  file_at top entries root name ->
  exists ds fs, In (root, ds, fs) (walk top entries) /\ In name fs.
Proof.
  induction 1 as [top entries name Hin | top entries d children root name Hin Hat IH].
  - exists (dir_names entries), (file_names entries). split.
    + left. reflexivity.
    + apply In_file_names. exact Hin.
  - destruct IH as (ds & fs & Hw & Hn). exists ds, fs. split; [|exact Hn].
    right. apply in_flat_map. exists (Dir d children). split; [exact Hin|].
    rewrite walk_node_dir. exact Hw.
Qed.

Section Enum.
Context {World Img : Type}.
Variable lib : Library World Img.

(** X6: for a directory that can be listed, the non-recursive enumeration
    yields exactly the paths [join(directory, name)] of the immediate
    entries whose lower-cased name ends in a supported extension, and the
    recursive one yields exactly the paths [join(root, name)] of the regular
    files with such a name in the directory or anywhere below it. *)
Theorem find_image_files_yields
    (directory : string) (s : state World Img) (entries : list node) :
  fs_entries lib directory (world s) = Ok entries ->
  (exists files s',
      find_image_files lib directory false s = (Ok files, s')
      /\ forall p, In p files <->
                   exists n, In n entries
                             /\ has_image_extension (node_name n) = true
                             /\ p = Path.join directory [node_name n])
  /\ (exists files s',
         find_image_files lib directory true s = (Ok files, s')
         /\ forall p, In p files <->
                      exists root name,
                        file_at directory entries root name
                        /\ has_image_extension name = true
                        /\ p = Path.join root [name]).
Proof.
  intros Hent. split.
  - rewrite (find_image_files_flat lib directory s entries Hent).
    eexists. eexists. split; [reflexivity|]. intros p.
    rewrite in_map_iff. split.
    + intros (f & Hp & Hf). apply filter_In in Hf. destruct Hf as [Hf Hext].
      apply in_map_iff in Hf. destruct Hf as (n & Hn & Hin). subst.
      exists n. auto.
    + intros (n & Hin & Hext & Hp). exists (node_name n). split; [auto|].
      apply filter_In. split; [|exact Hext]. apply in_map. exact Hin.
  - unfold find_image_files, bind, os_walk, call, ret. rewrite Hent.
    eexists. eexists. split; [reflexivity|]. intros p.
    rewrite in_flat_map. split.
    + intros ([[root ds] fs] & Hw & Hp). apply in_map_iff in Hp.
      destruct Hp as (f & Hp & Hf). apply filter_In in Hf. destruct Hf as [Hf Hext].
      exists root, f. split; [|auto]. eapply walk_sound; eassumption.
    + intros (root & name & Hat & Hext & Hp).
      apply walk_complete in Hat. destruct Hat as (ds & fs & Hw & Hn).
      exists (root, ds, fs). split; [exact Hw|].
      apply in_map_iff. exists name. split; [auto|].
      apply filter_In. auto.
Qed.

(** X7: every path the enumerator yields, in either mode, itself ends in a
    supported extension, case ignored. *)
Theorem found_files_have_image_extensions
    (directory : string) (recursive : bool) (s s' : state World Img)
    (files : list string) :
  find_image_files lib directory recursive s = (Ok files, s') ->
  Forall (fun p => has_image_extension p = true) files.
Proof.
  unfold find_image_files, bind, listdir, os_walk, call, ret.
  assert (Hj : forall root l,
             Forall (fun p => has_image_extension p = true)
               (map (fun file => Path.join root [file])
                  (filter has_image_extension l))).
  { intros root l. apply Forall_forall. intros p Hp.
    apply in_map_iff in Hp. destruct Hp as (f & <- & Hf).
    apply filter_In in Hf. apply has_image_extension_join2. apply Hf. }
  assert (Hw : forall triples : list (string * list string * list string),
             Forall (fun p => has_image_extension p = true)
               (flat_map
                  (fun t : string * list string * list string =>
                     let '(root, _, files) := t in
                     map (fun file => Path.join root [file])
                       (filter has_image_extension files))
                  triples)).
  { intros triples. apply Forall_forall. intros p Hp. apply in_flat_map in Hp.
    destruct Hp as ([[root ds] fs] & _ & Hp).
    pose proof (Hj root fs) as Hall. rewrite Forall_forall in Hall.
    apply Hall, Hp. }
  destruct recursive.
  - destruct (fs_entries lib directory (world s)) as [entries|e];
      intros H; inversion H; subst; clear H; [|constructor].
    exact (Hw (walk directory entries)).
  - destruct (fs_entries lib directory (world s)) as [entries|e];
      cbn [rbind]; intros H; inversion H; subst; clear H.
    apply Hj.
Qed.

End Enum.

Lemma str_mem_append (c : ascii) (a b : string) :
  str_mem c (a ++ b) = (str_mem c a || str_mem c b)%bool.
Proof.
  induction a as [|x a IH]; cbn [str_mem append]; [reflexivity|].
  rewrite IH. apply orb_assoc.
Qed.

Lemma take_append (a b : string) : Str.take (String.length a) (a ++ b) = a.
Proof. induction a as [|x a IH]; cbn [String.length append Str.take]; [destruct b; reflexivity|]. now rewrite IH. Qed.

Lemma drop_append_exact (a b : string) : Str.drop (String.length a) (a ++ b) = b.
Proof. induction a as [|x a IH]; cbn [String.length append Str.drop]; [reflexivity|]. exact IH. Qed.

Lemma str_mem_take (c : ascii) (n : nat) (s : string) :
  str_mem c s = false -> str_mem c (Str.take n s) = false.
Proof.
  revert n. induction s as [|x s IH]; intros [|n] H; cbn [Str.take str_mem] in *;
    try reflexivity.
  apply orb_false_iff in H. destruct H as [Hx Hs]. rewrite Hx. cbn [orb]. auto.
Qed.

Lemma rfind_aux_absent (c : ascii) (s : string) (i acc : Z) :
  str_mem c s = false -> Str.rfind_aux c s i acc = acc.
Proof.
  revert i acc. induction s as [|x s IH]; intros i acc H; cbn [Str.rfind_aux str_mem] in *;
    [reflexivity|].
  apply orb_false_iff in H. destruct H as [Hx Hs]. rewrite Hx. apply IH, Hs.
Qed.

Lemma rfind_aux_last (c : ascii) (a b : string) (i acc : Z) :
  str_mem c b = false ->
  Str.rfind_aux c (a ++ String c b) i acc = i + Z.of_nat (String.length a).
Proof.
  intros Hb. revert i acc. induction a as [|x a IH]; intros i acc.
  - cbn [append Str.rfind_aux String.length]. rewrite Ascii.eqb_refl.
    rewrite rfind_aux_absent by exact Hb. cbn. lia.
  - cbn [append Str.rfind_aux String.length]. rewrite IH. lia.
Qed.

Lemma rfind_absent (c : ascii) (s : string) :
  str_mem c s = false -> Str.rfind s c = -1.
Proof. apply rfind_aux_absent. Qed.

Lemma rfind_last (c : ascii) (a b : string) :
  str_mem c b = false ->
  Str.rfind (a ++ String c b) c = Z.of_nat (String.length a).
Proof. intros H. unfold Str.rfind. rewrite rfind_aux_last by exact H. lia. Qed.

(** A string either lacks [c] or splits at its last [c]. *)
Lemma last_split (c : ascii) (s : string) :
  str_mem c s = false
  \/ exists a b, s = a ++ String c b /\ str_mem c b = false.
Proof.
  induction s as [|x s IH]; [left; reflexivity|].
  destruct IH as [Hs | (a & b & -> & Hb)].
  - destruct (Ascii.eqb x c) eqn:E.
    + right. apply Ascii.eqb_eq in E. subst x. exists "", s. split; [reflexivity | exact Hs].
    + left. cbn [str_mem]. rewrite E, Hs. reflexivity.
  - right. exists (String x a), b. split; [reflexivity | exact Hb].
Qed.

Lemma str_append_assoc (a b c : string) : (a ++ b) ++ c = a ++ (b ++ c).
Proof. induction a as [|x a IH]; cbn [append]; [reflexivity|]. now rewrite IH. Qed.

Lemma take_drop (n : nat) (s : string) : Str.take n s ++ Str.drop n s = s.
Proof.
  revert n. induction s as [|x s IH]; intros [|n]; cbn [Str.take Str.drop append];
    try reflexivity.
  now rewrite IH.
Qed.

Lemma endswith_split (s suffix : string) :
  Str.endswith s suffix = true -> exists a, s = a ++ suffix.
Proof.
  unfold Str.endswith. intros H. apply andb_true_iff in H. destruct H as [_ He].
  apply String.eqb_eq in He.
  exists (Str.take (String.length s - String.length suffix) s).
  pose proof (take_drop (String.length s - String.length suffix) s) as Htd.
  rewrite He in Htd. symmetry. exact Htd.
Qed.

Lemma basename_no_sep (p : string) : str_mem "/" (Path.basename p) = false.
Proof.
  unfold Path.basename, Path.sep.
  destruct (last_split "/" p) as [H | (a & b & -> & Hb)].
  - rewrite rfind_absent by exact H. exact H.
  - rewrite rfind_last by exact Hb.
    replace (Z.to_nat (Z.of_nat (String.length a) + 1)) with (String.length (a ++ "/")).
    + change (a ++ String "/" b) with (a ++ ("/" ++ b)).
      rewrite <- str_append_assoc. rewrite drop_append_exact. exact Hb.
    + rewrite length_append. cbn [String.length]. lia.
Qed.

Lemma basename_after_sep (a b : string) :
  str_mem "/" b = false -> Path.basename ((a ++ "/") ++ b) = b.
Proof.
  intros Hb. unfold Path.basename, Path.sep.
  rewrite str_append_assoc. change ("/" ++ b) with (String "/" b).
  rewrite rfind_last by exact Hb.
  replace (Z.to_nat (Z.of_nat (String.length a) + 1)) with (String.length (a ++ "/")).
  - change (a ++ String "/" b) with (a ++ ("/" ++ b)).
    rewrite <- str_append_assoc. apply drop_append_exact.
  - rewrite length_append. cbn [String.length]. lia.
Qed.

Lemma basename_plain (b : string) :
  str_mem "/" b = false -> Path.basename b = b.
Proof.
  intros Hb. unfold Path.basename, Path.sep. rewrite rfind_absent by exact Hb.
  reflexivity.
Qed.

Lemma basename_append (a b : string) :
  str_mem "/" b = false ->
  (a = "" \/ Str.endswith a "/" = true) ->
  Path.basename (a ++ b) = b.
Proof.
  intros Hb [-> | He].
  - apply basename_plain, Hb.
  - apply endswith_split in He. destruct He as [a' ->].
    apply basename_after_sep, Hb.
Qed.

(** The extension of a name [pre.e]: what follows the last dot, when the
    file name has a character other than a dot before it. *)
Lemma splitext_last_dot (pre e : string) :
  str_mem "." e = false -> str_mem "/" e = false ->
  Path.has_non_dot (Path.basename pre) = true ->
  Path.splitext (pre ++ String "." e) = (pre, String "." e).
Proof.
  intros Hdot Hsep Hname. unfold Path.splitext, Path.extsep, Path.sep.
  rewrite (rfind_last "." pre e Hdot).
  assert (Hse : str_mem "/" (String "." e) = false).
  { cbn [str_mem]. rewrite Hsep. reflexivity. }
  destruct (last_split "/" pre) as [Hp | (a & b & Hpre & Hb)].
  - rewrite rfind_absent
      by (rewrite str_mem_append, Hp, Hse; reflexivity).
    rewrite (basename_plain pre Hp) in Hname.
    replace (Z.of_nat (String.length pre) >? -1) with true
      by (symmetry; apply Z.gtb_lt; lia).
    change (-1 + 1) with 0. cbn [Z.to_nat Str.drop].
    rewrite Z.sub_0_r, Nat2Z.id.
    rewrite take_append, Hname, drop_append_exact. reflexivity.
  - assert (Hbase : Path.basename pre = b).
    { rewrite Hpre. change (a ++ String "/" b) with (a ++ ("/" ++ b)).
      rewrite <- str_append_assoc. apply basename_after_sep, Hb. }
    rewrite Hbase in Hname.
    assert (Hlen : String.length pre = (String.length a + S (String.length b))%nat).
    { rewrite Hpre, length_append. reflexivity. }
    assert (HP : pre ++ String "." e = (a ++ "/") ++ (b ++ String "." e)).
    { rewrite Hpre, !str_append_assoc. reflexivity. }
    assert (Hsepidx : Str.rfind (pre ++ String "." e) "/"
                      = Z.of_nat (String.length a)).
    { rewrite Hpre, str_append_assoc. cbn [append].
      apply rfind_last. rewrite str_mem_append, Hb, Hse. reflexivity. }
    rewrite Hsepidx.
    assert (Hslice :
              Str.take (Z.to_nat (Z.of_nat (String.length pre)
                                  - (Z.of_nat (String.length a) + 1)))
                (Str.drop (Z.to_nat (Z.of_nat (String.length a) + 1))
                   (pre ++ String "." e)) = b).
    { replace (Z.to_nat (Z.of_nat (String.length a) + 1))
        with (String.length (a ++ "/"))
        by (rewrite length_append; cbn [String.length]; lia).
      rewrite HP, drop_append_exact.
      replace (Z.to_nat (Z.of_nat (String.length pre)
                         - (Z.of_nat (String.length a) + 1)))
        with (String.length b) by lia.
      apply take_append. }
    rewrite Hslice, Hname.
    replace (Z.of_nat (String.length pre) >? Z.of_nat (String.length a)) with true
      by (symmetry; apply Z.gtb_lt; lia).
    rewrite Nat2Z.id, take_append, drop_append_exact. reflexivity.
Qed.

Lemma lower_ascii_idempotent (c : ascii) :
  Str.lower_ascii (Str.lower_ascii c) = Str.lower_ascii c.
Proof. destruct c as [[] [] [] [] [] [] [] []]; reflexivity. Qed.

Lemma lower_idempotent (s : string) : Str.lower (Str.lower s) = Str.lower s.
Proof.
  induction s as [|c s IH]; cbn [Str.lower]; [reflexivity|].
  now rewrite lower_ascii_idempotent, IH.
Qed.

Lemma nonempty_lower (s : string) : Str.nonempty (Str.lower s) = Str.nonempty s.
Proof. destruct s; reflexivity. Qed.

Lemma lower_ascii_dot (c : ascii) :
  Ascii.eqb (Str.lower_ascii c) "." = Ascii.eqb c ".".
Proof. destruct c as [[] [] [] [] [] [] [] []]; reflexivity. Qed.

Lemma str_mem_dot_lower (s : string) : str_mem "." (Str.lower s) = str_mem "." s.
Proof.
  induction s as [|c s IH]; cbn [Str.lower str_mem]; [reflexivity|].
  now rewrite lower_ascii_dot, IH.
Qed.

Lemma remove_char_absent (c : ascii) (s : string) :
  str_mem c s = false -> Str.remove_char c s = s.
Proof.
  induction s as [|x s IH]; cbn [str_mem Str.remove_char]; [reflexivity|].
  intros H. apply orb_false_iff in H. destruct H as [Hx Hs].
  rewrite Hx, (IH Hs). reflexivity.
Qed.

Lemma path_extension_last_dot (pre e : string) :
  str_mem "." e = false -> str_mem "/" e = false ->
  Path.has_non_dot (Path.basename pre) = true ->
  path_extension (pre ++ "." ++ e) = Str.lower e.
Proof.
  intros Hdot Hsep Hname. unfold path_extension.
  change (pre ++ "." ++ e) with (pre ++ String "." e).
  rewrite (splitext_last_dot pre e Hdot Hsep Hname). cbn [snd Str.lower].
  change (Str.lower_ascii ".") with "."%char.
  cbn [Str.remove_char]. rewrite Ascii.eqb_refl.
  apply remove_char_absent. rewrite str_mem_dot_lower. exact Hdot.
Qed.

(** X8: for an output path [pre.e] where [e] has no dot and no slash and the
    file name before the dot has a character other than a dot, the format
    inferred is that of the alias [e.lower()], or JPEG when it is no alias:
    only what follows the last dot counts, not the directory, nor the stem,
    nor the case. *)
Theorem format_is_inferred_from_last_extension (pre e : string) :
  str_mem "." e = false -> str_mem "/" e = false ->
  Path.has_non_dot (Path.basename pre) = true ->
  get_output_format (pre ++ "." ++ e) None
  = Ok (match dict_get SUPPORTED_FORMATS (Str.lower e) with
        | Some f => f
        | None => "JPEG"
        end).
Proof.
  intros Hdot Hsep Hname.
  rewrite (get_output_format_inferred _ None eq_refl).
  rewrite (path_extension_last_dot pre e Hdot Hsep Hname). reflexivity.
Qed.

(** X9: with a non-empty explicit type the result of [get_output_format],
    a format or the [KeyError], does not depend on the output path and is the
    same for the type in any letter case: it is the table's entry for the
    lower-cased type. *)
Theorem explicit_type_ignores_path_and_case (p p' t : string) :
  t <> "" ->
  get_output_format p (Some t) = get_output_format p' (Some (Str.lower t))
  /\ get_output_format p (Some t) = dict_item SUPPORTED_FORMATS (Str.lower t).
Proof.
  intros Ht. unfold get_output_format.
  rewrite nonempty_lower, lower_idempotent.
  destruct t as [|c t]; [congruence|]. split; reflexivity.
Qed.

Lemma splitext_stem (name : string) :
  str_mem "/" name = false -> Path.has_non_dot name = true ->
  str_mem "/" (fst (Path.splitext name)) = false
  /\ Path.has_non_dot (fst (Path.splitext name)) = true.
Proof.
  intros Hsep Hnd. unfold Path.splitext, Path.sep.
  rewrite (rfind_absent "/" name Hsep). change (-1 + 1) with 0.
  cbn [Z.to_nat Str.drop]. rewrite Z.sub_0_r.
  destruct (Str.rfind name Path.extsep >? -1); [|cbn [fst]; auto].
  destruct (Path.has_non_dot (Str.take (Z.to_nat (Str.rfind name Path.extsep)) name))
    eqn:E; cbn [fst]; [|auto].
  split; [apply str_mem_take, Hsep | exact E].
Qed.

Lemma startswith_sep_absent (s t : string) :
  str_mem "/" s = false -> Str.startswith (s ++ String "." t) "/" = false.
Proof.
  destruct s as [|c s]; [reflexivity|].
  cbn [str_mem append Str.startswith]. intros H.
  apply orb_false_iff in H. destruct H as [Hc _].
  rewrite Ascii.eqb_sym in Hc. rewrite Hc. reflexivity.
Qed.

Lemma endswith_own_sep (d : string) : Str.endswith (d ++ "/") "/" = true.
Proof.
  unfold Str.endswith. rewrite length_append. cbn [String.length].
  apply andb_true_iff. split; [apply Nat.leb_le; lia|].
  replace (String.length d + 1 - 1)%nat with (String.length d) by lia.
  rewrite drop_append_exact. reflexivity.
Qed.

Lemma join2_name (d stem ext : string) :
  str_mem "/" stem = false ->
  exists pre,
    Path.join2 d (stem ++ "." ++ ext) = pre ++ "." ++ ext
    /\ Path.basename pre = stem.
Proof.
  intros Hs. unfold Path.join2.
  change (stem ++ "." ++ ext) with (stem ++ String "." ext).
  rewrite (startswith_sep_absent stem ext Hs).
  destruct (negb (Str.nonempty d) || Str.endswith d "/")%bool eqn:E.
  - exists (d ++ stem). split; [apply eq_sym, str_append_assoc|].
    apply basename_append; [exact Hs|].
    apply orb_true_iff in E. destruct E as [E|E]; [|right; exact E].
    left. destruct d; [reflexivity | discriminate].
  - exists ((d ++ "/") ++ stem). split.
    + rewrite !str_append_assoc. reflexivity.
    + apply basename_after_sep, Hs.
Qed.

Section RoundTrip.
Context {World Img : Type}.
Variable lib : Library World Img.

(** X10: for each canonical format and each input whose file name has a
    character other than a dot, the destination path that a non-recursive
    batch computes has an extension from which [get_output_format] infers
    that same format. *)
Theorem destination_resolves_to_target_format
    (input_dir output_dir input_path f : string) (s : state World Img) :
  In f canonical_formats ->
  Path.has_non_dot (Path.basename input_path) = true ->
  exists output_path,
    destination lib input_dir output_dir (format_extension f) false input_path s
    = (Ok output_path, s)
    /\ get_output_format output_path None = Ok f.
Proof.
  intros Hf Hname. eexists. split; [reflexivity|].
  destruct (splitext_stem (Path.basename input_path)
              (basename_no_sep input_path) Hname) as [Hsep Hnd].
  cbn [Path.join fold_left].
  destruct (join2_name output_dir (fst (Path.splitext (Path.basename input_path)))
              (format_extension f) Hsep) as (pre & Hj & Hb).
  rewrite Hj. rewrite <- Hb in Hnd.
  unfold canonical_formats in Hf. cbn [In] in Hf.
  repeat (destruct Hf as [<-|Hf];
          [match goal with
           | |- get_output_format (pre ++ "." ++ ?e) None = _ =>
               rewrite (get_output_format_inferred (pre ++ "." ++ e) None eq_refl),
                 (path_extension_last_dot pre e eq_refl eq_refl Hnd)
           end; reflexivity|]).
  destruct Hf.
Qed.

End RoundTrip.

Lemma saved_app {Img : Type} (a b : list (event Img)) :
  saved (a ++ b) = (saved a ++ saved b)%list.
Proof. apply flat_map_app. Qed.

Section BatchMore.
Context {World Img : Type}.
Variable lib : Library World Img.

Lemma process_image_saves
    (input_path output_path output_format : string) (quality : Z)
    (width height : option Z) (grayscale : bool) (s : state World Img) :
  exists b s' l,
    process_image lib input_path output_path output_format quality
      width height grayscale s = (Ok b, s')
    /\ saved (trace s') = (saved (trace s) ++ l)%list
    /\ (l = [] \/ exists img, l = [(img, output_path, output_format)])
    /\ (b = true -> l <> []).
Proof.
  destruct (process_image lib input_path output_path output_format quality
              width height grayscale s) as [r s'] eqn:Hrun.
  unfold_program. split_run.
  all: eexists; eexists.
  all: first
         [ exists []; split; [reflexivity|]; split;
           [ cbn [trace]; repeat rewrite saved_app; cbn [saved flat_map app];
             repeat rewrite app_nil_r; reflexivity
           | split; [left; reflexivity | intros Hb; discriminate Hb] ]
         | eexists [(_, _, _)]; split; [reflexivity|]; split;
           [ cbn [trace]; repeat rewrite saved_app; cbn [saved flat_map app];
             repeat rewrite app_nil_r; reflexivity
           | split; [right; eexists; reflexivity | intros _ Hl; discriminate Hl] ] ].
Qed.

Lemma flat_batch_loop_saves
    (input_dir output_dir output_format ext : string) (quality : Z)
    (width height : option Z) (grayscale : bool) (image_files : list string) :
  forall (success_count : Z) (s : state World Img) (n : Z) (s' : state World Img),
    batch_loop lib input_dir output_dir output_format ext quality width height
      false grayscale image_files success_count s = (Ok n, s') ->
    exists outs,
      saved (trace s') = (saved (trace s) ++ outs)%list
      /\ n - success_count <= Z.of_nat (List.length outs)
         <= Z.of_nat (List.length image_files)
      /\ Forall
           (fun t : Img * string * string =>
              snd t = output_format
              /\ exists input_path,
                  In input_path image_files
                  /\ snd (fst t)
                     = Path.join output_dir
                         [fst (Path.splitext (Path.basename input_path))
                          ++ "." ++ ext])
           outs.
Proof.
  induction image_files as [|input_path rest IH];
    intros success_count s n s' Hrun.
  - cbn [batch_loop] in Hrun. unfold ret in Hrun. inversion Hrun; subst.
    exists []. rewrite app_nil_r. cbn [List.length]. repeat split; try lia.
    constructor.
  - cbn [batch_loop] in Hrun. unfold bind, destination, ret in Hrun.
    match type of Hrun with
    | context [process_image ?a ?b ?c ?d ?e ?f ?g ?h ?st] =>
        destruct (process_image_saves b c d e f g h st)
          as (ok & s2 & l & Hp & Hs & Hl & Hok)
    end.
    rewrite Hp in Hrun. apply IH in Hrun.
    destruct Hrun as (outs & Hs' & Hn & Hall).
    exists (l ++ outs)%list. split; [rewrite Hs', Hs, app_assoc; reflexivity|].
    split.
    + rewrite length_app. cbn [List.length].
      destruct Hl as [-> | [img ->]]; cbn [List.length].
      * destruct ok; [exfalso; apply Hok; reflexivity | lia].
      * destruct ok; lia.
    + apply Forall_app. split.
      * destruct Hl as [-> | [img ->]]; constructor; [|constructor].
        cbn [fst snd]. split; [reflexivity|].
        exists input_path. split; [left; reflexivity | reflexivity].
      * eapply Forall_impl; [|exact Hall].
        intros t (Hf & input & Hin & Hp'). split; [exact Hf|].
        exists input. split; [right; exact Hin | exact Hp'].
Qed.

(** X11: in a non-recursive batch that returns [(successes, total)], every
    image handed to the encoder is handed with the target format and with
    the path [join(output_dir, stem + "." + ext)] of one of the enumerated
    files, [ext] being the extension of the target format; the number of
    such calls lies between [successes] and [total]. *)
Theorem flat_batch_outputs
    (input_dir output_dir output_format : string) (quality : Z)
    (width height : option Z) (grayscale : bool)
    (s s' : state World Img) (successes total : Z) :
  process_directory lib input_dir output_dir output_format quality width
    height false grayscale s = (Ok (successes, total), s') ->
  exists image_files s1 outs,
    find_image_files lib input_dir false s = (Ok image_files, s1)
    /\ saved (trace s') = (saved (trace s) ++ outs)%list
    /\ successes <= Z.of_nat (List.length outs) <= total
    /\ Forall
         (fun t : Img * string * string =>
            snd t = output_format
            /\ exists input_path,
                In input_path image_files
                /\ snd (fst t)
                   = Path.join output_dir
                       [fst (Path.splitext (Path.basename input_path))
                        ++ "." ++ format_extension output_format])
         outs.
Proof.
  intros Hrun. unfold process_directory, bind in Hrun.
  destruct (find_image_files lib input_dir false s)
    as [[image_files|e] s1] eqn:Hfind; [|discriminate].
  exists image_files, s1.
  destruct (find_image_files_trace lib _ _ _ _ _ Hfind) as [Hw Ht].
  assert (Hs1 : saved (trace s1) = saved (trace s)).
  { rewrite Ht, saved_app. cbn [saved flat_map app]. apply app_nil_r. }
  destruct image_files as [|f rest].
  - unfold print, ret in Hrun.
    assert (Hres : successes = 0 /\ total = 0
                   /\ saved (trace s') = saved (trace s1))
      by (inversion Hrun; cbn [trace]; rewrite saved_app;
          cbn [saved flat_map app]; rewrite app_nil_r; auto).
    destruct Hres as (-> & -> & Hs'). exists []. split; [reflexivity|].
    rewrite Hs', Hs1, app_nil_r. cbn [List.length].
    split; [reflexivity|]. split; [lia | constructor].
  - unfold makedirs, call, print, ret in Hrun. norm_run.
    destruct (os_makedirs lib output_dir (world s1)) as [[u|e] w2];
      [|discriminate].
    norm_run.
    match type of Hrun with
    | context [batch_loop ?a1 ?a2 ?a3 ?a4 ?a5 ?a6 ?a7 ?a8 ?a9 ?a10 ?l ?c ?st] =>
        destruct (batch_loop a1 a2 a3 a4 a5 a6 a7 a8 a9 a10 l c st)
          as [[n|err] s2] eqn:Hloop; [|discriminate]
    end.
    assert (Hres : successes = n
                   /\ total = Z.of_nat (List.length (f :: rest)) /\ s' = s2)
      by (inversion Hrun; auto).
    destruct Hres as (-> & -> & ->). clear Hrun.
    apply flat_batch_loop_saves in Hloop.
    destruct Hloop as (outs & Hs' & Hn & Hall). exists outs.
    cbn [trace] in Hs'. rewrite !saved_app in Hs'.
    cbn [saved flat_map app] in Hs'. rewrite !app_nil_r in Hs'.
    rewrite Hs1 in Hs'. split; [reflexivity|].
    split; [exact Hs'|]. split; [lia | exact Hall].
Qed.

(** X12: on an input directory that cannot be listed, the recursive batch
    reports that no image file was found and returns (0, 0), since [os.walk]
    swallows the error, while the non-recursive batch raises the error of
    [os.listdir]; neither creates a directory nor opens a file. *)
Theorem unlistable_directory
    (input_dir output_dir output_format : string) (quality : Z)
    (width height : option Z) (grayscale : bool) (s : state World Img)
    (e : exn) :
  fs_entries lib input_dir (world s) = Raise e ->
  process_directory lib input_dir output_dir output_format quality width
    height true grayscale s
  = (Ok (0, 0),
     mk_state (world s)
       (trace s ++ [EvWalk input_dir;
                    EvPrint (Fore.YELLOW
                             ++ "No image files found in the specified directory.")]))
  /\ process_directory lib input_dir output_dir output_format quality width
       height false grayscale s
     = (Raise e, mk_state (world s) (trace s ++ [EvListdir input_dir])).
Proof.
  intros H. unfold process_directory, find_image_files, bind, os_walk, listdir,
    call, ret, print. rewrite H. cbn [rbind world trace]. split.
  - cbn [flat_map]. cbv beta iota zeta. cbn [world trace].
    rewrite <- app_assoc. reflexivity.
  - reflexivity.
Qed.

(** X13: when files were found and the output directory cannot be created,
    [process_directory] raises that error at once: no image is opened and
    nothing is printed after the enumeration. *)
Theorem output_directory_failure
    (input_dir output_dir output_format : string) (quality : Z)
    (width height : option Z) (recursive grayscale : bool)
    (s s1 : state World Img) (f : string) (rest : list string)
    (e : exn) (w2 : World) :
  find_image_files lib input_dir recursive s = (Ok (f :: rest), s1) ->
  os_makedirs lib output_dir (world s1) = (Raise e, w2) ->
  process_directory lib input_dir output_dir output_format quality width
    height recursive grayscale s
  = (Raise e, mk_state w2 (trace s1 ++ [EvMakedirs output_dir])).
Proof.
  intros Hfind Hmk. unfold process_directory, bind. rewrite Hfind.
  unfold makedirs, call. rewrite Hmk. reflexivity.
Qed.

End BatchMore.


Lemma choice_is_lower_key (k : string) :
  dict_mem SUPPORTED_FORMATS k = true ->
  Str.nonempty k = true
  /\ exists f, dict_item SUPPORTED_FORMATS (Str.lower k) = Ok f
               /\ In f canonical_formats.
Proof.
  unfold dict_mem. intros Ht.
  destruct (dict_get SUPPORTED_FORMATS k) as [f|] eqn:Hk; [|discriminate].
  pose proof (dict_get_canonical _ _ Hk) as Hc.
  apply dict_get_In in Hk. unfold SUPPORTED_FORMATS in Hk.
  repeat (destruct Hk as [Hk|Hk];
          [inversion Hk; subst; split; [reflexivity|];
           eexists; split; [reflexivity | exact Hc]|]).
  destruct Hk.
Qed.

Section MainFacts.
Context {World Img : Type}.
Variable lib : Library World Img.
Variable osp : OsPath World.


(** X15: when [--input] is absent or empty, [main] takes the directory
    branch.  Without [--directory] it raises [TypeError]; for a path that is
    not a directory, and for a directory without [--type], it prints one
    error and returns, with no file-system work.  With a [--type] among the
    choices the table lookup cannot fail; [process_directory] is run with
    the canonical format, before which nothing was opened or created; an
    error it raises is raised by [main], and counts it returns are reported
    in the last line printed: the no-files line for a total of 0, the
    completion line otherwise. *)
Theorem directory_mode
    (args : Namespace) (s : state World Img) :
  truthy_str (arg_input args) = false ->
  type_in_choices (arg_type args) = true ->
  (arg_directory args = None ->
   exists e, main_dispatch lib osp args s = (Raise e, s)
             /\ exn_class e = "TypeError")
  /\ (forall directory,
         arg_directory args = Some directory ->
         (os_path_isdir osp directory (world s) = false ->
          main_dispatch lib osp args s
          = (Ok Returned,
             mk_state (world s)
               (trace s ++ [EvPrint (Fore.RED
                  ++ "Error: The specified input directory does not exist.")])))
         /\ (os_path_isdir osp directory (world s) = true ->
             arg_type args = None ->
             main_dispatch lib osp args s
             = (Ok Returned,
                mk_state (world s)
                  (trace s ++ [EvPrint (Fore.RED
                     ++ "Error: Output format must be specified (-t/--type) when processing a directory.")])))
         /\ (os_path_isdir osp directory (world s) = true ->
             forall k, arg_type args = Some k ->
             exists f s0,
               dict_get SUPPORTED_FORMATS k = Some f
               /\ In f canonical_formats
               /\ world s0 = world s
               /\ opened (trace s0) = opened (trace s)
               /\ made_dirs (trace s0) = made_dirs (trace s)
               /\ match process_directory lib directory (arg_output args) f
                          (arg_quality args) (arg_width args) (arg_height args)
                          (arg_recursive args) (arg_grayscale args) s0 with
                  | (Ok (successes, total), s1) =>
                      exists s',
                        main_dispatch lib osp args s = (Ok Completed, s')
                        /\ world s' = world s1
                        /\ last (printed (trace s')) ""
                           = if total =? 0
                             then Fore.YELLOW
                                  ++ "No image files found in the specified directory."
                             else Fore.GREEN ++ "Processing completed: "
                                  ++ Fore.WHITE ++ Str.of_Z successes ++ "/"
                                  ++ Str.of_Z total
                                  ++ " images successfully converted."
                  | (Raise e, s1) =>
                      main_dispatch lib osp args s = (Raise e, s1)
                  end)).
Proof.
  intros Hin Hty.
  assert (Hd : main_dispatch lib osp args s = main_directory lib osp args s).
  { unfold main_dispatch. destruct (arg_input args) as [i|]; [|reflexivity].
    cbn [truthy_str] in Hin. rewrite Hin. reflexivity. }
  rewrite Hd. unfold main_directory. split.
  - intros Hnone. rewrite Hnone. eexists. split; reflexivity.
  - intros directory Hdir. rewrite Hdir. unfold bind, isdir.
    split; [|split].
    + intros Hf. rewrite Hf. reflexivity.
    + intros Hf Hnone. rewrite Hf, Hnone. reflexivity.
    + intros Hf k Hk. rewrite Hf, Hk. cbn [negb].
      rewrite Hk in Hty. cbn [type_in_choices] in Hty.
      destruct (choice_is_lower_key k Hty) as (Hne & f & Hitem & Hc).
      rewrite Hne, Hitem. unfold lift, print, ret. norm_run.
      assert (Hget : dict_get SUPPORTED_FORMATS k = Some f).
      { unfold dict_mem in Hty.
        destruct (dict_get SUPPORTED_FORMATS k) as [f'|] eqn:Hk'; [|discriminate].
        apply dict_get_In in Hk'. unfold SUPPORTED_FORMATS in Hk'.
        repeat (destruct Hk' as [Hk'|Hk'];
                [inversion Hk'; subst; cbn in Hitem; inversion Hitem;
                 reflexivity|]).
        destruct Hk'. }
      match goal with
      | |- context [process_directory _ _ _ _ _ _ _ _ _ (mk_state ?w ?t)] =>
          exists f, (mk_state w t)
      end.
      split; [exact Hget|]. split; [exact Hc|].
      match goal with
      | |- context [process_directory ?a1 ?a2 ?a3 ?a4 ?a5 ?a6 ?a7 ?a8 ?a9 ?st] =>
          assert (world st = world s /\ opened (trace st) = opened (trace s)
                  /\ made_dirs (trace st) = made_dirs (trace s)) as (Hw & Ho & Hm);
          [|split; [exact Hw|]; split; [exact Ho|]; split; [exact Hm|];
            destruct (process_directory a1 a2 a3 a4 a5 a6 a7 a8 a9 st)
              as [[[successes total]|err] s1]]
      end.
      * cbn [world trace]. unfold opened, made_dirs. rewrite !flat_map_app.
        cbn [flat_map app]. rewrite !app_nil_r. auto.
      * cbn [fst snd]. unfold report_directory.
        destruct (total =? 0); unfold print; eexists;
          (split; [reflexivity|]); cbn [world trace];
          (split; [reflexivity|]); rewrite printed_app; apply last_last.
      * reflexivity.
Qed.

End MainFacts.

(** ** Mirrored destinations in recursive mode *)

Lemma plain_name_facts (name : string) :
  plain_name name = true ->
  Str.nonempty name = true /\ str_mem "/" name = false
  /\ String.eqb name "" = false /\ String.eqb name "." = false
  /\ String.eqb name ".." = false.
Proof.
  unfold plain_name. intros H.
  apply andb_true_iff in H. destruct H as [H H4].
  apply andb_true_iff in H. destruct H as [H H3].
  apply andb_true_iff in H. destruct H as [H1 H2].
  apply negb_true_iff in H2, H3, H4.
  repeat split; try assumption.
  destruct name; [discriminate | reflexivity].
Qed.

Lemma split_aux_sep (c : ascii) (x y cur : string) :
  Str.split_aux c (x ++ String c y) cur
  = (Str.split_aux c x cur ++ Str.split_aux c y "")%list.
Proof.
  revert cur. induction x as [|a x IH]; intros cur; cbn [append Str.split_aux].
  - rewrite Ascii.eqb_refl. reflexivity.
  - destruct (Ascii.eqb a c); [rewrite IH; reflexivity | apply IH].
Qed.

Lemma split_aux_absent (c : ascii) (s cur : string) :
  str_mem c s = false -> Str.split_aux c s cur = [cur ++ s].
Proof.
  revert cur. induction s as [|a s IH]; intros cur H; cbn [Str.split_aux str_mem] in *.
  - assert (E : cur ++ "" = cur) by (clear; induction cur as [|x cur IH]; cbn; [reflexivity | now rewrite IH]).
    now rewrite E.
  - apply orb_false_iff in H. destruct H as [Ha Hs]. rewrite Ha, (IH _ Hs).
    rewrite str_append_assoc. reflexivity.
Qed.

Lemma split_sep (x y : string) :
  Str.split (x ++ String "/" y) "/" = (Str.split x "/" ++ Str.split y "/")%list.
Proof. apply split_aux_sep. Qed.

Lemma split_plain (name : string) :
  str_mem "/" name = false -> Str.split name "/" = [name].
Proof. intros H. unfold Str.split. rewrite split_aux_absent by exact H. reflexivity. Qed.

Lemma norm_comps_app (init : bool) (comps rest acc : list string) :
  Path.norm_comps init (comps ++ rest) acc
  = Path.norm_comps init rest (Path.norm_comps init comps acc).
Proof.
  revert acc. induction comps as [|c comps IH]; intros acc; cbn [app Path.norm_comps].
  - reflexivity.
  - destruct (String.eqb c "" || String.eqb c ".")%bool; [apply IH|].
    match goal with |- context [if ?b then _ else _] => destruct b end; apply IH.
Qed.

Lemma norm_comps_plain (init : bool) (name : string) (acc : list string) :
  plain_name name = true ->
  Path.norm_comps init [name] acc = (acc ++ [name])%list.
Proof.
  intros H. destruct (plain_name_facts name H) as (_ & _ & H0 & H1 & H2).
  cbn [Path.norm_comps]. rewrite H0, H1, H2. reflexivity.
Qed.

Lemma norm_comps_empty (init : bool) (acc : list string) :
  Path.norm_comps init [""] acc = acc.
Proof. reflexivity. Qed.

Lemma endswith_sep_cases (q : string) :
  q = "" \/ (exists q0, q = q0 ++ "/" /\ Str.endswith q "/" = true)
  \/ (q <> "" /\ Str.endswith q "/" = false).
Proof.
  destruct q as [|c q]; [left; reflexivity|]. right.
  destruct (Str.endswith (String c q) "/") eqn:E.
  - left. destruct (endswith_split _ _ E) as [q0 Hq]. exists q0. auto.
  - right. split; [discriminate | reflexivity].
Qed.

Lemma plain_not_abs (name : string) :
  plain_name name = true -> Str.startswith name "/" = false.
Proof.
  intros H. destruct (plain_name_facts name H) as (_ & Hs & _).
  destruct name as [|c n]; [reflexivity|]. cbn [str_mem] in Hs.
  apply orb_false_iff in Hs. destruct Hs as [Hc _].
  cbn [Str.startswith]. rewrite Ascii.eqb_sym, Hc. reflexivity.
Qed.

Lemma norm_of_join2 (q name : string) :
  plain_name name = true ->
  norm_of (Path.join2 q name) = (norm_of q ++ [name])%list.
Proof.
  intros H. destruct (plain_name_facts name H) as (_ & Hs & _).
  unfold norm_of, Path.join2. rewrite (plain_not_abs name H).
  destruct (endswith_sep_cases q) as [-> | [(q0 & -> & E) | (Hne & E)]].
  - cbn [Str.nonempty negb orb append]. rewrite (split_plain name Hs).
    change (Str.split "" "/") with [""]. cbn [Path.norm_comps String.eqb orb].
    apply (norm_comps_plain true name [] H).
  - rewrite E, orb_true_r. rewrite str_append_assoc. cbn [append].
    rewrite !split_sep, (split_plain name Hs).
    change (Str.split "" "/") with [""].
    rewrite !norm_comps_app, norm_comps_empty. apply norm_comps_plain, H.
  - rewrite E. assert (Hn : Str.nonempty q = true) by (destruct q; [congruence | reflexivity]).
    rewrite Hn. cbn [negb orb]. change ("/" ++ name) with (String "/" name).
    rewrite split_sep, (split_plain name Hs), norm_comps_app.
    apply norm_comps_plain, H.
Qed.

Lemma split_aux_no_sep (c : ascii) (s cur : string) :
  str_mem c cur = false ->
  Forall (fun x => str_mem c x = false) (Str.split_aux c s cur).
Proof.
  revert cur. induction s as [|a s IH]; intros cur H; cbn [Str.split_aux].
  - constructor; [exact H | constructor].
  - destruct (Ascii.eqb a c) eqn:E.
    + constructor; [exact H | apply IH; reflexivity].
    + apply IH. rewrite str_mem_append, H. cbn [str_mem]. rewrite E. reflexivity.
Qed.

Lemma Forall_removelast {A : Type} (P : A -> Prop) (l : list A) :
  Forall P l -> Forall P (removelast l).
Proof.
  induction 1 as [|x l Hx Hl IH]; cbn [removelast]; [constructor|].
  destruct l; [constructor | constructor; assumption].
Qed.

Lemma norm_comps_components (init : bool) (comps acc : list string) :
  Forall (fun x => str_mem "/" x = false) comps ->
  Forall (fun x => is_component x = true) acc ->
  Forall (fun x => is_component x = true) (Path.norm_comps init comps acc).
Proof.
  intros Hc. revert acc. induction Hc as [|c comps Hx Hc IH]; intros acc Ha;
    cbn [Path.norm_comps]; [exact Ha|].
  destruct (String.eqb c "" || String.eqb c ".")%bool eqn:E; [apply IH, Ha|].
  match goal with |- context [if ?b then _ else _] => destruct b end.
  - apply IH. apply Forall_app. split; [exact Ha|].
    constructor; [|constructor]. unfold is_component. rewrite Hx.
    destruct c; [discriminate E | reflexivity].
  - apply IH, Forall_removelast, Ha.
Qed.

Lemma split_concat (l : list string) :
  Forall (fun x => is_component x = true) l ->
  filter Str.nonempty (Str.split (Str.join "/" l) "/") = l.
Proof.
  unfold Str.join. induction 1 as [|x l Hx Hl IH]; [reflexivity|].
  apply andb_true_iff in Hx. destruct Hx as [Hn Hs]. apply negb_true_iff in Hs.
  destruct l as [|y l].
  - cbn [String.concat]. rewrite (split_plain x Hs). cbn [filter]. now rewrite Hn.
  - change (String.concat "/" (x :: y :: l))
      with (x ++ String "/" (String.concat "/" (y :: l))).
    rewrite split_sep, (split_plain x Hs), filter_app, IH. cbn [filter app].
    now rewrite Hn.
Qed.

Lemma components_normpath (path : string) :
  Path.isabs path = true ->
  Path.components (Path.normpath path) = norm_of path.
Proof.
  unfold Path.isabs, Path.normpath, Path.components, norm_of. intros Habs.
  rewrite Habs. assert (E : String.eqb path "" = false) by (destruct path; [discriminate Habs | reflexivity]).
  rewrite E.
  assert (Hc : Forall (fun x => is_component x = true)
                 (Path.norm_comps true (Str.split path Path.sep) [])).
  { apply norm_comps_components; [|constructor].
    apply split_aux_no_sep. reflexivity. }
  destruct (Str.startswith path "//" && negb (Str.startswith path "///"))%bool;
    cbn [Nat.eqb negb].
  - change ("//" ++ ?x) with (String "/" (String "/" x)). cbn [Str.nonempty].
    change (Str.split (String "/" (String "/" ?x)) Path.sep)
      with ("" :: "" :: Str.split x "/").
    cbn [filter Str.nonempty]. apply split_concat, Hc.
  - change ("/" ++ ?x) with (String "/" x). cbn [Str.nonempty].
    change (Str.split (String "/" ?x) Path.sep) with ("" :: Str.split x "/").
    cbn [filter Str.nonempty]. apply split_concat, Hc.
Qed.

Lemma endswith_sep_append (a b : string) :
  Str.nonempty b = true ->
  Str.endswith (a ++ b) "/" = Str.endswith b "/".
Proof.
  intros Hb. unfold Str.endswith. rewrite length_append.
  assert (Hl : (1 <= String.length b)%nat) by (destruct b; [discriminate | cbn; lia]).
  change (String.length "/") with 1%nat.
  replace (String.length a + String.length b - 1)%nat
    with (String.length a + (String.length b - 1))%nat by lia.
  rewrite drop_append. f_equal.
  destruct (Nat.leb_spec 1 (String.length a + String.length b));
    destruct (Nat.leb_spec 1 (String.length b)); try reflexivity; lia.
Qed.

Lemma nonempty_append_r (a b : string) :
  Str.nonempty b = true -> Str.nonempty (a ++ b) = true.
Proof. destruct a; [trivial | reflexivity]. Qed.

Lemma startswith_sep_append (a b : string) :
  Str.nonempty a = true ->
  Str.startswith (a ++ b) "/" = Str.startswith a "/".
Proof. destruct a; [discriminate | reflexivity]. Qed.

Lemma str_append_empty (a : string) : a ++ "" = a.
Proof. induction a as [|x a IH]; cbn [append]; [reflexivity | now rewrite IH]. Qed.

Lemma join2_relative (a b : string) :
  Str.startswith b "/" = false ->
  exists s, (s = "" \/ s = "/") /\ Path.join2 a b = a ++ s ++ b
            /\ (forall b', Str.startswith b' "/" = false ->
                           Path.join2 a b' = a ++ s ++ b').
Proof.
  intros Hb. unfold Path.join2. rewrite Hb.
  destruct (negb (Str.nonempty a) || Str.endswith a "/")%bool eqn:E.
  - exists "". split; [now left|]. split; [reflexivity|].
    intros b' Hb'. now rewrite Hb'.
  - exists "/". split; [now right|]. split; [reflexivity|].
    intros b' Hb'. now rewrite Hb'.
Qed.

Lemma join2_onto (q c : string) :
  Str.nonempty q = true -> Str.startswith c "/" = false ->
  Path.join2 q c = q ++ (if Str.endswith q "/" then "" else "/") ++ c.
Proof.
  intros Hq Hc. unfold Path.join2. rewrite Hc, Hq. cbn [negb orb].
  destruct (Str.endswith q "/"); reflexivity.
Qed.

Lemma join2_assoc (a b c : string) :
  Str.startswith b "/" = false -> Str.startswith c "/" = false ->
  Path.join2 a (Path.join2 b c) = Path.join2 (Path.join2 a b) c.
Proof.
  intros Hb Hc. destruct b as [|x b].
  - change (Path.join2 "" c) with (if Str.startswith c "/" then c else c).
    rewrite Hc. unfold Path.join2. rewrite Hc. cbn [Str.startswith].
    destruct a as [|y a]; [reflexivity|]. cbn [Str.nonempty negb orb].
    destruct (Str.endswith (String y a) "/") eqn:E.
    + rewrite str_append_empty. cbn [Str.nonempty negb orb]. now rewrite E.
    + rewrite <- str_append_assoc.
      rewrite (nonempty_append_r _ "/" eq_refl).
      change (String y a ++ "/" ++ "") with (String y a ++ "/").
      rewrite endswith_own_sep. cbn [negb orb].
      now rewrite str_append_assoc.
  - destruct (join2_relative a (String x b) Hb) as (sa & _ & Ea & Ea').
    rewrite (join2_onto (String x b) c eq_refl Hc).
    rewrite Ea' by exact Hb. rewrite Ea.
    assert (Hn : Str.nonempty (a ++ sa ++ String x b) = true).
    { rewrite <- str_append_assoc. apply nonempty_append_r. reflexivity. }
    rewrite (join2_onto _ c Hn Hc).
    assert (He : Str.endswith (a ++ sa ++ String x b) "/"
                 = Str.endswith (String x b) "/").
    { rewrite <- str_append_assoc. apply endswith_sep_append. reflexivity. }
    rewrite He. now rewrite !str_append_assoc.
Qed.

Section Absolute.
Variable cwd : string.
Hypothesis cwd_abs : Path.isabs cwd = true.

Lemma abspath_anchored (p : string) :
  Path.abspath cwd p = Path.normpath (anchored cwd p).
Proof. reflexivity. Qed.

Lemma anchored_abs (p : string) : Path.isabs (anchored cwd p) = true.
Proof.
  unfold anchored. destruct (Path.isabs p) eqn:E; [exact E|].
  unfold Path.isabs in *. unfold Path.join2. rewrite E.
  assert (Hn : Str.nonempty cwd = true) by (destruct cwd; [discriminate cwd_abs | reflexivity]).
  destruct (negb (Str.nonempty cwd) || Str.endswith cwd "/")%bool;
    rewrite startswith_sep_append by exact Hn; exact cwd_abs.
Qed.

Lemma anchored_join2 (root name : string) :
  plain_name name = true ->
  anchored cwd (Path.join2 root name) = Path.join2 (anchored cwd root) name.
Proof.
  intros H. pose proof (plain_not_abs name H) as Hn.
  unfold anchored, Path.isabs.
  destruct (join2_relative root name Hn) as (s & Hs & E & _).
  destruct (Str.startswith root "/") eqn:Er.
  - assert (Hr : Str.nonempty root = true) by (destruct root; [discriminate Er | reflexivity]).
    rewrite E, startswith_sep_append by exact Hr. now rewrite Er.
  - assert (Hj : Str.startswith (Path.join2 root name) "/" = false).
    { destruct root as [|x r].
      - unfold Path.join2. rewrite Hn. exact Hn.
      - rewrite E. exact Er. }
    rewrite Hj. apply join2_assoc; assumption.
Qed.

Lemma components_abspath_join2 (root name : string) :
  plain_name name = true ->
  Path.components (Path.abspath cwd (Path.join2 root name))
  = (Path.components (Path.abspath cwd root) ++ [name])%list.
Proof.
  intros H. rewrite !abspath_anchored, !components_normpath by apply anchored_abs.
  rewrite anchored_join2 by exact H. apply norm_of_join2, H.
Qed.

Lemma components_abspath_join (root : string) (ds : list string) :
  Forall (fun d => plain_name d = true) ds ->
  Path.components (Path.abspath cwd (Path.join root ds))
  = (Path.components (Path.abspath cwd root) ++ ds)%list.
Proof.
  intros H. revert root. induction H as [|d ds Hd Hds IH]; intros root.
  - now rewrite app_nil_r.
  - change (Path.join root (d :: ds)) with (Path.join (Path.join2 root d) ds).
    rewrite IH, components_abspath_join2 by exact Hd.
    now rewrite <- app_assoc.
Qed.

End Absolute.

Lemma common_len_prefix (l rest : list string) :
  Path.common_len l (l ++ rest) = List.length l.
Proof.
  induction l as [|a l IH]; cbn [Path.common_len app List.length].
  - destruct rest; reflexivity.
  - now rewrite String.eqb_refl, IH.
Qed.

Lemma skipn_prefix {A : Type} (l rest : list A) :
  skipn (List.length l) (l ++ rest) = rest.
Proof. induction l as [|a l IH]; [reflexivity | exact IH]. Qed.

Lemma join2_plain_nonempty (q name : string) :
  plain_name name = true -> Str.nonempty (Path.join2 q name) = true.
Proof.
  intros H. destruct (plain_name_facts name H) as (Hn & _).
  destruct (join2_relative q name (plain_not_abs name H)) as (s & _ & E & _).
  rewrite E, <- str_append_assoc. apply nonempty_append_r, Hn.
Qed.

Lemma join_snoc (a : string) (p : list string) (b : string) :
  Path.join a (p ++ [b]) = Path.join2 (Path.join a p) b.
Proof. unfold Path.join. now rewrite fold_left_app. Qed.

Lemma relpath_below (cwd input_dir : string) (ds : list string) (name : string) :
  Path.isabs cwd = true ->
  Forall (fun d => plain_name d = true) ds ->
  plain_name name = true ->
  Path.relpath cwd (Path.join input_dir (ds ++ [name])) input_dir
  = Ok (match ds with
        | [] => name
        | d :: ds' => Path.join2 (Path.join d ds') name
        end).
Proof.
  intros Hcwd Hds Hname. unfold Path.relpath.
  rewrite join_snoc at 1. rewrite join2_plain_nonempty by exact Hname.
  cbn [negb].
  assert (Hall : Forall (fun d => plain_name d = true) (ds ++ [name]))
    by (apply Forall_app; split; [exact Hds | repeat constructor; exact Hname]).
  rewrite (components_abspath_join cwd Hcwd input_dir (ds ++ [name]) Hall).
  rewrite common_len_prefix, Nat.sub_diag, skipn_prefix. cbn [repeat app].
  destruct ds as [|d ds']; [reflexivity|].
  cbn [app]. now rewrite join_snoc.
Qed.

Lemma plain_ends_plain (name : string) :
  plain_name name = true -> ends_plain name.
Proof.
  intros H. destruct (plain_name_facts name H) as (Hn & Hs & _). clear H.
  induction name as [|c name IH]; [discriminate Hn|].
  cbn [str_mem] in Hs. apply orb_false_iff in Hs. destruct Hs as [Hc Hs].
  destruct name as [|c' name].
  - exists "", c. auto.
  - destruct (IH eq_refl Hs) as (s0 & x & E & Hx).
    exists (String c s0), x. cbn [append]. now rewrite <- E.
Qed.

Lemma ends_plain_append (a b : string) : ends_plain b -> ends_plain (a ++ b).
Proof.
  intros (s0 & x & E & Hx). exists (a ++ s0), x. subst b.
  now rewrite str_append_assoc.
Qed.

Lemma ends_plain_not_endswith (s : string) :
  ends_plain s -> Str.nonempty s = true /\ Str.endswith s "/" = false.
Proof.
  intros (s0 & x & -> & Hx). split.
  - apply nonempty_append_r. reflexivity.
  - rewrite endswith_sep_append by reflexivity.
    unfold Str.endswith. cbn. rewrite Hx. reflexivity.
Qed.

Lemma join2_ends_plain (q name : string) :
  ends_plain q -> plain_name name = true ->
  Path.join2 q name = q ++ "/" ++ name /\ ends_plain (Path.join2 q name).
Proof.
  intros Hq H. destruct (ends_plain_not_endswith q Hq) as [Hn He].
  assert (E : Path.join2 q name = q ++ "/" ++ name).
  { rewrite (join2_onto q name Hn (plain_not_abs name H)). now rewrite He. }
  split; [exact E|]. rewrite E, <- str_append_assoc.
  apply ends_plain_append, plain_ends_plain, H.
Qed.

Lemma join_ends_plain (q : string) (ds : list string) :
  ends_plain q -> Forall (fun d => plain_name d = true) ds ->
  ends_plain (Path.join q ds).
Proof.
  intros Hq H. revert q Hq. induction H as [|d ds Hd Hds IH]; intros q Hq.
  - exact Hq.
  - change (Path.join q (d :: ds)) with (Path.join (Path.join2 q d) ds).
    apply IH. apply (join2_ends_plain q d Hq Hd).
Qed.

Lemma rstrip_keep (c x : ascii) (s t : string) :
  Ascii.eqb x c = false ->
  Str.rstrip c (s ++ String x t) = s ++ String x (Str.rstrip c t).
Proof.
  intros Hx. induction s as [|a s IH]; cbn [append Str.rstrip].
  - rewrite Hx. destruct (Str.rstrip c t); reflexivity.
  - cbn [Str.rstrip] in IH. rewrite IH.
    destruct s; reflexivity.
Qed.

Lemma all_char_append (c : ascii) (a b : string) :
  Str.all_char c (a ++ b) = (Str.all_char c a && Str.all_char c b)%bool.
Proof.
  induction a as [|x a IH]; cbn [append Str.all_char]; [reflexivity|].
  now rewrite IH, andb_assoc.
Qed.

Lemma dirname_plain (name : string) :
  str_mem "/" name = false -> Path.dirname name = "".
Proof.
  intros H. unfold Path.dirname, Path.sep. rewrite (rfind_absent _ _ H).
  change (Z.to_nat (-1 + 1)) with 0%nat. destruct name; reflexivity.
Qed.

Lemma dirname_below (q name : string) :
  ends_plain q -> str_mem "/" name = false ->
  Path.dirname (q ++ "/" ++ name) = q.
Proof.
  intros (s0 & x & -> & Hx) Hs. unfold Path.dirname, Path.sep.
  change ("/" ++ name) with (String "/" name).
  rewrite (rfind_last _ _ _ Hs).
  replace (Z.to_nat (Z.of_nat (String.length (s0 ++ String x "")) + 1))
    with (String.length ((s0 ++ String x "") ++ "/"))
    by (rewrite !length_append; cbn [String.length]; lia).
  change (String "/" name) with ("/" ++ name).
  rewrite <- str_append_assoc, take_append.
  rewrite (nonempty_append_r _ "/" eq_refl).
  rewrite !all_char_append. cbn [Str.all_char]. rewrite Hx.
  rewrite andb_false_r. cbn [andb negb].
  rewrite str_append_assoc. cbn [append].
  rewrite (rstrip_keep "/" x s0 "/" Hx). reflexivity.
Qed.

Lemma join_plain_concat (q : string) (ds : list string) :
  ends_plain q -> Forall (fun d => plain_name d = true) ds ->
  Path.join q ds = Str.join "/" (q :: ds).
Proof.
  intros Hq H. revert q Hq. unfold Str.join.
  induction H as [|d ds Hd Hds IH]; intros q Hq; [reflexivity|].
  change (Path.join q (d :: ds)) with (Path.join (Path.join2 q d) ds).
  destruct (join2_ends_plain q d Hq Hd) as [E He].
  rewrite (IH _ He), E. destruct ds; cbn [String.concat].
  - reflexivity.
  - now rewrite !str_append_assoc.
Qed.

Lemma basename_join2 (q name : string) :
  plain_name name = true -> Path.basename (Path.join2 q name) = name.
Proof.
  intros H. destruct (plain_name_facts name H) as (_ & Hs & _).
  unfold Path.join2. rewrite (plain_not_abs name H).
  destruct (endswith_sep_cases q) as [-> | [(q0 & -> & E) | (Hne & E)]].
  - cbn [Str.nonempty negb orb append]. apply basename_plain, Hs.
  - rewrite E, orb_true_r. apply basename_after_sep, Hs.
  - rewrite E. assert (Hn : Str.nonempty q = true) by (destruct q; [congruence | reflexivity]).
    rewrite Hn. cbn [negb orb]. rewrite <- str_append_assoc.
    apply basename_after_sep, Hs.
Qed.

Section Mirror.
Context {World Img : Type}.
Variable lib : Library World Img.

(** X16: in recursive mode, with an absolute working directory, the file
    [name] found in the chain of sub-directories [ds] below [input_dir] gets
    the destination [output_dir/d1/.../dk/stem.ext]: directly in [output_dir]
    and without any call when the chain is empty, and otherwise after one
    [os.makedirs] of [output_dir/d1/.../dk], whose error, if any, is the
    result. *)
Theorem recursive_destination_mirrors_subdirectories
    (input_dir output_dir ext : string) (ds : list string) (name : string)
    (s : state World Img) :
  Path.isabs (os_getcwd lib (world s)) = true ->
  Forall (fun d => plain_name d = true) ds ->
  plain_name name = true ->
  let filename := fst (Path.splitext name) ++ "." ++ ext in
  destination lib input_dir output_dir ext true
    (Path.join input_dir (ds ++ [name])) s
  = match ds with
    | [] => (Ok (Path.join output_dir [filename]), s)
    | _ :: _ =>
        let rel_dir := Str.join "/" ds in
        let (r, w) := os_makedirs lib (Path.join output_dir [rel_dir]) (world s) in
        (rbind r (fun _ => Ok (Path.join output_dir [rel_dir; filename])),
         mk_state w (trace s ++ [EvMakedirs (Path.join output_dir [rel_dir])]))
    end.
Proof.
  intros Hcwd Hds Hname filename. subst filename.
  destruct (plain_name_facts name Hname) as (_ & Hsep & _).
  unfold destination, bind, getcwd, lift, ret.
  rewrite (relpath_below _ input_dir ds name Hcwd Hds Hname).
  rewrite join_snoc, (basename_join2 _ name Hname).
  destruct ds as [|d ds'].
  - rewrite (dirname_plain name Hsep). reflexivity.
  - inversion Hds as [|? ? Hd Hds']; subst.
    pose proof (join_ends_plain d ds' (plain_ends_plain d Hd) Hds') as Hq.
    destruct (join2_ends_plain _ name Hq Hname) as [E _].
    rewrite E, (dirname_below _ name Hq Hsep).
    rewrite (join_plain_concat d ds' (plain_ends_plain d Hd) Hds').
    destruct (ends_plain_not_endswith _ Hq) as [Hn _].
    rewrite (join_plain_concat d ds' (plain_ends_plain d Hd) Hds') in Hn.
    rewrite Hn. unfold makedirs, call.
    destruct (os_makedirs lib _ (world s)) as [[[]|e] w]; reflexivity.
Qed.

End Mirror.

Lemma plain_tree_In (entries : list node) (n : node) :
  forallb plain_tree entries = true -> In n entries -> plain_tree n = true.
Proof. intros H Hin. rewrite forallb_forall in H. apply H, Hin. Qed.

Lemma join_cons (top d : string) (ds : list string) :
  Path.join top (d :: ds) = Path.join (Path.join top [d]) ds.
Proof. reflexivity. Qed.

Lemma file_at_reaches (top : string) (entries : list node) (root name : string) :
  file_at top entries root name <->
  exists ds below,
    reaches entries ds below /\ In (File name) below
    /\ root = Path.join top ds.
Proof.
  split.
  - induction 1 as [top entries name Hin
                   | top entries d children root name Hin Hat IH].
    + exists [], entries. split; [constructor|]. split; [exact Hin | reflexivity].
    + destruct IH as (ds & below & Hr & Hf & Hroot).
      exists (d :: ds), below. split; [econstructor; eassumption|].
      split; [exact Hf|]. rewrite join_cons. exact Hroot.
  - intros (ds & below & Hr & Hf & Hroot). subst root. revert top.
    induction Hr as [entries | entries d children ds below Hin Hr IH]; intros top.
    + apply file_here. exact Hf.
    + rewrite join_cons. eapply file_below; [exact Hin|]. apply IH. exact Hf.
Qed.

Lemma reaches_plain (entries : list node) (ds : list string) (below : list node) :
  reaches entries ds below ->
  forallb plain_tree entries = true ->
  Forall (fun d => plain_name d = true) ds /\ forallb plain_tree below = true.
Proof.
  induction 1 as [entries | entries d children ds below Hin Hr IH]; intros Hp.
  - split; [constructor | exact Hp].
  - pose proof (plain_tree_In entries _ Hp Hin) as Hd.
    cbn [plain_tree] in Hd. apply andb_true_iff in Hd. destruct Hd as [Hd Hch].
    destruct (IH Hch) as [Hds Hb]. split; [constructor; assumption | exact Hb].
Qed.

Section Tree.
Context {World Img : Type}.
Variable lib : Library World Img.

(** X17: the recursive enumeration of a directory that can be listed yields
    exactly the paths [join(directory, d1, ..., dk, name)] of the regular
    files [name] with a supported extension that a chain [d1, ..., dk] of
    nested sub-directories of the tree leads to (the empty chain for the
    directory itself), and lists the directory once.  In a tree whose
    entries have plain names the chain and the name are plain, which is what
    the mirrored destination of recursive mode asks of them. *)
Theorem recursive_enumeration_follows_the_tree
    (directory : string) (s : state World Img) (entries : list node) :
  fs_entries lib directory (world s) = Ok entries ->
  exists files,
    find_image_files lib directory true s
    = (Ok files, mk_state (world s) (trace s ++ [EvWalk directory]))
    /\ (forall p,
           In p files <->
           exists ds below name,
             reaches entries ds below /\ In (File name) below
             /\ has_image_extension name = true
             /\ p = Path.join directory (ds ++ [name]))
    /\ (forallb plain_tree entries = true ->
        forall ds below name,
          reaches entries ds below -> In (File name) below ->
          Forall (fun d => plain_name d = true) ds /\ plain_name name = true).
Proof.
  intros Hent.
  unfold find_image_files, bind, os_walk, call, ret. rewrite Hent.
  eexists. split; [reflexivity|]. split.
  - intros p. rewrite in_flat_map. split.
    + intros ([[root ds0] fs] & Hw & Hp). apply in_map_iff in Hp.
      destruct Hp as (f & Hp & Hf). apply filter_In in Hf. destruct Hf as [Hf Hext].
      pose proof (walk_sound _ _ _ _ _ _ Hw Hf) as Hat.
      apply file_at_reaches in Hat. destruct Hat as (ds & below & Hr & Hfile & Hroot).
      exists ds, below, f. split; [exact Hr|]. split; [exact Hfile|].
      split; [exact Hext|]. rewrite join_snoc, <- Hroot. symmetry. exact Hp.
    + intros (ds & below & name & Hr & Hfile & Hext & Hp).
      assert (Hat : file_at directory entries (Path.join directory ds) name).
      { apply file_at_reaches. exists ds, below. auto. }
      apply walk_complete in Hat. destruct Hat as (ds0 & fs & Hw & Hn).
      exists (Path.join directory ds, ds0, fs). split; [exact Hw|].
      apply in_map_iff. exists name. split; [|apply filter_In; auto].
      rewrite Hp, join_snoc. reflexivity.
  - intros Hplain ds below name Hr Hfile.
    destruct (reaches_plain entries ds below Hr Hplain) as [Hds Hb].
    split; [exact Hds|]. exact (plain_tree_In below (File name) Hb Hfile).
Qed.

End Tree.

(** ** The test images of [example.py] *)

Lemma made_dirs_app {Img : Type} (a b : list (event Img)) :
  made_dirs (a ++ b) = (made_dirs a ++ made_dirs b)%list.
Proof. apply flat_map_app. Qed.

Lemma uint_no_sep (d : Decimal.uint) :
  str_mem "/" (NilEmpty.string_of_uint d) = false.
Proof. induction d; cbn [NilEmpty.string_of_uint str_mem]; try reflexivity; exact IHd. Qed.

Lemma of_Z_no_sep (n : Z) : str_mem "/" (Str.of_Z n) = false.
Proof.
  unfold Str.of_Z, NilZero.string_of_int, NilZero.string_of_uint.
  destruct (Z.to_int n) as [d|d]; destruct d; try reflexivity;
    cbn [str_mem]; apply (uint_no_sep).
Qed.

Lemma formats_are_aliases (ext format : string) :
  In (ext, format) formats ->
  has_image_extension ("." ++ ext) = true
  /\ str_mem "." ext = false /\ str_mem "/" ext = false
  /\ dict_get SUPPORTED_FORMATS (Str.lower ext) = Some format.
Proof.
  intros Hin.
  assert (H : forallb (fun p : string * string =>
                (has_image_extension ("." ++ fst p)
                 && negb (str_mem "." (fst p)) && negb (str_mem "/" (fst p))
                 && match dict_get SUPPORTED_FORMATS (Str.lower (fst p)) with
                    | Some f => String.eqb f (snd p)
                    | None => false
                    end)%bool) formats = true) by reflexivity.
  rewrite forallb_forall in H. specialize (H _ Hin). cbn [fst snd] in H.
  apply andb_true_iff in H. destruct H as [H H4].
  apply andb_true_iff in H. destruct H as [H H3].
  apply andb_true_iff in H. destruct H as [H1 H2].
  apply negb_true_iff in H2, H3.
  destruct (dict_get SUPPORTED_FORMATS (Str.lower ext)) as [f|]; [|discriminate H4].
  apply String.eqb_eq in H4. subst f. auto.
Qed.

Lemma named_file_is_convertible (d stem ext format : string) :
  In (ext, format) formats ->
  str_mem "/" stem = false -> Path.has_non_dot stem = true ->
  convertible (Path.join d [stem ++ "." ++ ext]) format.
Proof.
  intros Hin Hsep Hdot.
  destruct (formats_are_aliases ext format Hin) as (He & Hd & Hs & Hf).
  change (Path.join d [stem ++ "." ++ ext])
    with (Path.join2 d (stem ++ "." ++ ext)).
  split.
  - apply has_image_extension_join2, has_image_extension_append, He.
  - destruct (join2_name d stem ext Hsep) as (pre & -> & Hb).
    rewrite (get_output_format_inferred _ None eq_refl).
    rewrite (path_extension_last_dot pre ext Hd Hs) by (rewrite Hb; exact Hdot).
    now rewrite Hf.
Qed.

Section ExampleFacts.
Context {World Img Draw : Type}.
Variable lib : Library World Img.
Variable canvas : Canvas World Img Draw.

Lemma test_picture_extends (filename caption format_name : string)
    (color fill : Z * Z * Z) (acc : list string) :
  convertible filename format_name ->
  extends_by 1 acc
    (test_picture lib canvas filename caption format_name color fill acc).
Proof.
  intros Hc s. unfold test_picture, bind, ret, draw, save, call.
  destruct (Image_new canvas "RGB" (400, 300) color (world s)) as [[img|e] w1];
    cbn [world trace fst snd].
  2:{ exists []. rewrite app_nil_r.
      split; [reflexivity|]. split; [reflexivity|]. split; [reflexivity|].
      split; [constructor|]. intros acc' H. discriminate H. }
  destruct (ImageDraw_Draw canvas img w1) as [[d|e] w2]; cbn [world trace fst snd].
  2:{ exists []. rewrite app_nil_r.
      split; [reflexivity|]. split; [reflexivity|]. split; [reflexivity|].
      split; [constructor|]. intros acc' H. discriminate H. }
  destruct (Draw_text canvas d (200, 150) caption fill "mm" w2) as [[[]|e] w3];
    cbn [world trace fst snd].
  2:{ exists []. rewrite app_nil_r.
      split; [reflexivity|]. split; [reflexivity|]. split; [reflexivity|].
      split; [constructor|]. intros acc' H. discriminate H. }
  exists [(img, filename, format_name)].
  destruct (Image_save lib img filename format_name [] w3) as [[[]|e] w4];
    cbn [world trace fst snd]; rewrite saved_app, made_dirs_app, printed_app;
    cbn [saved made_dirs printed flat_map app]; rewrite ?app_nil_r;
    (split; [reflexivity|]); (split; [reflexivity|]); (split; [reflexivity|]);
    (split; [constructor; [exact Hc | constructor]|]).
  - intros acc' H. inversion H. split; reflexivity.
  - intros acc' H. discriminate H.
Qed.

Lemma for_each_extends {A : Type} (k : nat) (l : list A)
    (body : A -> list string -> @M World Img (list string)) :
  (forall x, In x l -> forall acc, extends_by k acc (body x acc)) ->
  forall acc, extends_by (List.length l * k) acc (for_each l body acc).
Proof.
  induction l as [|x l IH]; intros Hb acc s; cbn [for_each].
  - exists []. unfold ret. cbn [fst snd]. rewrite app_nil_r.
    split; [reflexivity|]. split; [reflexivity|]. split; [reflexivity|].
    split; [constructor|]. intros acc' H. inversion H.
    split; [now rewrite app_nil_r | reflexivity].
  - unfold bind.
    destruct (Hb x (or_introl eq_refl) acc s) as (n1 & Hs1 & Hm1 & Hp1 & Hg1 & Hr1).
    destruct (body x acc s) as [[acc1|e] s1]; cbn [fst snd] in *.
    + destruct (Hr1 acc1 eq_refl) as [-> Hl1].
      destruct (IH (fun y Hy => Hb y (or_intror Hy))
                  (acc ++ map (fun e => snd (fst e)) n1)%list s1)
        as (n2 & Hs2 & Hm2 & Hp2 & Hg2 & Hr2).
      exists (n1 ++ n2)%list.
      rewrite Hs2, Hs1, Hm2, Hm1, Hp2, Hp1, app_assoc.
      split; [reflexivity|]. split; [reflexivity|]. split; [reflexivity|].
      split; [apply Forall_app; split; assumption|].
      intros acc' H. destruct (Hr2 acc' H) as [-> Hl2].
      rewrite map_app, app_assoc, length_app, Hl1, Hl2. split; [reflexivity|].
      cbn [List.length]. lia.
    + exists n1. split; [exact Hs1|]. split; [exact Hm1|]. split; [exact Hp1|].
      split; [exact Hg1|]. intros acc' H. discriminate H.
Qed.

Lemma main_folder_pictures (folder_name : string) (i : Z) (acc : list string) :
  extends_by 5 acc
    (for_each formats
       (fun '(ext, format_name) =>
          test_picture lib canvas
            (Path.join folder_name
               ["test_image_" ++ Str.of_Z (i + 1) ++ "." ++ ext])
            ("Test Image " ++ Str.of_Z (i + 1) ++ " - " ++ format_name)
            format_name (73, 109, 137) (255, 255, 0)) acc).
Proof.
  apply (for_each_extends 1 formats). intros [ext format_name] Hin acc0.
  apply test_picture_extends.
  change ("test_image_" ++ Str.of_Z (i + 1) ++ "." ++ ext)
    with (("test_image_" ++ Str.of_Z (i + 1)) ++ "." ++ ext).
  apply named_file_is_convertible; [exact Hin | | reflexivity].
  cbn [append str_mem Ascii.eqb Bool.eqb orb]. apply of_Z_no_sep.
Qed.

Lemma subfolder_pictures (subfolder : string) (i : Z) (acc : list string) :
  extends_by 2 acc
    (for_each (firstn 2 formats)
       (fun '(ext, format_name) =>
          test_picture lib canvas
            (Path.join subfolder
               ["subtest_image_" ++ Str.of_Z (i + 1) ++ "." ++ ext])
            ("Subfolder Test " ++ Str.of_Z (i + 1) ++ " - " ++ format_name)
            format_name (137, 73, 109) (0, 255, 255)) acc).
Proof.
  apply (for_each_extends 1 (firstn 2 formats)). intros [ext format_name] Hin acc0.
  apply test_picture_extends.
  change ("subtest_image_" ++ Str.of_Z (i + 1) ++ "." ++ ext)
    with (("subtest_image_" ++ Str.of_Z (i + 1)) ++ "." ++ ext).
  apply named_file_is_convertible; [| | reflexivity].
  - destruct Hin as [Hin|[Hin|[]]]; rewrite <- Hin; cbn; auto.
  - cbn [append str_mem Ascii.eqb Bool.eqb orb]. apply of_Z_no_sep.
Qed.

Lemma length_range (n : Z) : List.length (range n) = Z.to_nat n.
Proof. unfold range. now rewrite length_map, length_seq. Qed.

(** The whole of a run of [create_test_images_folder]. *)
Lemma create_test_images_folder_run (folder_name : string) (count : Z)
    (s : state World Img) :
  exists new,
    saved (trace (snd (create_test_images_folder lib canvas folder_name count s)))
    = (saved (trace s) ++ new)%list
    /\ Forall (fun e => convertible (snd (fst e)) (snd e)) new
    /\ forall files,
        fst (create_test_images_folder lib canvas folder_name count s) = Ok files ->
        files = map (fun e => snd (fst e)) new
        /\ List.length files = (5 * Z.to_nat count + 4)%nat
        /\ made_dirs (trace (snd (create_test_images_folder lib canvas
                                    folder_name count s)))
           = (made_dirs (trace s)
              ++ [folder_name; Path.join folder_name ["subfolder"]])%list
        /\ printed (trace (snd (create_test_images_folder lib canvas
                                   folder_name count s)))
           = (printed (trace s)
              ++ [("Created " ++ Str.of_Z (Z.of_nat (List.length files))
                   ++ " test images in '" ++ folder_name ++ "' folder.")%string])%list.
Proof.
  destruct (create_test_images_folder lib canvas folder_name count s)
    as [r s'] eqn:Hrun.
  cbn [fst snd]. unfold create_test_images_folder in Hrun.
  set (main_loop := for_each (range count) _ []) in Hrun.
  unfold bind at 1 in Hrun. unfold makedirs at 1 in Hrun. unfold call in Hrun.
  destruct (os_makedirs lib folder_name (world s)) as [[[]|e] w1].
  2:{ inversion Hrun; subst. exists []. cbn [trace]. rewrite saved_app.
      cbn [saved flat_map app].
      split; [reflexivity|]. split; [constructor|].
      intros files H. discriminate H. }
  unfold bind at 1 in Hrun. unfold makedirs at 1 in Hrun. unfold call in Hrun.
  cbn [world trace] in Hrun.
  destruct (os_makedirs lib (Path.join folder_name ["subfolder"]) w1)
    as [[[]|e] w2].
  2:{ inversion Hrun; subst. exists []. cbn [trace]. rewrite !saved_app.
      cbn [saved flat_map app]. rewrite !app_nil_r.
      split; [reflexivity|]. split; [constructor|].
      intros files H. discriminate H. }
  set (s2 := mk_state w2 _) in Hrun.
  assert (Hs2 : saved (trace s2) = saved (trace s)
                /\ made_dirs (trace s2)
                   = (made_dirs (trace s)
                      ++ [folder_name; Path.join folder_name ["subfolder"]])%list
                /\ printed (trace s2) = printed (trace s)).
  { subst s2. cbn [trace].
    rewrite !saved_app, !made_dirs_app, !printed_app.
    cbn [saved made_dirs printed flat_map app]. rewrite !app_nil_r, <- app_assoc.
    auto. }
  destruct Hs2 as (Hsv2 & Hmd2 & Hpr2). clearbody s2.
  assert (Hmain : extends_by (List.length (range count) * 5) [] main_loop).
  { subst main_loop. apply (for_each_extends 5 (range count)).
    intros i _ acc. apply main_folder_pictures. }
  destruct (Hmain s2) as (n1 & Hs1 & Hm1 & Hp1 & Hg1 & Hr1).
  unfold bind at 1 in Hrun.
  destruct (main_loop s2) as [[files1|e] s3]; cbn [fst snd] in *.
  2:{ inversion Hrun; subst. exists n1. rewrite Hs1, Hsv2.
      split; [reflexivity|]. split; [exact Hg1|].
      intros files H. discriminate H. }
  destruct (Hr1 files1 eq_refl) as [-> Hl1]. cbn [app] in *.
  set (sub_loop := for_each (range 2) _ _) in Hrun.
  assert (Hsub : extends_by (List.length (range 2) * 2)
                   (map (fun e => snd (fst e)) n1) sub_loop).
  { subst sub_loop. apply (for_each_extends 2 (range 2)).
    intros i _ acc. apply subfolder_pictures. }
  destruct (Hsub s3) as (n2 & Hs4 & Hm4 & Hp4 & Hg4 & Hr4).
  unfold bind at 1 in Hrun.
  destruct (sub_loop s3) as [[files2|e] s4]; cbn [fst snd] in *.
  2:{ inversion Hrun; subst. exists (n1 ++ n2)%list.
      rewrite Hs4, Hs1, Hsv2, app_assoc.
      split; [reflexivity|]. split; [apply Forall_app; split; assumption|].
      intros files H. discriminate H. }
  destruct (Hr4 files2 eq_refl) as [-> Hl4].
  unfold bind, print, ret in Hrun. inversion Hrun; subst. clear Hrun.
  exists (n1 ++ n2)%list. cbn [world trace].
  rewrite saved_app, made_dirs_app, printed_app.
  cbn [saved made_dirs printed flat_map app]. rewrite !app_nil_r.
  rewrite Hs4, Hs1, Hsv2, Hm4, Hm1, Hmd2, Hp4, Hp1, Hpr2, app_assoc.
  split; [reflexivity|]. split; [apply Forall_app; split; assumption|].
  intros files H. inversion H as [Hf]. rewrite <- map_app.
  split; [reflexivity|].
  split; [|split; reflexivity].
  rewrite length_map, length_app, Hl1, Hl4, length_range.
  change (List.length (range 2)) with 2%nat. lia.
Qed.

End ExampleFacts.

Section ExampleTheorems.
Context {World Img Draw : Type}.
Variable lib : Library World Img.
Variable canvas : Canvas World Img Draw.

(** X18: every file that [create_test_images_folder] saves, whether or not
    it runs to its end, is one the converter takes up: its name ends in a
    supported extension, and the format the converter infers from the name
    is the format the file was saved in. *)
Theorem fixture_files_are_convertible (folder_name : string) (count : Z)
    (s : state World Img) :
  exists new,
    saved (trace (snd (create_test_images_folder lib canvas folder_name count s)))
    = (saved (trace s) ++ new)%list
    /\ Forall (fun e => convertible (snd (fst e)) (snd e)) new.
Proof.
  destruct (create_test_images_folder_run lib canvas folder_name count s)
    as (new & Hs & Hg & _).
  exists new. split; assumption.
Qed.

(** X19: when [create_test_images_folder] returns, the list it returns is
    the list of the paths it saved, in the order of saving; there are
    [5 * count + 4] of them (four for a [count] below one); the two
    directories were asked for, the folder before its sub-folder; and the
    one line printed gives the number of files. *)
Theorem fixture_returns_what_it_saved (folder_name : string) (count : Z)
    (s s' : state World Img) (files : list string) :
  create_test_images_folder lib canvas folder_name count s = (Ok files, s') ->
  saved_paths (trace s') = (saved_paths (trace s) ++ files)%list
  /\ List.length files = (5 * Z.to_nat count + 4)%nat
  /\ made_dirs (trace s')
     = (made_dirs (trace s)
        ++ [folder_name; Path.join folder_name ["subfolder"]])%list
  /\ printed (trace s')
     = (printed (trace s)
        ++ [("Created " ++ Str.of_Z (Z.of_nat (List.length files))
             ++ " test images in '" ++ folder_name ++ "' folder.")%string])%list.
Proof.
  intros Hrun.
  destruct (create_test_images_folder_run lib canvas folder_name count s)
    as (new & Hs & _ & Hr).
  rewrite Hrun in Hs, Hr. cbn [fst snd] in Hs, Hr.
  destruct (Hr files eq_refl) as (Hf & Hl & Hm & Hp).
  split; [|split; [exact Hl | split; [exact Hm | exact Hp]]].
  unfold saved_paths. rewrite Hs, map_app, Hf. reflexivity.
Qed.

End ExampleTheorems.

(** ** The script *)

Section ScriptFacts.
Context {World Img T : Type}.
Variable lib : Library World Img.
Variable osp : OsPath World.
Variable clock : Clock World T.
Variable parse_args : Argparse.parser -> list string -> result Namespace.

(** X20: whatever the command line, [parse_arguments] raises
    [ArgumentError] when it registers [-h/--height], because [-h] is the
    help option of the parser; so the script prints its banner and the
    error, and exits with status 1, with nothing parsed, opened, listed,
    created or written. *)
Theorem script_stops_at_the_height_option
    (argv : list string) (s : state World Img) :
  parse_arguments parse_args argv
  = Raise (mk_exn "ArgumentError"
             "argument -h/--height: conflicting option string: -h")
  /\ script lib osp clock parse_args argv s
     = (Ok 1,
        mk_state (world s)
          (trace s
           ++ map (@EvPrint Img)
                [ banner;
                  Fore.CYAN ++ "Version: " ++ Fore.WHITE ++ "1.0.0";
                  Fore.CYAN ++ "Created by: " ++ Fore.WHITE ++ "Ati";
                  Fore.CYAN ++ "License: " ++ Fore.WHITE ++ "MIT";
                  "";
                  Fore.RED ++ "Unexpected error: "
                  ++ "argument -h/--height: conflicting option string: -h" ])).
Proof.
  assert (H : parse_arguments parse_args argv
              = Raise (mk_exn "ArgumentError"
                         "argument -h/--height: conflicting option string: -h"))
    by reflexivity.
  split; [exact H|].
  unfold script, main, print_banner, try_except, bind, lift, print, ret.
  rewrite H. cbv beta iota zeta. cbn [world trace map exn_str].
  rewrite <- !app_assoc. reflexivity.
Qed.

End ScriptFacts.

(** ** The further properties on concrete inputs *)

(** X1 on the RGBA logo written as PNG: no conversion. *)
Lemma conversion_is_decided_witness :
  Image_open Sim.library "logo.png" Inputs.disk = (Ok Inputs.logo, Inputs.disk)
  /\ converted (trace (snd (process_image Sim.library "logo.png" "out/logo.png"
                              "PNG" 90 None None false (fresh Inputs.disk))))
     = [].
Proof.
  assert (H : Image_open Sim.library "logo.png" Inputs.disk
              = (Ok Inputs.logo, Inputs.disk)) by reflexivity.
  split; [exact H|].
  exact (conversion_is_decided_by_flag_mode_and_format Sim.library "logo.png"
           "out/logo.png" "PNG" 90 None None false Inputs.disk Inputs.disk
           Inputs.logo H).
Defined.

(** X4 on the photo written as PNG. *)
Lemma true_means_saved_witness :
  let run := process_image Sim.library "photo.png" "out/p.png" "PNG" 90
               None None false (fresh Inputs.disk) in
  run = (Ok true, snd run)
  /\ exists img w1 tr,
      Image_save Sim.library img "out/p.png" "PNG" (save_kwargs "PNG" 90) w1
      = (Ok tt, world (snd run))
      /\ trace (snd run)
         = (tr ++ [EvSave img "out/p.png" "PNG" (save_kwargs "PNG" 90)])%list.
Proof.
  intros run.
  assert (H : run = (Ok true, snd run)) by reflexivity.
  split; [exact H|].
  exact (true_means_saved Sim.library "photo.png" "out/p.png" "PNG" 90
           None None false (fresh Inputs.disk) (snd run) H).
Defined.

(** X5 on the 800x600 photo asked at 400x100. *)
Lemma explicit_size_is_used_as_given_witness :
  400 <> 0 /\ 100 <> 0
  /\ forall img size,
      In (img, size)
        (resized (trace (snd (process_image Sim.library "photo.png" "out/p.png"
                                "PNG" 90 (Some 400) (Some 100) false
                                (fresh Inputs.disk))))) ->
      size = (Some 400, Some 100).
Proof.
  assert (H1 : 400 <> 0) by lia. assert (H2 : 100 <> 0) by lia.
  split; [exact H1|]. split; [exact H2|].
  exact (proj2 (explicit_size_is_used_as_given Sim.library "photo.png"
                  "out/p.png" "PNG" 90 400 100 false Inputs.disk H1 H2)).
Defined.

(** X6 on the directory [in]. *)
Lemma find_image_files_yields_witness :
  fs_entries Sim.library "in" Inputs.disk
  = Ok [ File "a.png"; File "a.jpg"; File "notes.txt";
         Dir "album.png" [ File "readme.md" ] ]
  /\ exists files s',
      find_image_files Sim.library "in" true (fresh Inputs.disk) = (Ok files, s')
      /\ forall p,
          In p files <->
          exists root name,
            file_at "in" [ File "a.png"; File "a.jpg"; File "notes.txt";
                           Dir "album.png" [ File "readme.md" ] ] root name
            /\ has_image_extension name = true
            /\ p = Path.join root [name].
Proof.
  assert (H : fs_entries Sim.library "in" Inputs.disk
              = Ok [ File "a.png"; File "a.jpg"; File "notes.txt";
                     Dir "album.png" [ File "readme.md" ] ]) by reflexivity.
  split; [exact H|].
  exact (proj2 (find_image_files_yields Sim.library "in" (fresh Inputs.disk)
                  _ H)).
Defined.

(** X7 on the recursive enumeration of [in]. *)
Lemma found_files_have_image_extensions_witness :
  find_image_files Sim.library "in" true (fresh Inputs.disk)
  = (Ok ["in/a.png"; "in/a.jpg"], mk_state Inputs.disk [EvWalk "in"])
  /\ Forall (fun p => has_image_extension p = true) ["in/a.png"; "in/a.jpg"].
Proof.
  assert (H : find_image_files Sim.library "in" true (fresh Inputs.disk)
              = (Ok ["in/a.png"; "in/a.jpg"], mk_state Inputs.disk [EvWalk "in"]))
    by reflexivity.
  split; [exact H|].
  exact (found_files_have_image_extensions Sim.library "in" true
           (fresh Inputs.disk) _ _ H).
Defined.

(** X8 on [out/holiday.2024.JPG]. *)
Lemma format_is_inferred_witness :
  str_mem "." "JPG" = false /\ str_mem "/" "JPG" = false
  /\ Path.has_non_dot (Path.basename "out/holiday.2024") = true
  /\ get_output_format "out/holiday.2024.JPG" None = Ok "JPEG".
Proof.
  assert (H1 : str_mem "." "JPG" = false) by reflexivity.
  assert (H2 : str_mem "/" "JPG" = false) by reflexivity.
  assert (H3 : Path.has_non_dot (Path.basename "out/holiday.2024") = true)
    by reflexivity.
  split; [exact H1|]. split; [exact H2|]. split; [exact H3|].
  exact (format_is_inferred_from_last_extension "out/holiday.2024" "JPG"
           H1 H2 H3).
Defined.

(** X9 on the type [PnG]. *)
Lemma explicit_type_witness :
  "PnG" <> ""
  /\ get_output_format "a.jpg" (Some "PnG") = get_output_format "b.gif" (Some "png")
  /\ get_output_format "a.jpg" (Some "PnG") = Ok "PNG".
Proof.
  assert (H : "PnG" <> "") by discriminate.
  split; [exact H|].
  exact (explicit_type_ignores_path_and_case "a.jpg" "b.gif" "PnG" H).
Defined.

(** X10 on [in/a.png] converted to WEBP. *)
Lemma destination_resolves_witness :
  In "WEBP" canonical_formats
  /\ Path.has_non_dot (Path.basename "in/a.png") = true
  /\ exists output_path,
      destination Sim.library "in" "out" (format_extension "WEBP") false
        "in/a.png" (fresh Inputs.disk)
      = (Ok output_path, fresh Inputs.disk)
      /\ get_output_format output_path None = Ok "WEBP".
Proof.
  assert (H1 : In "WEBP" canonical_formats) by (cbn; auto).
  assert (H2 : Path.has_non_dot (Path.basename "in/a.png") = true)
    by reflexivity.
  split; [exact H1|]. split; [exact H2|].
  exact (destination_resolves_to_target_format Sim.library "in" "out"
           "in/a.png" "WEBP" (fresh Inputs.disk) H1 H2).
Defined.

(** X11 on the directory [in] converted to WEBP: two files are written, the
    directory [album.png] fails. *)
Lemma flat_batch_outputs_witness :
  let run := process_directory Sim.library "in" "out" "WEBP" 90 None None
               false false (fresh Inputs.disk) in
  run = (Ok (2, 3), snd run)
  /\ exists image_files s1 outs,
      find_image_files Sim.library "in" false (fresh Inputs.disk)
      = (Ok image_files, s1)
      /\ saved (trace (snd run)) = (saved (trace (fresh Inputs.disk)) ++ outs)%list
      /\ 2 <= Z.of_nat (List.length outs) <= 3
      /\ Forall
           (fun t : Sim.image * string * string =>
              snd t = "WEBP"
              /\ exists input_path,
                  In input_path image_files
                  /\ snd (fst t)
                     = Path.join "out"
                         [fst (Path.splitext (Path.basename input_path))
                          ++ "." ++ format_extension "WEBP"])
           outs.
Proof.
  intros run.
  assert (H : run = (Ok (2, 3), snd run)) by reflexivity.
  split; [exact H|].
  exact (flat_batch_outputs Sim.library "in" "out" "WEBP" 90 None None false
           (fresh Inputs.disk) (snd run) 2 3 H).
Defined.

(** X12 on a directory that does not exist. *)
Lemma unlistable_directory_witness :
  fs_entries Sim.library "nowhere" Inputs.disk
  = Raise (Sim.no_such_file "nowhere")
  /\ fst (process_directory Sim.library "nowhere" "out" "PNG" 90 None None
            true false (fresh Inputs.disk)) = Ok (0, 0)
  /\ fst (process_directory Sim.library "nowhere" "out" "PNG" 90 None None
            false false (fresh Inputs.disk))
     = Raise (Sim.no_such_file "nowhere").
Proof.
  assert (H : fs_entries Sim.library "nowhere" Inputs.disk
              = Raise (Sim.no_such_file "nowhere")) by reflexivity.
  split; [exact H|].
  destruct (unlistable_directory Sim.library "nowhere" "out" "PNG" 90 None None
              false (fresh Inputs.disk) _ H) as [Hrec Hflat].
  split.
  - exact (f_equal fst Hrec).
  - exact (f_equal fst Hflat).
Defined.

(** X13 on a file system that refuses to create [out]. *)
Lemma output_directory_failure_witness :
  find_image_files ReadOnly.library "pics" false (fresh Inputs.disk)
  = (Ok ["pics/a.png"; "pics/b.JPG"], mk_state Inputs.disk [EvListdir "pics"])
  /\ os_makedirs ReadOnly.library "out" Inputs.disk
     = (Raise (mk_exn "PermissionError" "[Errno 13] Permission denied: 'out'"),
        Inputs.disk)
  /\ process_directory ReadOnly.library "pics" "out" "PNG" 90 None None
       false false (fresh Inputs.disk)
     = (Raise (mk_exn "PermissionError" "[Errno 13] Permission denied: 'out'"),
        mk_state Inputs.disk [EvListdir "pics"; EvMakedirs "out"]).
Proof.
  assert (H1 : find_image_files ReadOnly.library "pics" false (fresh Inputs.disk)
               = (Ok ["pics/a.png"; "pics/b.JPG"],
                  mk_state Inputs.disk [EvListdir "pics"])) by reflexivity.
  assert (H2 : os_makedirs ReadOnly.library "out" Inputs.disk
               = (Raise (mk_exn "PermissionError"
                           "[Errno 13] Permission denied: 'out'"), Inputs.disk))
    by reflexivity.
  split; [exact H1|]. split; [exact H2|].
  exact (output_directory_failure ReadOnly.library "pics" "out" "PNG" 90
           None None false false (fresh Inputs.disk) _ _ _ _ _ H1 H2).
Defined.


(** X15 on the command line for the directory [pics]. *)
Lemma directory_mode_witness :
  truthy_str (arg_input Cli.batch) = false
  /\ type_in_choices (arg_type Cli.batch) = true
  /\ exists f,
      dict_get SUPPORTED_FORMATS "png" = Some f /\ In f canonical_formats.
Proof.
  assert (H1 : truthy_str (arg_input Cli.batch) = false) by reflexivity.
  assert (H2 : type_in_choices (arg_type Cli.batch) = true) by reflexivity.
  split; [exact H1|]. split; [exact H2|].
  destruct (proj2 (proj2 (proj2 (directory_mode Sim.library SimOs.os_path
                                   Cli.batch (fresh Inputs.disk) H1 H2)
                            "pics" eq_refl))
              eq_refl "png" eq_refl)
    as (f & s0 & Hf & Hc & _).
  exists f. split; [exact Hf | exact Hc].
Defined.

(** X16 on [pics/2024/may/cat.png] converted to WEBP. *)
Lemma recursive_destination_mirrors_witness :
  Path.isabs (os_getcwd Sim.library Inputs.disk) = true
  /\ Forall (fun d => plain_name d = true) ["2024"; "may"]
  /\ plain_name "cat.png" = true
  /\ destination Sim.library "pics" "out" "webp" true "pics/2024/may/cat.png"
       (fresh Inputs.disk)
     = (Ok "out/2024/may/cat.webp",
        mk_state Inputs.disk [EvMakedirs "out/2024/may"]).
Proof.
  assert (H1 : Path.isabs (os_getcwd Sim.library Inputs.disk) = true)
    by reflexivity.
  assert (H2 : Forall (fun d => plain_name d = true) ["2024"; "may"])
    by (repeat constructor).
  assert (H3 : plain_name "cat.png" = true) by reflexivity.
  split; [exact H1|]. split; [exact H2|]. split; [exact H3|].
  exact (recursive_destination_mirrors_subdirectories Sim.library "pics" "out"
           "webp" ["2024"; "may"] "cat.png" (fresh Inputs.disk) H1 H2 H3).
Defined.

(** X17 on the tree below [pics] of the archive. *)
Lemma recursive_enumeration_witness :
  fs_entries Sim.library "pics" Inputs.archive
  = Ok [ File "a.png";
         Dir "2024" [ Dir "may" [ File "cat.png"; File "notes.txt" ] ] ]
  /\ exists files,
      find_image_files Sim.library "pics" true (fresh Inputs.archive)
      = (Ok files, mk_state Inputs.archive [EvWalk "pics"])
      /\ In "pics/2024/may/cat.png" files
      /\ ~ In "pics/2024/may/notes.txt" files.
Proof.
  assert (H : fs_entries Sim.library "pics" Inputs.archive
              = Ok [ File "a.png";
                     Dir "2024" [ Dir "may" [ File "cat.png"; File "notes.txt" ] ] ])
    by reflexivity.
  split; [exact H|].
  destruct (recursive_enumeration_follows_the_tree Sim.library "pics"
              (fresh Inputs.archive) _ H) as (files & Hrun & Hiff & _).
  exists files. split; [exact Hrun|]. split.
  - apply Hiff.
    exists ["2024"; "may"], [ File "cat.png"; File "notes.txt" ], "cat.png".
    split.
    + eapply reaches_below; [right; left; reflexivity|].
      eapply reaches_below; [left; reflexivity|]. apply reaches_here.
    + split; [left; reflexivity|]. split; reflexivity.
  - intros Hin. apply Hiff in Hin.
    destruct Hin as (ds & below & name & _ & _ & Hext & Hp).
    assert (Hx : has_image_extension "pics/2024/may/notes.txt" = true).
    { rewrite Hp, join_snoc. apply has_image_extension_join2, Hext. }
    discriminate Hx.
Defined.

(** X19 on a run with [count = 1] in the in-memory world. *)
Lemma fixture_returns_witness :
  exists files s',
    create_test_images_folder Sim.library SimCanvas.canvas "test_images" 1
      (fresh Inputs.disk) = (Ok files, s')
    /\ List.length files = 9%nat
    /\ saved_paths (trace s') = files
    /\ printed (trace s')
       = ["Created 9 test images in 'test_images' folder."].
Proof.
  eexists. eexists.
  assert (H : create_test_images_folder Sim.library SimCanvas.canvas
                "test_images" 1 (fresh Inputs.disk) = (Ok _, _))
    by (vm_compute; reflexivity).
  split; [exact H|].
  destruct (fixture_returns_what_it_saved Sim.library SimCanvas.canvas
              "test_images" 1 _ _ _ H) as (Hs & Hl & _ & Hp).
  split; [exact Hl|]. split; [exact Hs | exact Hp].
Defined.
